(** * tak-server-mcp: entity reconciliation and geospatial analytics

    A shallow embedding of the TypeScript sources

      - src/clients/tak-server.ts   (getCotEvents, parseCotEvent,
        getEntities, getEntity)
      - src/types/cot.ts, src/types/tak.ts   (the records)
      - src/tools/geospatial/find-nearest.ts
      - src/tools/geospatial/create-geofence.ts
      - src/tools/geospatial/calculate-distance.ts
      - src/tools/geospatial/analyze-movement.ts
      - src/tools/geospatial/spatial-query.ts
      - src/tools/entities/get-entities.ts
      - src/tools/alerts/send-emergency.ts
      - src/tools/registry.ts

    followed by the properties the specification states about them, and
    by further properties of the code.

    Modelling conventions.

    - A JavaScript number is an IEEE double.  Where the code can meet NaN
      (the client, and the coordinates of an entity) a number is a value of
      [JS.number]: NaN or a finite value, held as a rational ([Q]).  What
      turf computes from coordinates it has accepted (turf.point throws on
      NaN) is finite, so it is a [Q].
    - [parseFloat] rounds as the language does: [JS.read] answers with
      the double nearest to the text, with zero below the smallest double
      and with an infinity beyond the largest.  An infinity is not a
      [JS.number]; what is stated of an attribute is stated through
      [JS.read], the infinite readings apart.
    - Arithmetic on numbers (sums, quotients, averages) is exact
      arithmetic on [Q]: the rounding of each operation to a double is
      not modelled, and what is proved of a computed value is proved of
      its exact value.  Comparisons, minima, maxima and [Math.round] of a
      given number are the same in either reading.
    - A [Date] is its time value: epoch milliseconds, or nothing for an
      Invalid Date.
    - A JavaScript [Map] keeps insertion order, and the code returns
      [Array.from(map.values())]: maps are association lists in insertion
      order.
    - An exception is a value: a function that may throw returns a
      [Client.result], and a handler's catch clause turns it into the error
      payload.
    - The functions of the third-party library turf are not part of the
      repository.  Where a property does not depend on what they compute
      they are parameters of the sections that use them; the distance and
      the bearing of tak_calculate_distance, whose geometry is the subject
      of a property, are modelled from the specification over the reals.
    - The sources hold no geofence evaluator; the state machine of section
      4.4 of the specification is modelled from its description.
    - A request to the server is a parameter: a function from what is
      asked to the decoded answer or the exception of the request.
    - An object literal used as a dictionary is the list of its own
      properties in the order of their creation; the properties it
      inherits are accounted for where the code reads a key that may be
      one of them.
    - [Math.sqrt] has no rational model: it is a parameter where it is
      used. *)

From Stdlib Require Import ZArith QArith Qround Qabs List String Ascii Bool Lia Lqa.
From Stdlib Require Import Sorted Permutation.
From Stdlib Require Import Reals Lra.
Import ListNotations.

Local Open Scope Z_scope.

(** ** JavaScript primitives *)

Module JS.

(** An IEEE double other than the infinities: NaN or a finite value.  No
    arithmetic of the client produces an infinity; of its inputs only a
    text that [parseFloat] reads as one does (the word Infinity, or a
    decimal beyond the largest double), and such a reading is kept apart,
    in [parsed] below. *)
Inductive number : Type :=
| NaN
| Num (q : Q).

(** ToBoolean on a number: NaN and zero are falsy. *)
Definition truthy (n : number) : bool :=
  match n with
  | NaN => false
  | Num q => negb (Qeq_bool q 0)
  end.

(** [a || b] on numbers. *)
Definition or_else (a b : number) : number :=
  if truthy a then a else b.

(** Strict equality [===] on numbers: NaN equals nothing. *)
Definition strict_eq (a b : number) : bool :=
  match a, b with
  | Num x, Num y => Qeq_bool x y
  | _, _ => false
  end.

(** A [Date] is its time value in epoch milliseconds; [None] is the
    Invalid Date. *)
Definition Date : Type := option Z.

(** [a > b] on Dates compares the time values; a comparison that involves
    an Invalid Date (NaN) is false. *)
Definition date_gt (a b : Date) : bool :=
  match a, b with
  | Some x, Some y => x >? y
  | _, _ => false
  end.

(** ToBoolean on an optional string: undefined and the empty string are
    falsy. *)
Definition str_truthy (s : option string) : bool :=
  match s with
  | Some (String _ _) => true
  | _ => false
  end.

(** A loosely typed attribute value, as the XML parser hands it over
    (with [parseAttributeValue: true] a numeric attribute already is a
    number). *)
Inductive value : Type :=
| Undefined
| VNum (n : number)
| VStr (s : string).

(** *** parseFloat on strings

    A string is the UTF-8 encoding of the text.  [parseFloat] skips the
    white space at its head, reads the longest prefix that is a decimal
    literal or an infinity, and answers with the double nearest to what
    it has read. *)

Definition is_space (c : ascii) : bool :=
  let n := N_of_ascii c in
  ((n =? 32) || (n =? 9) || (n =? 10) || (n =? 11) || (n =? 12) || (n =? 13))%N.

(** The white space beyond ASCII, by its bytes: U+00A0 on two, and on
    three U+1680, U+2000 to U+200A, U+2028, U+2029, U+202F, U+205F,
    U+3000 and U+FEFF. *)
Definition is_space2 (a b : ascii) : bool :=
  ((N_of_ascii a =? 194) && (N_of_ascii b =? 160))%N.

Definition is_space3 (a b c : ascii) : bool :=
  let '(x, y, z) := (N_of_ascii a, N_of_ascii b, N_of_ascii c) in
  (((x =? 225) && (y =? 154) && (z =? 128)) ||
   ((x =? 226) && (y =? 128) &&
    (((128 <=? z) && (z <=? 138)) || (z =? 168) || (z =? 169) || (z =? 175))) ||
   ((x =? 226) && (y =? 129) && (z =? 159)) ||
   ((x =? 227) && (y =? 128) && (z =? 128)) ||
   ((x =? 239) && (y =? 187) && (z =? 191)))%N.

Fixpoint skip_space (s : string) : string :=
  match s with
  | String a s1 =>
      if is_space a then skip_space s1
      else
        match s1 with
        | String b s2 =>
            if is_space2 a b then skip_space s2
            else
              match s2 with
              | String c s3 => if is_space3 a b c then skip_space s3 else s
              | EmptyString => s
              end
        | EmptyString => s
        end
  | EmptyString => s
  end.

Definition digit_of (c : ascii) : option Z :=
  let n := Z.of_N (N_of_ascii c) in
  if (48 <=? n) && (n <=? 57) then Some (n - 48) else None.

(** The digits at the head of [s]: their value on top of [acc], how many
    there are, and the rest of the string. *)
Fixpoint read_digits (s : string) (acc : Z) (cnt : nat) : Z * nat * string :=
  match s with
  | String c s' =>
      match digit_of c with
      | Some d => read_digits s' (10 * acc + d) (S cnt)
      | None => (acc, cnt, s)
      end
  | EmptyString => (acc, cnt, s)
  end.

(** An optional sign at the head of [s]. *)
Definition read_sign (s : string) : bool * string :=
  match s with
  | String "-"%char s' => (true, s')
  | String "+"%char s' => (false, s')
  | _ => (false, s)
  end.

(** The exponent part [e[+-]digits] at the head of [s], zero when absent
    or without digits. *)
Definition read_exponent (s : string) : Z :=
  match s with
  | String c s' =>
      if (Ascii.eqb c "e" || Ascii.eqb c "E")%bool then
        let '(neg, s1) := read_sign s' in
        let '(e, n, _) := read_digits s1 0 0%nat in
        match n with
        | O => 0
        | S _ => if neg then - e else e
        end
      else 0
  | EmptyString => 0
  end.

Definition pow10 (e : Z) : Q :=
  if e <? 0 then 1 # Pos.pow 10 (Z.to_pos (- e)) else inject_Z (10 ^ e).

(** **** The nearest double

    A double is [m * 2^e] with [m] below 2^53 and [e] from -1074 to 971.
    The integer part of the binary logarithm of [n/d]: *)
Definition floor_log2 (n d : positive) : Z :=
  let k := Z.log2 (Zpos n) - Z.log2 (Zpos d) in
  let below :=
    if k <? 0 then Zpos n * 2 ^ (- k) <? Zpos d
    else Zpos n <? Zpos d * 2 ^ k in
  if below then k - 1 else k.

(** The integer nearest to [n/d], a tie going to the even one. *)
Definition round_half_even (n d : Z) : Z :=
  let q := n / d in
  let r := n mod d in
  if 2 * r <? d then q
  else if d <? 2 * r then q + 1
  else if Z.even q then q else q + 1.

(** The double nearest to the positive rational [n/d], in lowest terms;
    [None] when [n/d] rounds beyond the largest double, to an infinity.
    What is too small for a double rounds to zero. *)
Definition nearest_double_pos (n d : positive) : option Q :=
  let e := Z.max (floor_log2 n d - 52) (-1074) in
  let m :=
    if e <? 0 then round_half_even (Zpos n * 2 ^ (- e)) (Zpos d)
    else round_half_even (Zpos n) (Zpos d * 2 ^ e) in
  if (971 <? e) || ((e =? 971) && (2 ^ 53 <=? m)) then None
  else Some (Qred (if e <? 0 then m # Z.to_pos (2 ^ (- e))
                   else inject_Z (m * 2 ^ e))).

Definition nearest_double (q : Q) : option Q :=
  match Qnum q with
  | Z0 => Some 0%Q
  | Zpos n => nearest_double_pos n (Qden q)
  | Zneg n => option_map Qopp (nearest_double_pos n (Qden q))
  end.

(** What [parseFloat] reads: a number, or an infinity.  An infinity is
    not a [number]: it is kept apart. *)
Inductive parsed : Type :=
| Finite (n : number)
| Infinite (negative : bool).

Definition read_string (s : string) : parsed :=
  let '(neg, s1) := read_sign (skip_space s) in
  if String.prefix "Infinity" s1 then Infinite neg
  else
    let '(ip, n1, s2) := read_digits s1 0 0%nat in
    let '(fp, n2, s3) :=
      match s2 with
      | String "."%char s2' => read_digits s2' 0 0%nat
      | _ => (0, 0%nat, s2)
      end in
    match (n1 + n2)%nat with
    | O => Finite NaN
    | S _ =>
        let mant := inject_Z (ip * 10 ^ Z.of_nat n2 + fp) in
        let e := read_exponent s3 - Z.of_nat n2 in
        match nearest_double (mant * pow10 e) with
        | Some d => Finite (Num (if neg then Qopp d else d))
        | None => Infinite neg
        end
    end.

(** [parseFloat(v)] is parseFloat on [ToString(v)]: NaN for undefined,
    the number itself for a number. *)
Definition read (v : value) : parsed :=
  match v with
  | Undefined => Finite NaN
  | VNum n => Finite n
  | VStr s => read_string s
  end.

(** [parseFloat] as a [number].  Where the code reads an infinity (the
    text Infinity, or a decimal beyond the largest double) the result has
    no [number]: NaN stands in its place here, and what is stated of the
    parser is stated of the attributes that [read] finds finite. *)
Definition parseFloat_string (s : string) : number :=
  match read_string s with
  | Finite n => n
  | Infinite _ => NaN
  end.

Definition parseFloat (v : value) : number :=
  match read v with
  | Finite n => n
  | Infinite _ => NaN
  end.

(** [Math.round] on a finite number: the nearest integer, halves rounded
    up. *)
Definition Math_round (x : Q) : Z := Qfloor (x + (1 # 2)).

(** Truncation toward zero. *)
Definition trunc (x : Q) : Z :=
  if Qle_bool 0 x then Qfloor x else Qceiling x.

(** The remainder operator [x % m] on finite numbers: the result has the
    sign of the dividend. *)
Definition rem (x m : Q) : Q := x - m * inject_Z (trunc (x / m)).

Definition Qlt_bool (a b : Q) : bool := negb (Qle_bool b a).

(** [l.sort((a, b) => key(a) - key(b))] for integer keys.  The sort of
    the language is stable (ECMAScript 2019): elements with equal keys
    keep their order.  Insertion from the right realises it. *)
Section Sort.
Context {A : Type} (key : A -> Z).

Fixpoint insert (x : A) (l : list A) : list A :=
  match l with
  | [] => [x]
  | y :: l' => if key x <=? key y then x :: l else y :: insert x l'
  end.

Fixpoint sort_by (l : list A) : list A :=
  match l with
  | [] => []
  | x :: l' => insert x (sort_by l')
  end.
End Sort.

(** [l.slice(0, k)] for an integer [k]: a negative [k] counts from the
    end. *)
Definition slice0 {A : Type} (l : list A) (k : Z) : list A :=
  if k <? 0 then firstn (Z.to_nat (Z.max (Z.of_nat (List.length l) + k) 0)) l
  else firstn (Z.to_nat k) l.

End JS.

(** ** The TAK server client: src/clients/tak-server.ts *)

Module Client.

(** [CotPoint] of src/types/cot.ts. *)
Record CotPoint : Type := mkCotPoint {
  lat : JS.number;
  lon : JS.number;
  hae : JS.number;
  ce : JS.number;
  le : JS.number
}.

(** The parts of [CotDetail] the client reads, each reached through
    optional chaining ([detail?.contact?.callsign] and so on), so that an
    absent parent and an absent leaf are the same [None]. *)
Record CotDetail : Type := mkCotDetail {
  contact_callsign : option string;
  group_name : option string;
  group_role : option string;
  status_battery : option JS.number;
  status_readiness : option bool;
  track_speed : option JS.number;
  track_course : option JS.number
}.

(** [CotEvent] of src/types/cot.ts.  The parser copies [uid], [type] and
    [how] as they come, so they may be undefined. *)
Record CotEvent : Type := mkCotEvent {
  uid : option string;
  type : option string;
  time : JS.Date;
  start : JS.Date;
  stale : JS.Date;
  how : option string;
  point : CotPoint;
  detail : option CotDetail
}.

(** The [point] element of a decoded event, attributes loosely typed. *)
Record RawPoint : Type := mkRawPoint {
  raw_lat : JS.value;
  raw_lon : JS.value;
  raw_hae : JS.value;
  raw_ce : JS.value;
  raw_le : JS.value
}.

(** [eventData: any], the decoded event.  The three time attributes are
    held as the Date that [new Date(attribute)] makes of them: Invalid
    Date when the attribute is missing or does not parse.  [uid], [type]
    and [how] are strings or undefined, as [CotEvent] declares them; an
    attribute that the XML parser has turned into a number (a uid made of
    digits only) is not among the events of the model. *)
Record RawEvent : Type := mkRawEvent {
  raw_uid : option string;
  raw_type : option string;
  raw_time : JS.Date;
  raw_start : JS.Date;
  raw_stale : JS.Date;
  raw_how : option string;
  raw_point : option RawPoint;
  raw_detail : option CotDetail
}.

(** What a call yields: a value, or the exception it throws. *)
Inductive result (A : Type) : Type :=
| Ok (a : A)
| Throw (message : string).
Arguments Ok {A} a.
Arguments Throw {A} message.

(** The sentinel the parser writes for an unknown height or error. *)
Definition UNKNOWN : JS.number := JS.Num 999999.

(** What lines 190-196 make of the five attributes of a point, whatever
    they hold: [parseFloat] of latitude and longitude, and
    [parseFloat(x) || 999999] of the height and of the two errors.  An
    infinity is truthy, so [||] keeps it. *)
Record ParsedPoint : Type := mkParsedPoint {
  parsed_lat : JS.parsed;
  parsed_lon : JS.parsed;
  parsed_hae : JS.parsed;
  parsed_ce : JS.parsed;
  parsed_le : JS.parsed
}.

Definition or_unknown (x : JS.parsed) : JS.parsed :=
  match x with
  | JS.Finite n => JS.Finite (JS.or_else n UNKNOWN)
  | JS.Infinite negative => JS.Infinite negative
  end.

Definition parsePoint (p : RawPoint) : ParsedPoint :=
  {| parsed_lat := JS.read (raw_lat p);
     parsed_lon := JS.read (raw_lon p);
     parsed_hae := or_unknown (JS.read (raw_hae p));
     parsed_ce := or_unknown (JS.read (raw_ce p));
     parsed_le := or_unknown (JS.read (raw_le p)) |}.

(** [parseCotEvent], lines 182-199.  Reading an attribute of a missing
    [point] is the only thing that throws (a TypeError).  The point of the
    event holds [JS.number]s: it is the point of the code wherever
    [parsePoint] finds a number, and stands for nothing where
    [parsePoint] finds an infinity. *)
Definition parseCotEvent (eventData : RawEvent) : result CotEvent :=
  match raw_point eventData with
  | None => Throw "TypeError: Cannot read properties of undefined"
  | Some p =>
      Ok {| uid := raw_uid eventData;
            type := raw_type eventData;
            time := raw_time eventData;
            start := raw_start eventData;
            stale := raw_stale eventData;
            how := raw_how eventData;
            point := {| lat := JS.parseFloat (raw_lat p);
                        lon := JS.parseFloat (raw_lon p);
                        hae := JS.or_else (JS.parseFloat (raw_hae p)) UNKNOWN;
                        ce := JS.or_else (JS.parseFloat (raw_ce p)) UNKNOWN;
                        le := JS.or_else (JS.parseFloat (raw_le p)) UNKNOWN |};
            detail := raw_detail eventData |}
  end.

(** [TAKEntity] and [EntityStatus] of src/types/tak.ts. *)
Record Location : Type := mkLocation {
  loc_lat : JS.number;
  loc_lon : JS.number;
  loc_alt : option JS.number
}.

Record EntityStatus : Type := mkEntityStatus {
  online : bool;
  battery : option JS.number;
  speed : option JS.number;
  course : option JS.number;
  readiness : string
}.

Record TAKEntity : Type := mkTAKEntity {
  e_uid : option string;
  callsign : option string;
  e_type : option string;
  team : string;
  role : string;
  location : Location;
  lastUpdate : JS.Date;
  status : EntityStatus;
  attributes : option CotDetail
}.

Definition opt_bind {A B : Type} (o : option A) (f : A -> option B) : option B :=
  match o with
  | Some a => f a
  | None => None
  end.

(** [s || d] on an optional string with a string default. *)
Definition str_or (s : option string) (d : string) : string :=
  match s with
  | Some (String c r) => String c r
  | _ => d
  end.

(** The entity object both [getEntities] (lines 332-352) and [getEntity]
    (lines 382-402) build from an event; [now] is [new Date()]. *)
Definition toEntity (now : Z) (event : CotEvent) : TAKEntity :=
  let d := detail event in
  let cs := opt_bind d contact_callsign in
  {| e_uid := uid event;
     callsign := if JS.str_truthy cs then cs else uid event;
     e_type := type event;
     team := str_or (opt_bind d group_name) "Unknown";
     role := str_or (opt_bind d group_role) "Unknown";
     location :=
       {| loc_lat := lat (point event);
          loc_lon := lon (point event);
          loc_alt := if JS.strict_eq (hae (point event)) UNKNOWN
                     then None else Some (hae (point event)) |};
     lastUpdate := time event;
     status :=
       {| online := JS.date_gt (stale event) (Some now);
          battery := opt_bind d status_battery;
          speed := opt_bind d track_speed;
          course := opt_bind d track_course;
          readiness :=
            match opt_bind d status_readiness with
            | Some true => "ready"
            | _ => "unknown"
            end |};
     attributes := d |}.

(** [getEntity], lines 365-403, after the fetch: [parsed] is the event
    element of the response, if there is one. *)
Definition getEntity (now : Z) (uid : string) (parsed : option RawEvent)
  : result TAKEntity :=
  match parsed with
  | None => Throw ("Entity not found: " ++ uid)
  | Some eventData =>
      match parseCotEvent eventData with
      | Ok event => Ok (toEntity now event)
      | Throw m => Throw m
      end
  end.

(** *** The entity map of [getEntities]

    [Map<string, TAKEntity>] in insertion order; a key is a uid as the
    event carries it. *)
Definition key : Type := option string.

Definition key_eqb (a b : key) : bool :=
  match a, b with
  | Some x, Some y => String.eqb x y
  | None, None => true
  | _, _ => false
  end.

Definition EntityMap : Type := list (key * TAKEntity).

Fixpoint map_get (m : EntityMap) (k : key) : option TAKEntity :=
  match m with
  | [] => None
  | (k', v) :: m' => if key_eqb k' k then Some v else map_get m' k
  end.

(** [map.set(k, v)]: an existing key keeps its place, a new one goes to
    the end. *)
Fixpoint map_set (m : EntityMap) (k : key) (v : TAKEntity) : EntityMap :=
  match m with
  | [] => [(k, v)]
  | (k', v') :: m' =>
      if key_eqb k' k then (k', v) :: m' else (k', v') :: map_set m' k v
  end.

Definition map_values (m : EntityMap) : list TAKEntity := map snd m.

(** [params.teams && !params.teams.includes(x)]. *)
Definition excluded_by (filter : option (list string)) (x : string) : bool :=
  match filter with
  | Some allowed => negb (existsb (String.eqb x) allowed)
  | None => false
  end.

(** One turn of the loop of lines 327-360.  [newer] is the test of lines
    329-330: the map has no entry for the uid, or the event is later than
    the entry's last update. *)
Definition upsert (teams roles : option (list string)) (now : Z)
    (entitiesMap : EntityMap) (event : CotEvent) : EntityMap :=
  let newer :=
    match map_get entitiesMap (uid event) with
    | None => true
    | Some stored => JS.date_gt (time event) (lastUpdate stored)
    end in
  if newer then
    let entity := toEntity now event in
    if excluded_by teams (team entity) then entitiesMap
    else if excluded_by roles (role entity) then entitiesMap
    else map_set entitiesMap (uid event) entity
  else entitiesMap.

(** The map after the loop, lines 325-360. *)
Definition reconcile (teams roles : option (list string)) (now : Z)
    (events : list CotEvent) : EntityMap :=
  fold_left (upsert teams roles now) events [].

(** [getEntities], lines 310-363, on the events [getCotEvents] returned. *)
Definition getEntities (teams roles : option (list string)) (now : Z)
    (events : list CotEvent) : list TAKEntity :=
  map_values (reconcile teams roles now events).

End Client.

(** ** tak_find_nearest: src/tools/geospatial/find-nearest.ts *)

Module FindNearest.
Import Client.

(** A turf position, [[lon, lat]]. *)
Definition position : Type := (Q * Q)%type.

(** [turf.point([lon, lat])] throws unless both coordinates are numbers. *)
Definition turf_point (lon lat : JS.number) : result position :=
  match lon, lat with
  | JS.Num x, JS.Num y => Ok (x, y)
  | _, _ => Throw "coordinates must contain numbers"
  end.

(** [params] of the handler, as the input schema types them. *)
Record Params : Type := mkParams {
  point_entityId : option string;
  point_coordinates : option (Q * Q);   (* [lat, lon] *)
  maxDistance : option Q;
  maxResults : option Z;
  entityTypes : option (list string);
  excludeStale : option bool;
  includeDetails : option bool
}.

(** The [entity] member of a result: the entity itself, or its uid, type
    and callsign when [includeDetails] is false. *)
Inductive EntityView : Type :=
| Full (e : TAKEntity)
| Brief (uid type callsign : option string).

Record Nearest : Type := mkNearest {
  entity : EntityView;
  distance : Z;
  bearing : Z;
  compassDirection : option string;
  lat : JS.number;
  lon : JS.number;
  hae : JS.number
}.

Definition directions : list string :=
  ["N"; "NNE"; "NE"; "ENE"; "E"; "ESE"; "SE"; "SSE";
   "S"; "SSW"; "SW"; "WSW"; "W"; "WNW"; "NW"; "NNW"]%string.

(** [getCompassDirection], lines 199-204. *)
Definition getCompassDirection (bearing : Q) : option string :=
  let index := JS.Math_round (JS.rem (bearing + 360) 360 / (45 # 2)) in
  let i := Z.rem index 16 in
  if i <? 0 then None else nth_error directions (Z.to_nat i).

(** A map whose callback may throw: the first exception ends it. *)
Fixpoint map_result {A B : Type} (f : A -> result B) (l : list A)
  : result (list B) :=
  match l with
  | [] => Ok []
  | x :: l' =>
      match f x with
      | Throw m => Throw m
      | Ok y =>
          match map_result f l' with
          | Throw m => Throw m
          | Ok ys => Ok (y :: ys)
          end
      end
  end.

Section Handler.
(** [turf.distance(from, to, {units: 'meters'})] and
    [turf.bearing(from, to)]. *)
Variable turf_distance : position -> position -> Q.
Variable turf_bearing : position -> position -> Q.
(** The test of lines 97-103 of a type pattern against [entity.type]:
    a regular expression when the pattern holds a star, equality
    otherwise. *)
Variable type_matches : string -> option string -> bool.
(** [new Date()] at the staleness filter. *)
Variable now : Z.

(** Lines 66-78: the reference coordinates, [[lat, lon]]. *)
Definition referenceCoords (params : Params) (entities : list TAKEntity)
  : result (JS.number * JS.number) :=
  match point_coordinates params with
  | Some (la, lo) => Ok (JS.Num la, JS.Num lo)
  | None =>
      match point_entityId params with
      | Some (String c r) =>
          let id := String c r in
          match find (fun e => key_eqb (e_uid e) (Some id)) entities with
          | Some e => Ok (loc_lat (location e), loc_lon (location e))
          | None => Throw ("Entity " ++ id ++ " not found")
          end
      | _ => Throw "Either entityId or coordinates must be provided"
      end
  end.

(** Lines 109-117: an entity is kept when its last update is less than
    300 seconds old. *)
Definition fresh (e : TAKEntity) : bool :=
  match lastUpdate e with
  | Some t => JS.Qlt_bool ((now - t) # 1000) 300
  | None => false
  end.

(** Lines 86-118. *)
Definition filterEntities (params : Params) (allEntities : list TAKEntity)
  : list TAKEntity :=
  let l1 :=
    match point_entityId params with
    | Some (String c r) =>
        filter (fun e => negb (key_eqb (e_uid e) (Some (String c r)))) allEntities
    | _ => allEntities
    end in
  let l2 :=
    match entityTypes params with
    | Some (p :: ps) =>
        filter (fun e => existsb (fun pat => type_matches pat (e_type e)) (p :: ps)) l1
    | _ => l1
    end in
  match excludeStale params with
  | Some false => l2
  | _ => filter fresh l2
  end.

(** The callback of lines 121-141. *)
Definition withDistance (params : Params) (referencePoint : position)
    (e : TAKEntity) : result Nearest :=
  match turf_point (loc_lon (location e)) (loc_lat (location e)) with
  | Throw m => Throw m
  | Ok entityPoint =>
      let distance := turf_distance referencePoint entityPoint in
      let bearing := turf_bearing referencePoint entityPoint in
      Ok {| entity :=
              match includeDetails params with
              | Some false =>
                  Brief (e_uid e) (e_type e)
                    (if JS.str_truthy (callsign e) then callsign e else e_uid e)
              | _ => Full e
              end;
            distance := JS.Math_round distance;
            bearing := JS.Math_round bearing;
            compassDirection := getCompassDirection bearing;
            lat := loc_lat (location e);
            lon := loc_lon (location e);
            hae := match loc_alt (location e) with
                   | Some a => JS.or_else a (JS.Num 0)
                   | None => JS.Num 0
                   end |}
  end.

(** Lines 143-147: the cut-off, skipped when [maxDistance] is absent or
    zero (both falsy). *)
Definition withinMax (params : Params) (results : list Nearest) : list Nearest :=
  match maxDistance params with
  | Some m =>
      if Qeq_bool m 0 then results
      else filter (fun item => Qle_bool (inject_Z (distance item)) m) results
  | None => results
  end.

(** [params.maxResults || 10]. *)
Definition limit (params : Params) : Z :=
  match maxResults params with
  | Some k => if k =? 0 then 10 else k
  | None => 10
  end.

(** Lines 149-151. *)
Definition nearestOf (params : Params) (entitiesWithDistance : list Nearest)
  : list Nearest :=
  JS.slice0 (JS.sort_by distance (withinMax params entitiesWithDistance))
            (limit params).

(** The handler, lines 61-195: [nearestEntities] of the success payload,
    or the exception the catch clause reports as [TAK_QUERY_ERROR].
    [allEntities] is what [takClient.getEntities()] returns. *)
Definition handler (params : Params) (allEntities : list TAKEntity)
  : result (list Nearest) :=
  match referenceCoords params allEntities with
  | Throw m => Throw m
  | Ok (rlat, rlon) =>
      match turf_point rlon rlat with
      | Throw m => Throw m
      | Ok referencePoint =>
          match map_result (withDistance params referencePoint)
                           (filterEntities params allEntities) with
          | Throw m => Throw m
          | Ok entitiesWithDistance => Ok (nearestOf params entitiesWithDistance)
          end
      end
  end.
End Handler.

End FindNearest.

(** ** tak_create_geofence: src/tools/geospatial/create-geofence.ts *)

Module CreateGeofence.

Definition position : Type := (Q * Q)%type.       (* [lon, lat] *)

(** [params.shape]: [center] is [[lat, lon]], [vertices] are
    [[lat, lon]] pairs, lengths are in meters. *)
Record Shape : Type := mkShape {
  shape_type : string;
  center : option (Q * Q);
  radius : option Q;
  vertices : option (list (Q * Q));
  width : option Q;
  height : option Q
}.

Record OnDwell : Type := mkOnDwell {
  enabled : option bool;
  duration : option Q
}.

Record Triggers : Type := mkTriggers {
  onEntry : option bool;
  onExit : option bool;
  onDwell : option OnDwell
}.

Record Params : Type := mkParams {
  name : string;
  shape : Shape;
  triggers : option Triggers;
  monitorTypes : option (list string);
  alertLevel : option string;
  active : option bool
}.

(** The geofence object of lines 191-208, without its [created] time stamp
    and its [stats]; [geometry] is the outer ring of the polygon turf
    returns. *)
Record Geofence : Type := mkGeofence {
  id : string;
  g_name : string;
  g_type : string;
  geometry : list position;
  g_triggers : Triggers;
  g_monitorTypes : list string;
  g_alertLevel : string;
  g_active : bool
}.

(** What the handler answers: the success payload together with the uid
    and point of the CoT event it has sent, or the error of the catch
    clause. *)
Inductive Response : Type :=
| Success (geofence : Geofence) (cotUid : string) (cotPoint : Q * Q)
| Failure (code message details : string).

(** A number used as a condition: absent and zero are falsy. *)
Definition present (x : option Q) : bool :=
  match x with
  | Some q => negb (Qeq_bool q 0)
  | None => false
  end.

Definition swap (v : Q * Q) : Q * Q := (snd v, fst v).

Section Handler.
(** [turf.circle(center, radius, {units: 'kilometers'})], its ring. *)
Variable turf_circle : position -> Q -> list position.
(** [turf.destination(origin, distance, bearing, {units: 'kilometers'})]. *)
Variable turf_destination : position -> Q -> Q -> position.
(** [turf.centroid(geometry)], as [[lon, lat]]. *)
Variable turf_centroid : list position -> position.

(** The switch of lines 124-188: the ring of the shape, or the message
    of the error thrown. *)
Definition makeGeometry (sh : Shape) : list position + string :=
  if String.eqb (shape_type sh) "circle" then
    match center sh with
    | Some c =>
        if present (radius sh) then
          match radius sh with
          | Some r => inl (turf_circle (swap c) (r / 1000))
          | None => inr "Circle geofence requires center and radius"%string
          end
        else inr "Circle geofence requires center and radius"%string
    | None => inr "Circle geofence requires center and radius"%string
    end
  else if String.eqb (shape_type sh) "polygon" then
    match vertices sh with
    | Some vs =>
        if (List.length vs <? 3)%nat then
          inr "Polygon geofence requires at least 3 vertices"%string
        else
          let ring := map swap vs in
          inl (ring ++ firstn 1 ring)
    | None => inr "Polygon geofence requires at least 3 vertices"%string
    end
  else if String.eqb (shape_type sh) "rectangle" then
    match center sh, width sh, height sh with
    | Some c, Some w, Some h =>
        if present (width sh) && present (height sh) then
          let rectCenter := swap c in
          let bearing := 0%Q in
          let halfWidth := (w / 2)%Q in
          let halfHeight := (h / 2)%Q in
          let north := turf_destination rectCenter (halfHeight / 1000) bearing in
          let south := turf_destination rectCenter (halfHeight / 1000) (bearing + 180) in
          let topLeft := turf_destination north (halfWidth / 1000) (bearing - 90) in
          let topRight := turf_destination north (halfWidth / 1000) (bearing + 90) in
          let bottomRight := turf_destination south (halfWidth / 1000) (bearing + 90) in
          let bottomLeft := turf_destination south (halfWidth / 1000) (bearing - 90) in
          inl [topLeft; topRight; bottomRight; bottomLeft; topLeft]
        else inr "Rectangle geofence requires center, width, and height"%string
    | _, _, _ => inr "Rectangle geofence requires center, width, and height"%string
    end
  else inr ("Unknown geofence shape: " ++ shape_type sh)%string.

(** The handler, lines 112-288; [geofenceId] is the identifier drawn at
    line 117.  The CoT event is sent after the geometry is built, so a
    failure of the switch sends nothing; the send itself (lines 237-259)
    is taken to succeed. *)
Definition handler (geofenceId : string) (params : Params) : Response :=
  match makeGeometry (shape params) with
  | inr details =>
      Failure "TAK_GEOFENCE_ERROR" "Failed to create geofence" details
  | inl geometry =>
      Success
        {| id := geofenceId;
           g_name := name params;
           g_type := shape_type (shape params);
           geometry := geometry;
           g_triggers :=
             match triggers params with
             | Some t => t
             | None => {| onEntry := Some true; onExit := Some true; onDwell := None |}
             end;
           g_monitorTypes :=
             match monitorTypes params with
             | Some l => l
             | None => ["a-*"%string]
             end;
           g_alertLevel :=
             match alertLevel params with
             | Some (String c r) => String c r
             | _ => "medium"
             end;
           g_active :=
             match active params with
             | Some false => false
             | _ => true
             end |}
        geofenceId
        match center (shape params) with
        | Some c => c
        | None => swap (turf_centroid geometry)
        end
  end.
End Handler.

End CreateGeofence.

(** ** The geofence evaluator

    The sources create geofences and declare their triggers; the evaluator
    that watches reports against a fence is described by the specification
    (sections 3 and 4.4) and is not among them.  It is modelled here from
    that description. *)

Module GeofenceEvaluator.

(** Modelled from the spec: a Position Report (section 3) as the evaluator,
    which is not in the sources, reads it. *)
Record Report : Type := mkReport {
  observedAt : Z;
  kind : string;
  lat : Q;
  lon : Q
}.

(** Modelled from the spec: the triggers of a geofence (section 3:
    onEntry, onExit, onDwell with its threshold duration), of which the
    sources hold the declaration in the input schema of create-geofence.ts
    (lines 62-91) and no evaluation. *)
Record Triggers : Type := mkTriggers {
  onEntry : bool;
  onExit : bool;
  onDwell_enabled : bool;
  thresholdDuration : Z
}.

(** Modelled from the spec: the containment state of one (geofence,
    entity) pair (section 3: [inside], [enteredAt]), owned by the
    evaluator, which is not in the sources. *)
Record State : Type := mkState {
  inside : bool;
  enteredAt : option Z
}.

Definition OUTSIDE : State := {| inside := false; enteredAt := None |}.

(** Modelled from the spec: what the state machine of section 4.4, absent
    from the sources, does on a report: a transition of the pair, or the
    dwell alert falling due. *)
Inductive Event : Type :=
| Entered
| Exited
| Dwelt.

(** Modelled from the spec: the alerts of section 4.4 a consumer is sent
    (no evaluator in the sources sends any). *)
Inductive Alert : Type :=
| AlertEntry
| AlertExit
| AlertDwell.

Section Evaluator.
(** The containment test of the shape and the match of a kind against
    the monitored patterns. *)
Variable contains : Report -> bool.
Variable monitored : string -> bool.
Variable tr : Triggers.

(** Modelled from the spec: the geofence evaluator (section 4.4), of
    which the sources hold only the trigger declarations of
    [createGeofenceTool.inputSchema].  One report moves the state
    machine of one pair: OUTSIDE to INSIDE on a report inside the shape
    whose kind is monitored, starting the dwell timer if dwell is
    enabled; INSIDE to OUTSIDE on a report outside, clearing the timer;
    while INSIDE, once the timer has run for the threshold the dwell
    alert is due and the timer is stopped, which is what makes the alert
    fire once per period. *)
Definition step (st : State) (r : Report) : State * list Event :=
  if inside st then
    if contains r then
      match enteredAt st with
      | Some t0 =>
          if onDwell_enabled tr && (thresholdDuration tr <=? observedAt r - t0)
          then ({| inside := true; enteredAt := None |}, [Dwelt])
          else (st, [])
      | None => (st, [])
      end
    else ({| inside := false; enteredAt := None |}, [Exited])
  else
    if contains r && monitored (kind r) then
      ({| inside := true;
          enteredAt := if onDwell_enabled tr then Some (observedAt r) else None |},
       [Entered])
    else (st, []).

(** Modelled from the spec: the evaluator run over the reports of one
    entity, in delivery order (the evaluator itself is not in the
    sources). *)
Fixpoint run (st : State) (reports : list Report) : list Event :=
  match reports with
  | [] => []
  | r :: rest => snd (step st r) ++ run (fst (step st r)) rest
  end.

(** Modelled from the spec: onEntry and onExit fire if enabled; the
    dwell alert is only ever due when dwell is enabled (the firing
    rules of section 4.4, absent from the sources). *)
Definition fire (e : Event) : list Alert :=
  match e with
  | Entered => if onEntry tr then [AlertEntry] else []
  | Exited => if onExit tr then [AlertExit] else []
  | Dwelt => [AlertDwell]
  end.

(** Modelled from the spec: the alerts emitted for one entity, from the
    initial state OUTSIDE (section 4.4; not in the sources). *)
Definition alerts (reports : list Report) : list Alert :=
  flat_map fire (run OUTSIDE reports).
End Evaluator.

(** Every exit has an entry before it that no earlier exit has used up:
    [pending] counts the entries still unmatched. *)
Fixpoint exits_matched (pending : nat) (l : list Alert) : bool :=
  match l with
  | [] => true
  | AlertEntry :: l' => exits_matched (S pending) l'
  | AlertExit :: l' =>
      match pending with
      | O => false
      | S n => exits_matched n l'
      end
  | AlertDwell :: l' => exits_matched pending l'
  end.

(** A log of transitions is well formed when entries and exits alternate,
    starting from [inside], and no inside period holds two dwell alerts;
    [dwelt] says whether the current period has had its alert. *)
Fixpoint well_formed (inside dwelt : bool) (log : list Event) : bool :=
  match log with
  | [] => true
  | Entered :: l => negb inside && well_formed true false l
  | Exited :: l => inside && well_formed false false l
  | Dwelt :: l => inside && negb dwelt && well_formed true true l
  end.

End GeofenceEvaluator.

(** ** tak_analyze_movement: src/tools/geospatial/analyze-movement.ts *)

Module AnalyzeMovement.

Definition position : Type := (Q * Q)%type.       (* [lon, lat] *)

(** An element of [positions] (lines 86-91): the time of the event in
    epoch milliseconds and its coordinates. *)
Record Position : Type := mkPosition {
  time : Z;
  lat : Q;
  lon : Q;
  alt : Q
}.

Definition pt (p : Position) : position := (lon p, lat p).

Record Params : Type := mkParams {
  analysisType : option (list string);
  anomalyThreshold : option Q
}.

Record SpeedAnalysis : Type := mkSpeedAnalysis {
  averageSpeed : Q;
  maxSpeed : Q;
  minSpeed : Q;
  totalDistance : Q
}.

Record PatternAnalysis : Type := mkPatternAnalysis {
  movementType : string;
  totalHeadingChange : Q;
  pathLength : Q;
  boundingBox : Q * Q * Q * Q
}.

(** The candidate stop of line 177. *)
Record Candidate : Type := mkCandidate {
  c_startTime : Z;
  c_location : Position;
  c_positions : list Position;
  c_endTime : Z
}.

Record Stop : Type := mkStop {
  startTime : Z;
  location : Position;
  positions : list Position;
  endTime : Z;
  duration : Q;
  center : position
}.

Record StopAnalysis : Type := mkStopAnalysis {
  stops : list Stop;
  totalStops : nat;
  totalStopTime : Q
}.

Record Anomaly : Type := mkAnomaly {
  a_time : Z;
  a_location : Position;
  value : Q;
  threshold : Q
}.

Record AnomalyAnalysis : Type := mkAnomalyAnalysis {
  anomalies : list Anomaly;
  totalAnomalies : nat
}.

Record Analysis : Type := mkAnalysis {
  dataPoints : nat;
  speedAnalysis : option SpeedAnalysis;
  patternAnalysis : option PatternAnalysis;
  stopAnalysis : option StopAnalysis;
  anomalyAnalysis : option AnomalyAnalysis
}.

Inductive Response : Type :=
| Insufficient (dataPoints : nat)
| Analysed (analysis : Analysis).

(** The pairs [(positions[i-1], positions[i])] a loop from 1 visits. *)
Fixpoint steps {A : Type} (l : list A) : list (A * A) :=
  match l with
  | a :: (b :: _) as rest => (a, b) :: steps rest
  | _ => []
  end.

Definition sum (l : list Q) : Q := fold_left Qplus l 0%Q.

Definition Qmax (a b : Q) : Q := if Qle_bool a b then b else a.
Definition Qmin (a b : Q) : Q := if Qle_bool a b then a else b.

(** [Math.max(...l)] and [Math.min(...l)] on a list that is not empty. *)
Definition maximum (l : list Q) : Q :=
  match l with
  | [] => 0%Q
  | x :: r => fold_left Qmax r x
  end.

Definition minimum (l : list Q) : Q :=
  match l with
  | [] => 0%Q
  | x :: r => fold_left Qmin r x
  end.

Definition includes (l : list string) (x : string) : bool :=
  existsb (String.eqb x) l.

Section Handler.
Variable turf_distance : position -> position -> Q.     (* meters *)
Variable turf_bearing : position -> position -> Q.
Variable turf_length : list position -> Q.
Variable turf_bbox : list position -> Q * Q * Q * Q.
Variable turf_center : list position -> position.

(** Seconds between two positions, line 115. *)
Definition timeDiff (a b : Position) : Q := (time b - time a) # 1000.

(** The speed of a step in km/h, line 118. *)
Definition speedOf (a b : Position) : Q :=
  (turf_distance (pt a) (pt b) / timeDiff a b * (36 # 10))%Q.

Definition moving (s : Position * Position) : bool :=
  JS.Qlt_bool 0 (timeDiff (fst s) (snd s)).

(** Lines 107-134. *)
Definition analyseSpeed (positions : list Position) : SpeedAnalysis :=
  let timed := filter moving (steps positions) in
  let speeds := map (fun s => speedOf (fst s) (snd s)) timed in
  let n := inject_Z (Z.of_nat (List.length speeds)) in
  {| averageSpeed := match speeds with [] => 0 | _ => sum speeds / n end;
     maxSpeed := maximum speeds;
     minSpeed := minimum speeds;
     totalDistance :=
       sum (map (fun s => turf_distance (pt (fst s)) (pt (snd s))) timed) |}.

(** Lines 150-153: a heading change brought back between -180 and 180. *)
Definition headingChange (h0 h1 : Q) : Q :=
  let change := (h1 - h0)%Q in
  let change := if JS.Qlt_bool 180 change then (change - 360)%Q else change in
  if JS.Qlt_bool change (-180) then (change + 360)%Q else change.

(** Lines 137-169. *)
Definition analysePattern (positions : list Position) : PatternAnalysis :=
  let headings :=
    map (fun s => turf_bearing (pt (fst s)) (pt (snd s))) (steps positions) in
  let headingChanges :=
    map (fun hh => headingChange (fst hh) (snd hh)) (steps headings) in
  let totalHeadingChange := sum headingChanges in
  let isCircular := JS.Qlt_bool 300 (Qabs totalHeadingChange) in
  let path := map pt positions in
  {| movementType := if isCircular then "circular" else "linear";
     totalHeadingChange := totalHeadingChange;
     pathLength := (turf_length path * 1000)%Q;
     boundingBox := turf_bbox path |}.

Definition stopThreshold : Q := 50.
Definition stopDuration : Q := 300.

(** One turn of the loop of lines 179-205 on the step [(a, b)]: the
    stops pushed so far and the candidate. *)
Definition stopStep (acc : list Stop * option Candidate)
    (s : Position * Position) : list Stop * option Candidate :=
  let '(stops, currentStop) := acc in
  let '(a, b) := s in
  if JS.Qlt_bool (turf_distance (pt a) (pt b)) stopThreshold then
    let cur :=
      match currentStop with
      | Some c => c
      | None => {| c_startTime := time a; c_location := a;
                   c_positions := [a]; c_endTime := time a |}
      end in
    (stops, Some {| c_startTime := c_startTime cur;
                    c_location := c_location cur;
                    c_positions := c_positions cur ++ [b];
                    c_endTime := time b |})
  else
    match currentStop with
    | Some c =>
        let duration := (c_endTime c - c_startTime c) # 1000 in
        if Qle_bool stopDuration duration then
          (stops ++ [ {| startTime := c_startTime c;
                         location := c_location c;
                         positions := c_positions c;
                         endTime := c_endTime c;
                         duration := duration;
                         center := turf_center (map pt (c_positions c)) |} ],
           None)
        else (stops, None)
    | None => (stops, None)
    end.

(** Lines 172-212: the stops are those pushed inside the loop. *)
Definition analyseStops (positions : list Position) : StopAnalysis :=
  let stops := fst (fold_left stopStep (steps positions) ([], None)) in
  {| stops := stops;
     totalStops := List.length stops;
     totalStopTime := sum (map duration stops) |}.

(** Lines 215-248: anomalies are looked for only when the speed
    analysis is there; an absent [anomalyThreshold] makes the threshold
    NaN, which no speed exceeds. *)
Definition analyseAnomaly (params : Params) (speed : option SpeedAnalysis)
    (positions : list Position) : AnomalyAnalysis :=
  let anomalies :=
    match speed, anomalyThreshold params with
    | Some sp, Some th =>
        let speedThreshold := (averageSpeed sp * (1 + th))%Q in
        flat_map
          (fun s =>
             if moving s && JS.Qlt_bool speedThreshold (speedOf (fst s) (snd s))
             then [ {| a_time := time (snd s); a_location := snd s;
                       value := speedOf (fst s) (snd s);
                       threshold := speedThreshold |} ]
             else [])
          (steps positions)
    | _, _ => []
    end in
  {| anomalies := anomalies; totalAnomalies := List.length anomalies |}.

(** The handler, lines 51-273, on the events fetched for the entity
    (their dates valid and their coordinates finite), each already
    turned into a position. *)
Definition handler (params : Params) (events : list Position) : Response :=
  if (List.length events <? 2)%nat then Insufficient (List.length events)
  else
    let positions := JS.sort_by time events in
    let analysisTypes :=
      match analysisType params with
      | Some l => l
      | None => ["speed"; "pattern"]%string
      end in
    let speed :=
      if includes analysisTypes "speed"
      then Some (analyseSpeed positions) else None in
    Analysed
      {| dataPoints := List.length positions;
         speedAnalysis := speed;
         patternAnalysis :=
           if includes analysisTypes "pattern"
           then Some (analysePattern positions) else None;
         stopAnalysis :=
           if includes analysisTypes "stops"
           then Some (analyseStops positions) else None;
         anomalyAnalysis :=
           if includes analysisTypes "anomaly"
           then Some (analyseAnomaly params speed positions) else None |}.
End Handler.

End AnalyzeMovement.

(** ** tak_calculate_distance: src/tools/geospatial/calculate-distance.ts

    Distances and bearings are real numbers here: the formulas are
    trigonometric, and the properties stated about them are geometric. *)

Module CalculateDistance.

Local Open Scope R_scope.

(** A point as the parameters give it: latitude and longitude in
    degrees. *)
Record Point : Type := mkPoint {
  lat : R;
  lon : R
}.

Inductive Units : Type :=
| meters
| kilometers
| miles
| nauticalmiles.

(** Modelled from the spec: degrees and radians, as the formulas of
    section 4.3 need them (helpers of turf, which is not in the sources). *)
Definition degreesToRadians (d : R) : R := d * PI / 180.

(** Modelled from the spec: the inverse conversion (a helper of turf, not
    in the sources). *)
Definition radiansToDegrees (r : R) : R := r * 180 / PI.

(** [Math.atan2(y, x)]: the angle of the point [(x, y)], between -PI
    (excluded) and PI. *)
Definition atan2 (y x : R) : R :=
  if Rlt_dec 0 x then atan (y / x)
  else if Rlt_dec x 0 then
    if Rle_dec 0 y then atan (y / x) + PI else atan (y / x) - PI
  else if Rlt_dec 0 y then PI / 2
  else if Rlt_dec y 0 then - (PI / 2)
  else 0.

(** Truncation toward zero and the remainder operator [x % m], whose
    result has the sign of the dividend. *)
Definition trunc (x : R) : Z :=
  if Rle_dec 0 x then Int_part x else (- Int_part (- x))%Z.

Definition rem (x m : R) : R := x - m * IZR (trunc (x / m)).

(** Modelled from the spec: the radius of the sphere of the spherical model
    (section 4.3), the mean radius of the earth in meters; it is a constant
    of turf, which is not in the sources. *)
Definition earthRadius : R := 63710088 / 10.

(** Modelled from the spec: the linear conversion from meters of section
    4.3 (the factors of turf are not in the sources). *)
Definition fromMeters (u : Units) : R :=
  match u with
  | meters => 1
  | kilometers => 1 / 1000
  | miles => 621371 / 1000000000
  | nauticalmiles => 539957 / 1000000000
  end.

(** Modelled from the spec: the haversine of the central angle between two
    points, the core of the spherical great-circle formula of section 4.3
    (computed inside [turf.distance], which is not in the sources). *)
Definition haversine (a b : Point) : R :=
  let dLat := degreesToRadians (lat b - lat a) in
  let dLon := degreesToRadians (lon b - lon a) in
  let lat1 := degreesToRadians (lat a) in
  let lat2 := degreesToRadians (lat b) in
  (sin (dLat / 2))² + (sin (dLon / 2))² * cos lat1 * cos lat2.

(** Modelled from the spec: the great-circle distance of the Geometry
    Library on the spherical model (sections 2 and 4.3), which the code
    takes from [turf.distance], a third-party function that is not in the
    sources. *)
Definition distanceBetween (a b : Point) (u : Units) : R :=
  let h := haversine a b in
  2 * atan2 (sqrt h) (sqrt (1 - h)) * earthRadius * fromMeters u.

(** Modelled from the spec: the forward azimuth from [a] to [b] in
    degrees (section 4.3), which the code takes from [turf.bearing], a
    third-party function that is not in the sources. *)
Definition bearing (a b : Point) : R :=
  let lon1 := degreesToRadians (lon a) in
  let lon2 := degreesToRadians (lon b) in
  let lat1 := degreesToRadians (lat a) in
  let lat2 := degreesToRadians (lat b) in
  let y := sin (lon2 - lon1) * cos lat2 in
  let x := cos lat1 * sin lat2 - sin lat1 * cos lat2 * cos (lon2 - lon1) in
  radiansToDegrees (atan2 y x).

(** The measures of the success payload of lines 122-139. *)
Record Measures : Type := mkMeasures {
  m_distance : R;
  m_units : Units;
  m_bearing : R;
  m_backBearing : R
}.

(** The single calculation of the handler, lines 111-145, once both
    coordinates are resolved. *)
Definition single (from to : Point) (units : option Units) : Measures :=
  let u := match units with Some u => u | None => meters end in
  let distance := distanceBetween from to u in
  let bearing := bearing from to in
  {| m_distance := distance;
     m_units := u;
     m_bearing := bearing;
     m_backBearing := rem (bearing + 180) 360 |}.

End CalculateDistance.

(** ** The client's event fetch: getCotEvents and the whole of getEntities *)

Module ClientFetch.
Import Client.

(** The parameters of [getCotEvents] that decide what is returned; [start],
    [end] and [bbox] only go into the request. *)
Record Query : Type := mkQuery {
  q_types : option (list string);
  q_uids : option (list string);
  q_limit : option Z
}.

(** Line 157: [!params?.types || params.types.some(t =>
    event.type.startsWith(t))].  With a filter that is not empty,
    [startsWith] on an undefined type throws. *)
Definition matchesTypes (types : option (list string)) (event : CotEvent)
  : result bool :=
  match types with
  | None => Ok true
  | Some [] => Ok false
  | Some (t :: ts) =>
      match type event with
      | Some ty => Ok (existsb (fun t => String.prefix t ty) (t :: ts))
      | None => Throw "TypeError: Cannot read properties of undefined"
      end
  end.

(** The loop of lines 152-161 over the event elements of one response,
    each already parsed ([None] when the parse has no [event]).  It runs
    inside the try of line 144: the first exception ends it, and what was
    pushed before stays. *)
Fixpoint collect (types : option (list string)) (docs : list (option RawEvent))
  : list CotEvent :=
  match docs with
  | [] => []
  | None :: rest => collect types rest
  | Some raw :: rest =>
      match parseCotEvent raw with
      | Throw _ => []
      | Ok event =>
          match matchesTypes types event with
          | Throw _ => []
          | Ok true => event :: collect types rest
          | Ok false => collect types rest
          end
      end
  end.

Section Fetch.
(** [GET /api/cot/xml/${uid}] and its parse: the [event] of the document if
    it has one, or the exception of the request. *)
Variable fetchOne : string -> result (option RawEvent).
(** [GET /api/cot/xml/${uid}/all] with the time window, and the parse of
    every event element the body matches (none when nothing matches), or
    the exception of the request. *)
Variable fetchAll : string -> result (list (option RawEvent)).

(** Lines 116-126, one turn: each uid has a try of its own. *)
Definition oneUid (uid : string) : list CotEvent :=
  match fetchOne uid with
  | Ok (Some raw) =>
      match parseCotEvent raw with
      | Ok event => [event]
      | Throw _ => []
      end
  | _ => []
  end.

(** Lines 129-166, one turn. *)
Definition history (types : option (list string)) (uid : string) : list CotEvent :=
  match fetchAll uid with
  | Ok docs => collect types docs
  | Throw _ => []
  end.

(** Lines 107-167: the events before the limit.  In the second branch
    [params?.uids || ['*']] is the given list when it is an (empty) array,
    since an array is truthy. *)
Definition fetched (q : Query) : list CotEvent :=
  match q_uids q with
  | Some (u :: us) => flat_map oneUid (u :: us)
  | Some [] => flat_map (history (q_types q)) []
  | None => flat_map (history (q_types q)) ["*"%string]
  end.

(** [getCotEvents], lines 99-175. *)
Definition getCotEvents (q : Query) : list CotEvent :=
  let events := fetched q in
  match q_limit q with
  | Some k =>
      if negb (k =? 0) && (Z.of_nat (List.length events) >? k)
      then JS.slice0 events k else events
  | None => events
  end.

(** [getEntities], lines 310-363, fetch included: the events are those of
    [getCotEvents] with the caller's types and a limit of 1000. *)
Definition getEntities (types teams roles : option (list string)) (now : Z)
  : list TAKEntity :=
  Client.getEntities teams roles now
    (getCotEvents {| q_types := types; q_uids := None; q_limit := Some 1000 |}).
End Fetch.

End ClientFetch.

(** ** tak_find_nearest: the statistics of the answer *)

Module FindNearestStats.
Import Client FindNearest.

(** [stats], lines 156-165; [None] is [null]. *)
Record Stats : Type := mkStats {
  totalEntities : nat;
  filteredEntities : nat;
  resultsReturned : nat;
  nearestDistance : option Z;
  farthestDistance : option Z;
  averageDistance : option Z
}.

(** [l[i]]: undefined outside the list. *)
Definition at_index {A : Type} (l : list A) (i : Z) : option A :=
  if i <? 0 then None else nth_error l (Z.to_nat i).

(** [r?.distance || null]: null for a missing element and for a distance
    of 0, which is falsy. *)
Definition distance_or_null (r : option Nearest) : option Z :=
  match r with
  | Some item => if distance item =? 0 then None else Some (distance item)
  | None => None
  end.

Definition statsOf (allEntities filteredEntities : list TAKEntity)
    (results : list Nearest) : Stats :=
  {| totalEntities := List.length allEntities;
     filteredEntities := List.length filteredEntities;
     resultsReturned := List.length results;
     nearestDistance := distance_or_null (at_index results 0);
     farthestDistance :=
       distance_or_null (at_index results (Z.of_nat (List.length results) - 1));
     averageDistance :=
       if (0 <? List.length results)%nat then
         Some (JS.Math_round
                 (inject_Z (fold_left (fun sum r => sum + distance r) results 0)
                  / inject_Z (Z.of_nat (List.length results))))
       else None |}.

Section Handler.
Variable turf_distance : position -> position -> Q.
Variable turf_bearing : position -> position -> Q.
Variable type_matches : string -> option string -> bool.
Variable now : Z.

(** The handler, lines 61-195, with the statistics: [nearestEntities] and
    [stats] of the success payload. *)
Definition answer (params : Params) (allEntities : list TAKEntity)
  : result (list Nearest * Stats) :=
  match referenceCoords params allEntities with
  | Throw m => Throw m
  | Ok (rlat, rlon) =>
      match turf_point rlon rlat with
      | Throw m => Throw m
      | Ok referencePoint =>
          let filteredEntities := filterEntities type_matches now params allEntities in
          match map_result (withDistance turf_distance turf_bearing params referencePoint)
                           filteredEntities with
          | Throw m => Throw m
          | Ok entitiesWithDistance =>
              let results := nearestOf params entitiesWithDistance in
              Ok (results, statsOf allEntities filteredEntities results)
          end
      end
  end.
End Handler.

End FindNearestStats.

(** ** tak_calculate_distance: the handler around the geometry

    The handler of src/tools/geospatial/calculate-distance.ts with
    [turf.distance], [turf.bearing] and [turf.midpoint] as parameters and
    numbers as rationals: how the points are resolved, what the batch mode
    does with a destination that fails, and the travel times. *)

Module DistanceHandler.
Import Client.

Definition position : Type := FindNearest.position.
Definition Units : Type := CalculateDistance.Units.

(** [{ entityId?, coordinates? }], coordinates as [[lat, lon]]. *)
Record PointRef : Type := mkPointRef {
  ref_entityId : option string;
  ref_coordinates : option (Q * Q)
}.

Record Params : Type := mkParams {
  from : option PointRef;
  to : option PointRef;
  units : option Units;
  batch : option (list PointRef)
}.

(** [getCoordinates], lines 91-104, on the entities [getEntities]
    returns: [[lat, lon]], or the error thrown. *)
Definition getCoordinates (entities : list TAKEntity) (point : PointRef)
  : result (JS.number * JS.number) :=
  match ref_coordinates point with
  | Some (la, lo) => Ok (JS.Num la, JS.Num lo)
  | None =>
      match ref_entityId point with
      | Some (String c r) =>
          let id := String c r in
          match find (fun e => key_eqb (e_uid e) (Some id)) entities with
          | Some e => Ok (loc_lat (location e), loc_lon (location e))
          | None => Throw ("Entity " ++ id ++ " not found")
          end
      | _ => Throw "Either entityId or coordinates must be provided"
      end
  end.

(** [calculateTravelTime], lines 214-227, in minutes. *)
Record TravelTime : Type := mkTravelTime {
  walking : Z;
  vehicle : Z;
  helicopter : Z
}.

Definition calculateTravelTime (distance : Q) (units : Units) : TravelTime :=
  let distanceInMeters :=
    match units with
    | CalculateDistance.meters => distance
    | CalculateDistance.kilometers => distance * 1000
    | CalculateDistance.miles => distance * (160934 # 100)
    | CalculateDistance.nauticalmiles => distance * 1852
    end%Q in
  {| walking := JS.Math_round (distanceInMeters / (14 # 10) / 60);
     vehicle := JS.Math_round (distanceInMeters / (1667 # 100) / 60);
     helicopter := JS.Math_round (distanceInMeters / (5556 # 100) / 60) |}.

(** The payload of a single calculation, lines 122-139. *)
Record Single : Type := mkSingle {
  s_from : option string * (JS.number * JS.number);
  s_to : option string * (JS.number * JS.number);
  s_distance : Q;
  s_units : Units;
  s_bearing : Q;
  s_backBearing : Q;
  s_midpoint : Q * Q;
  s_estimatedTravelTime : TravelTime
}.

(** A measured destination of the batch, lines 157-164. *)
Record Measure : Type := mkMeasure {
  m_entityId : option string;
  m_coordinates : JS.number * JS.number;
  m_distance : Q;
  m_bearing : Q
}.

(** An element of [distances]: a measure, or the destination as given
    with the message of the error, lines 165-170. *)
Inductive Entry : Type :=
| Measured (m : Measure)
| Failed (destination : PointRef) (error : string).

(** [results.filter(r => !r.error)]: the messages thrown inside the
    callback are never empty, so the entries without error are the
    measured ones. *)
Fixpoint validResults (results : list Entry) : list Measure :=
  match results with
  | [] => []
  | Measured m :: rest => m :: validResults rest
  | Failed _ _ :: rest => validResults rest
  end.

(** [l.sort((a, b) => a.distance - b.distance)], stable. *)
Fixpoint insert (x : Measure) (l : list Measure) : list Measure :=
  match l with
  | [] => [x]
  | y :: l' =>
      if Qle_bool (m_distance x) (m_distance y) then x :: l else y :: insert x l'
  end.

Fixpoint sort_by_distance (l : list Measure) : list Measure :=
  match l with
  | [] => []
  | x :: l' => insert x (sort_by_distance l')
  end.

(** The payload of the batch mode, lines 179-194. *)
Record Batch : Type := mkBatch {
  b_from : option string * (JS.number * JS.number);
  distances : list Entry;
  nearest : option Measure;
  farthest : option Measure;
  b_units : Units;
  totalCalculations : nat;
  successfulCalculations : nat
}.

(** What the handler answers; [Nothing] is the undefined it returns when
    neither [to] nor [batch] is given. *)
Inductive Response : Type :=
| One (s : Single)
| Many (b : Batch)
| Nothing
| Failure (details : string).

Section Handler.
Variable turf_distance : Units -> position -> position -> Q.
Variable turf_bearing : position -> position -> Q.
(** [turf.midpoint(from, to)], as [[lon, lat]]. *)
Variable turf_midpoint : position -> position -> position.

(** The callback of lines 149-171. *)
Definition measure (entities : list TAKEntity) (u : Units) (fromPoint : position)
    (destination : PointRef) : Entry :=
  match getCoordinates entities destination with
  | Throw m => Failed destination m
  | Ok (tlat, tlon) =>
      match FindNearest.turf_point tlon tlat with
      | Throw m => Failed destination m
      | Ok toPoint =>
          Measured {| m_entityId := ref_entityId destination;
                      m_coordinates := (tlat, tlon);
                      m_distance := turf_distance u fromPoint toPoint;
                      m_bearing := turf_bearing fromPoint toPoint |}
      end
  end.

(** The handler, lines 86-210; [entities] is what [getEntities] returns
    whenever a point is looked up. *)
Definition handler (params : Params) (entities : list TAKEntity) : Response :=
  let u := match units params with
           | Some u => u
           | None => CalculateDistance.meters
           end in
  match from params with
  | None => Failure "TypeError: Cannot read properties of undefined"
  | Some origin =>
      match getCoordinates entities origin with
      | Throw m => Failure m
      | Ok (flat, flon) =>
          match FindNearest.turf_point flon flat with
          | Throw m => Failure m
          | Ok fromPoint =>
              match to params with
              | Some destination =>
                  match getCoordinates entities destination with
                  | Throw m => Failure m
                  | Ok (tlat, tlon) =>
                      match FindNearest.turf_point tlon tlat with
                      | Throw m => Failure m
                      | Ok toPoint =>
                          let distance := turf_distance u fromPoint toPoint in
                          let bearing := turf_bearing fromPoint toPoint in
                          let midpoint := turf_midpoint fromPoint toPoint in
                          One {| s_from := (ref_entityId origin, (flat, flon));
                                 s_to := (ref_entityId destination, (tlat, tlon));
                                 s_distance := distance;
                                 s_units := u;
                                 s_bearing := bearing;
                                 s_backBearing := JS.rem (bearing + 180) 360;
                                 s_midpoint := (snd midpoint, fst midpoint);
                                 s_estimatedTravelTime :=
                                   calculateTravelTime distance u |}
                      end
                  end
              | None =>
                  match batch params with
                  | Some destinations =>
                      let results := map (measure entities u fromPoint) destinations in
                      let valid := sort_by_distance (validResults results) in
                      Many {| b_from := (ref_entityId origin, (flat, flon));
                              distances := results;
                              nearest := FindNearestStats.at_index valid 0;
                              farthest :=
                                FindNearestStats.at_index valid
                                  (Z.of_nat (List.length valid) - 1);
                              b_units := u;
                              totalCalculations := List.length destinations;
                              successfulCalculations := List.length valid |}
                  | None => Nothing
                  end
              end
          end
      end
  end.
End Handler.

End DistanceHandler.

(** ** Plain objects used as dictionaries

    The tools group entities with
    [if (!acc[k]) acc[k] = []; acc[k].push(x)] on an object literal and
    list the groups with [Object.entries]. *)

Module JSObject.
Import Client.

(** The own properties of the object, in the order of their creation. *)
Definition Groups (A : Type) : Type := list (string * list A).

(** The properties every object literal inherits from [Object.prototype]. *)
Definition inherited : list string :=
  ["constructor"; "__defineGetter__"; "__defineSetter__"; "hasOwnProperty";
   "__lookupGetter__"; "__lookupSetter__"; "isPrototypeOf";
   "propertyIsEnumerable"; "toString"; "valueOf"; "__proto__";
   "toLocaleString"]%string.

Definition is_inherited (k : string) : bool := existsb (String.eqb k) inherited.

Fixpoint own {A : Type} (acc : Groups A) (k : string) : option (list A) :=
  match acc with
  | [] => None
  | (k', items) :: acc' => if String.eqb k' k then Some items else own acc' k
  end.

(** [acc[k].push(x)] on an own property. *)
Fixpoint push {A : Type} (acc : Groups A) (k : string) (x : A) : Groups A :=
  match acc with
  | [] => []
  | (k', items) :: acc' =>
      if String.eqb k' k then (k', items ++ [x]) :: acc'
      else (k', items) :: push acc' k x
  end.

(** One turn of the grouping.  A key that is not an own property but is
    inherited reads as a value that is truthy and has no [push]: the call
    throws. *)
Definition add {A : Type} (acc : Groups A) (k : string) (x : A)
  : result (Groups A) :=
  match own acc k with
  | Some _ => Ok (push acc k x)
  | None =>
      if is_inherited k then Throw "TypeError: acc[k].push is not a function"
      else Ok (acc ++ [(k, [x])])
  end.

(** [l.reduce((acc, x) => ..., acc)] with a key that may throw. *)
Fixpoint group_from {A : Type} (key : A -> result string) (l : list A)
    (acc : Groups A) : result (Groups A) :=
  match l with
  | [] => Ok acc
  | x :: l' =>
      match key x with
      | Throw m => Throw m
      | Ok k =>
          match add acc k x with
          | Throw m => Throw m
          | Ok acc' => group_from key l' acc'
          end
      end
  end.

Definition group_by {A : Type} (key : A -> result string) (l : list A)
  : result (Groups A) :=
  group_from key l [].

(** A key that is an array index: the canonical decimal form of an
    integer below 2^32 - 1. *)
Definition array_index (k : string) : option Z :=
  match k with
  | EmptyString => None
  | String c rest =>
      let '(v, n, tail) := JS.read_digits k 0 0%nat in
      match tail with
      | EmptyString =>
          if (Ascii.eqb c "0" && negb (String.eqb rest ""))%bool then None
          else if v <? 4294967295 then Some v else None
      | String _ _ => None
      end
  end.

Definition is_index {A : Type} (kv : string * A) : bool :=
  match array_index (fst kv) with
  | Some _ => true
  | None => false
  end.

Definition index_of {A : Type} (kv : string * A) : Z :=
  match array_index (fst kv) with
  | Some i => i
  | None => 0
  end.

(** [Object.entries(o)]: the array indices in ascending order, then the
    other keys in the order of their creation. *)
Definition entries {A : Type} (o : list (string * A)) : list (string * A) :=
  JS.sort_by index_of (filter is_index o) ++ filter (fun kv => negb (is_index kv)) o.

End JSObject.

(** ** tak_get_entities: the tool over getEntities

    src/tools/entities/get-entities.ts, the second file of
    src/unnamed/part_001; the line numbers are those of that part. *)

Module GetEntitiesTool.
Import Client.

(** [s.split(sep)] for a separator of one character. *)
Fixpoint split (sep : ascii) (s : string) : list string :=
  match s with
  | EmptyString => [EmptyString]
  | String c s' =>
      if Ascii.eqb c sep then EmptyString :: split sep s'
      else
        match split sep s' with
        | h :: t => String c h :: t
        | [] => [String c EmptyString]
        end
  end.

(** [entity.type.split('-').slice(0, 3).join('-')], line 204; reading
    [split] of an undefined type throws. *)
Definition typePrefix (entity : TAKEntity) : result string :=
  match e_type entity with
  | Some ty => Ok (String.concat "-" (firstn 3 (split "-" ty)))
  | None => Throw "TypeError: Cannot read properties of undefined"
  end.

(** [entity.team || 'Unknown'], line 214. *)
Definition teamOf (entity : TAKEntity) : result string :=
  Ok (str_or (Some (team entity)) "Unknown").

Definition descriptions : list (string * string) :=
  [("a-f-G", "Friendly Ground"); ("a-f-A", "Friendly Air");
   ("a-f-S", "Friendly Sea"); ("a-h-G", "Hostile Ground");
   ("a-h-A", "Hostile Air"); ("a-h-S", "Hostile Sea");
   ("a-n-G", "Neutral Ground"); ("a-n-A", "Neutral Air");
   ("a-n-S", "Neutral Sea"); ("a-u-G", "Unknown Ground");
   ("a-u-A", "Unknown Air"); ("a-u-S", "Unknown Sea");
   ("b-a-o", "Emergency/Alert"); ("b-m-p", "Sensor Point");
   ("u-d-f", "Shape/Drawing")]%string.

(** [getTypeDescription], lines 260-280, on the keys of the grouping,
    none of which is an inherited property. *)
Definition getTypeDescription (type : string) : string :=
  match find (fun d => String.eqb (fst d) type) descriptions with
  | Some d => snd d
  | None => type
  end.

(** The test of lines 192-200: updated less than five minutes ago.  The
    last update is a Date, which is truthy also when invalid. *)
Definition active (now : Z) (entity : TAKEntity) : bool :=
  match lastUpdate entity with
  | Some t => JS.Qlt_bool ((now - t) # 60000) 5
  | None => false
  end.

Record TypeCount : Type := mkTypeCount {
  tc_type : string;
  tc_count : nat;
  tc_description : string
}.

Record TeamCount : Type := mkTeamCount {
  tm_team : string;
  tm_count : nat
}.

Record Summary : Type := mkSummary {
  byType : list TypeCount;
  byTeam : list TeamCount;
  s_online : nat;
  s_offline : nat
}.

(** The answer of lines 224-252; an entity is listed without its
    [attributes]. *)
Record Answer : Type := mkAnswer {
  totalCount : nat;
  entities : list TAKEntity;
  summary : Summary
}.

(** The handler, lines 174-257, on what [getEntities] returned; an
    exception is thrown on to the caller. *)
Definition handler (includeStale : option bool) (now : Z)
    (fetched : list TAKEntity) : result Answer :=
  let activeEntities :=
    match includeStale with
    | Some true => fetched
    | _ => filter (active now) fetched
    end in
  match JSObject.group_by typePrefix activeEntities with
  | Throw m => Throw m
  | Ok byType =>
      match JSObject.group_by teamOf activeEntities with
      | Throw m => Throw m
      | Ok byTeam =>
          Ok {| totalCount := List.length activeEntities;
                entities := map (fun e =>
                                   {| e_uid := e_uid e; callsign := callsign e;
                                      e_type := e_type e; team := team e;
                                      role := role e; location := location e;
                                      lastUpdate := lastUpdate e;
                                      status := status e; attributes := None |})
                                activeEntities;
                summary :=
                  {| byType :=
                       map (fun kv => {| tc_type := fst kv;
                                         tc_count := List.length (snd kv);
                                         tc_description := getTypeDescription (fst kv) |})
                           (JSObject.entries byType);
                     byTeam :=
                       map (fun kv => {| tm_team := fst kv;
                                         tm_count := List.length (snd kv) |})
                           (JSObject.entries byTeam);
                     s_online :=
                       List.length (filter (fun e => online (status e)) activeEntities);
                     s_offline :=
                       List.length (filter (fun e => negb (online (status e)))
                                           activeEntities) |} |}
      end
  end.

End GetEntitiesTool.

(** ** tak_spatial_query: src/tools/geospatial/spatial-query.ts *)

Module SpatialQuery.
Import Client.

Definition position : Type := FindNearest.position.

(** The parameters the handler itself reads; the others go to the
    server with the query. *)
Record Params : Type := mkParams {
  center : option (Q * Q);          (* [lat, lon] *)
  radius : option Q;
  includeStale : option bool
}.

(** An element of [enrichedResults], lines 98-116, without the grid
    references [mgrs] and [h3Index] and without [status].  The
    coordinates are those [turf.point] has accepted. *)
Record Enriched : Type := mkEnriched {
  r_uid : option string;
  r_type : option string;
  r_callsign : option string;
  r_lat : Q;
  r_lon : Q;
  r_alt : JS.number;
  r_time : JS.Date;
  r_stale : JS.Date;
  distanceFromCenter : option Q;
  r_bearing : option Q;
  r_team : option string;
  r_role : option string
}.

Record TimeRange : Type := mkTimeRange {
  earliest : option JS.Date;
  latest : option JS.Date
}.

(** The answer of lines 127-148; [None] is [null] for the bounds and
    [undefined] for the times. *)
Record Answer : Type := mkAnswer {
  totalCount : nat;
  results : list Enriched;
  byType : list (string * nat);
  bounds : option (Q * Q * Q * Q);
  timeRange : TimeRange
}.

(** [calculateBounds], lines 175-187:
    [[minLon, minLat, maxLon, maxLat]]. *)
Definition calculateBounds (events : list Enriched) : option (Q * Q * Q * Q) :=
  match events with
  | [] => None
  | _ :: _ =>
      let lats := map r_lat events in
      let lons := map r_lon events in
      Some (AnalyzeMovement.minimum lons, AnalyzeMovement.minimum lats,
            AnalyzeMovement.maximum lons, AnalyzeMovement.maximum lats)
  end.

Section Handler.
Variable turf_distance : position -> position -> Q.
Variable turf_bearing : position -> position -> Q.

(** The callback of lines 87-117. *)
Definition enrich (params : Params) (event : CotEvent) : result Enriched :=
  match FindNearest.turf_point (lon (point event)) (lat (point event)) with
  | Throw m => Throw m
  | Ok (x, y) =>
      let measured :=
        match center params with
        | Some c =>
            if CreateGeofence.present (radius params)
            then Some (turf_distance (snd c, fst c) (x, y),
                       turf_bearing (snd c, fst c) (x, y))
            else None
        | None => None
        end in
      Ok {| r_uid := uid event;
            r_type := type event;
            r_callsign := opt_bind (detail event) contact_callsign;
            r_lat := y;
            r_lon := x;
            r_alt := hae (point event);
            r_time := time event;
            r_stale := stale event;
            distanceFromCenter := option_map fst measured;
            r_bearing := option_map snd measured;
            r_team := opt_bind (detail event) group_name;
            r_role := opt_bind (detail event) group_role |}
  end.

(** The handler, lines 62-153, on the events the server returned; [now]
    is [new Date()].  An exception is thrown on to the caller. *)
Definition handler (params : Params) (now : Z) (events : list CotEvent)
  : result Answer :=
  let filteredEvents :=
    match includeStale params with
    | Some true => events
    | _ => filter (fun event => JS.date_gt (stale event) (Some now)) events
    end in
  match FindNearest.map_result (enrich params) filteredEvents with
  | Throw m => Throw m
  | Ok enrichedResults =>
      match JSObject.group_by (fun e => Ok (str_or (r_type e) "unknown"))
                              enrichedResults with
      | Throw m => Throw m
      | Ok groupedByType =>
          Ok {| totalCount := List.length enrichedResults;
                results := enrichedResults;
                byType := map (fun kv => (fst kv, List.length (snd kv)))
                              (JSObject.entries groupedByType);
                bounds := calculateBounds enrichedResults;
                timeRange :=
                  {| earliest :=
                       match enrichedResults with
                       | [] => None
                       | first :: _ =>
                           Some (fold_left
                                   (fun min e => if JS.date_gt min (r_time e)
                                                 then r_time e else min)
                                   enrichedResults (r_time first))
                       end;
                     latest :=
                       match enrichedResults with
                       | [] => None
                       | first :: _ =>
                           Some (fold_left
                                   (fun max e => if JS.date_gt (r_time e) max
                                                 then r_time e else max)
                                   enrichedResults (r_time first))
                       end |} |}
      end
  end.
End Handler.

End SpatialQuery.

(** ** The tool registry: src/tools/registry.ts *)

Module Registry.

(** What the registry reads of a tool. *)
Record TAKTool : Type := mkTool {
  name : string;
  category : string;
  requiresWrite : option bool
}.

(** [Map<string, TAKTool>], in insertion order. *)
Definition Tools : Type := list (string * TAKTool).

Fixpoint get (tools : Tools) (k : string) : option TAKTool :=
  match tools with
  | [] => None
  | (k', t) :: rest => if String.eqb k' k then Some t else get rest k
  end.

Fixpoint set (tools : Tools) (k : string) (t : TAKTool) : Tools :=
  match tools with
  | [] => [(k, t)]
  | (k', t') :: rest =>
      if String.eqb k' k then (k', t) :: rest else (k', t') :: set rest k t
  end.

(** [registerTool], lines 53-55. *)
Definition registerTool (tools : Tools) (tool : TAKTool) : Tools :=
  set tools (name tool) tool.

(** [getTool], lines 57-59. *)
Definition getTool (tools : Tools) (name : string) : option TAKTool :=
  get tools name.

(** [getAllTools], lines 61-63. *)
Definition getAllTools (tools : Tools) : list TAKTool := map snd tools.

(** [getEnabledTools], lines 65-75. *)
Definition getEnabledTools (tools : Tools) (enabledList : option (list string))
  : list TAKTool :=
  match enabledList with
  | Some (n :: ns) =>
      filter (fun tool => existsb (String.eqb (name tool)) (n :: ns))
             (getAllTools tools)
  | _ => getAllTools tools
  end.

(** [getToolsByCategory], lines 77-79. *)
Definition getToolsByCategory (tools : Tools) (c : string) : list TAKTool :=
  filter (fun tool => String.eqb (category tool) c) (getAllTools tools).

(** [getReadOnlyTools], lines 81-83: [!tool.requiresWrite]. *)
Definition getReadOnlyTools (tools : Tools) : list TAKTool :=
  filter (fun tool => match requiresWrite tool with
                      | Some true => false
                      | _ => true
                      end)
         (getAllTools tools).

(** The registry after the given tools are registered in order, as the
    constructor does, lines 36-51. *)
Definition registry (registered : list TAKTool) : Tools :=
  fold_left registerTool registered [].

End Registry.

(** ** tak_send_emergency: src/tools/alerts/send-emergency.ts *)

Module SendEmergency.
Import Client.

Record Location : Type := mkLocation {
  loc_entityId : option string;
  loc_coordinates : option (Q * Q)          (* [lat, lon] *)
}.

Record Params : Type := mkParams {
  p_type : string;
  p_message : string;
  p_location : Location;
  p_callsign : option string;
  notifyRadius : option Q
}.

(** [cotTypeMap], lines 89-97. *)
Definition cotTypeMap : list (string * string) :=
  [("911", "b-a-o-tbl"); ("panic", "b-a-o-pan"); ("medical", "b-a-o-med");
   ("fire", "b-a-o-fir"); ("hostile", "b-a-o-can"); ("breakdown", "b-a-o-veh");
   ("custom", "b-a-o-oth")]%string.

(** [cotTypeMap[params.type] || 'b-a-o-oth'], line 99.  For the name of
    an inherited property the lookup yields a function, which is truthy
    and no CoT type: [None]. *)
Definition cotTypeOf (t : string) : option string :=
  match find (fun kv => String.eqb (fst kv) t) cotTypeMap with
  | Some kv => Some (snd kv)
  | None => if JSObject.is_inherited t then None else Some "b-a-o-oth"%string
  end.

(** An element of [nearbyUnits], lines 184-189. *)
Record Unit : Type := mkUnit {
  u_uid : option string;
  u_callsign : option string;
  u_distance : Z;
  u_team : string
}.

(** The success payload of lines 199-210, with the type and callsign of
    the CoT event sent. *)
Record Answer : Type := mkAnswer {
  a_location : JS.number * JS.number;
  a_cotType : option string;
  a_callsign : string;
  notifiedUnits : nat;
  nearbyUnits : list Unit
}.

Section Handler.
(** [Math.sqrt] on a number that is not negative. *)
Variable Math_sqrt : Q -> Q.

(** Lines 179-181: the distance of an entity from the emergency in
    rough meters; NaN as soon as a coordinate is. *)
Definition roughDistance (emergencyLocation : JS.number * JS.number)
    (entity : TAKEntity) : JS.number :=
  match loc_lat (location entity), loc_lon (location entity),
        fst emergencyLocation, snd emergencyLocation with
  | JS.Num la, JS.Num lo, JS.Num la0, JS.Num lo0 =>
      let latDiff := (la - la0)%Q in
      let lonDiff := (lo - lo0)%Q in
      JS.Num (Math_sqrt (latDiff * latDiff + lonDiff * lonDiff) * 111000)
  | _, _, _, _ => JS.NaN
  end.

(** The loop of lines 177-191. *)
Definition within (params : Params) (emergencyLocation : JS.number * JS.number)
    (radius : Q) (entity : TAKEntity) : list Unit :=
  match roughDistance emergencyLocation entity with
  | JS.Num distance =>
      if Qle_bool distance radius &&
         negb (key_eqb (e_uid entity) (loc_entityId (p_location params)))
      then [ {| u_uid := e_uid entity;
                u_callsign := callsign entity;
                u_distance := JS.Math_round distance;
                u_team := team entity |} ]
      else []
  | JS.NaN => []
  end.

(** Lines 173-195; [params.notifyRadius > 0] is false for an absent
    radius. *)
Definition nearby (params : Params) (emergencyLocation : JS.number * JS.number)
    (allEntities : list TAKEntity) : list Unit :=
  match notifyRadius params with
  | Some radius =>
      if JS.Qlt_bool 0 radius
      then JS.sort_by u_distance
             (flat_map (within params emergencyLocation radius) allEntities)
      else []
  | None => []
  end.

(** The handler, lines 59-230, on the entities [getEntities] returns;
    both sends are taken to succeed.  The error is the [details] of
    [TAK_EMERGENCY_ERROR]. *)
Definition handler (params : Params) (entities : list TAKEntity) : result Answer :=
  let located :=
    match loc_coordinates (p_location params) with
    | Some (la, lo) => Ok ((JS.Num la, JS.Num lo), None)
    | None =>
        match loc_entityId (p_location params) with
        | Some (String c r) =>
            let id := String c r in
            match find (fun e => key_eqb (e_uid e) (Some id)) entities with
            | Some e => Ok ((loc_lat (location e), loc_lon (location e)), callsign e)
            | None => Throw ("Entity " ++ id ++ " not found")
            end
        | _ => Throw "Either entityId or coordinates must be provided"
        end
    end in
  match located with
  | Throw m => Throw m
  | Ok (emergencyLocation, entityCallsign) =>
      let nearbyUnits := nearby params emergencyLocation entities in
      Ok {| a_location := emergencyLocation;
            a_cotType := cotTypeOf (p_type params);
            a_callsign :=
              if JS.str_truthy (p_callsign params)
              then str_or (p_callsign params) "EMERGENCY"
              else str_or entityCallsign "EMERGENCY";
            notifiedUnits := List.length nearbyUnits;
            nearbyUnits := JS.slice0 nearbyUnits 10 |}
  end.
End Handler.

End SendEmergency.

(** * Properties *)

(** ** JavaScript primitives on concrete inputs *)

Example parseFloat_decimal :
  JS.parseFloat (JS.VStr "37.75") = JS.Num (151 # 4) /\
  JS.parseFloat (JS.VStr "0.1") = JS.Num (3602879701896397 # 36028797018963968).
Proof. split; vm_compute; reflexivity. Qed.

Example parseFloat_beyond_the_doubles :
  JS.parseFloat (JS.VStr "1e-400") = JS.Num 0 /\
  JS.read (JS.VStr "1e400") = JS.Infinite false /\
  JS.read (JS.VStr "-Infinity") = JS.Infinite true.
Proof. repeat split; vm_compute; reflexivity. Qed.

Example parseFloat_at_the_ends_of_the_doubles :
  JS.read (JS.VStr "1.7976931348623158e308") =
    JS.Finite (JS.Num (inject_Z ((2 ^ 53 - 1) * 2 ^ 971))) /\
  JS.read (JS.VStr "1.7976931348623159e308") = JS.Infinite false /\
  JS.read (JS.VStr "5e-324") = JS.Finite (JS.Num (1 # Pos.pow 2 1074)) /\
  JS.read (JS.VStr "2e-324") = JS.Finite (JS.Num 0) /\
  JS.read (JS.VStr "9007199254740993") = JS.Finite (JS.Num (inject_Z (2 ^ 53))).
Proof. repeat split; vm_compute; reflexivity. Qed.

Example parseFloat_exponent :
  JS.parseFloat (JS.VStr " -1.5e2abc") = JS.Num (-150 # 1).
Proof. vm_compute. reflexivity. Qed.

Example parseFloat_garbage : JS.parseFloat (JS.VStr "n/a") = JS.NaN.
Proof. reflexivity. Qed.

Example Math_round_half : JS.Math_round (5 # 2) = 3 /\ JS.Math_round (-5 # 2) = -2.
Proof. split; reflexivity. Qed.

Example rem_sign : Qeq (JS.rem (-370) 360) (-10) /\ Qeq (JS.rem 360 360) 0.
Proof. split; vm_compute; reflexivity. Qed.

Example slice0_counts_from_the_end :
  JS.slice0 [1; 2; 3; 4] 2 = [1; 2] /\ JS.slice0 [1; 2; 3; 4] (-1) = [1; 2; 3] /\
  JS.slice0 [1; 2; 3; 4] 9 = [1; 2; 3; 4].
Proof. repeat split. Qed.

Example sort_by_keeps_ties_in_order :
  JS.sort_by fst [(2, "a"); (1, "b"); (2, "c"); (1, "d")]%string
  = [(1, "b"); (1, "d"); (2, "a"); (2, "c")]%string.
Proof. reflexivity. Qed.

Example compass_directions :
  FindNearest.getCompassDirection 0 = Some "N"%string /\
  FindNearest.getCompassDirection 90 = Some "E"%string /\
  FindNearest.getCompassDirection (-90) = Some "W"%string /\
  FindNearest.getCompassDirection 180 = Some "S"%string /\
  FindNearest.getCompassDirection (-180) = Some "S"%string /\
  FindNearest.getCompassDirection (3595 # 10) = Some "N"%string.
Proof. repeat split. Qed.

(** ** The entity store: reconciliation of reports (getEntities) *)

Section Reconciliation.
Import Client.

Variable now : Z.

(** The observation time of an event whose date is valid. *)
Definition observed (e : CotEvent) : Z :=
  match time e with
  | Some t => t
  | None => 0
  end.

Definition valid (e : CotEvent) : Prop := time e <> None.

(** The report the store ends with, told without a map: the candidate
    [cur] gives way to a report only if that one is strictly newer. *)
Fixpoint latest_from (cur : CotEvent) (l : list CotEvent) : CotEvent :=
  match l with
  | [] => cur
  | e :: l' =>
      latest_from (if JS.date_gt (time e) (time cur) then e else cur) l'
  end.

Lemma key_eqb_refl (k : key) : key_eqb k k = true.
Proof. destruct k as [s|]; simpl; [apply String.eqb_refl | reflexivity]. Qed.

Lemma key_eqb_eq (a b : key) : key_eqb a b = true <-> a = b.
Proof.
  destruct a as [x|], b as [y|]; simpl; split; intro H;
    try discriminate; try reflexivity.
  - apply String.eqb_eq in H. now subst.
  - injection H as ->. apply String.eqb_refl.
Qed.

Lemma date_gt_valid (a b : CotEvent) :
  valid a -> valid b ->
  JS.date_gt (time a) (time b) = (observed a >? observed b).
Proof.
  unfold valid, observed. destruct (time a), (time b); simpl; congruence.
Qed.

Lemma lastUpdate_toEntity (e : CotEvent) : lastUpdate (toEntity now e) = time e.
Proof. reflexivity. Qed.

(** Without team and role filters a report replaces the state exactly
    when there is none or the report is strictly newer. *)
Lemma upsert_rule (m : EntityMap) (ev : CotEvent) :
  upsert None None now m ev =
  match map_get m (uid ev) with
  | None => map_set m (uid ev) (toEntity now ev)
  | Some stored =>
      if JS.date_gt (time ev) (lastUpdate stored)
      then map_set m (uid ev) (toEntity now ev)
      else m
  end.
Proof.
  unfold upsert. simpl.
  destruct (map_get m (uid ev)) as [s|]; [|reflexivity].
  now destruct (JS.date_gt (time ev) (lastUpdate s)).
Qed.

Lemma upsert_same_uid (u : key) (c e : CotEvent) :
  uid e = u ->
  upsert None None now [(u, toEntity now c)] e =
  [(u, toEntity now (if JS.date_gt (time e) (time c) then e else c))].
Proof.
  intros <-. rewrite upsert_rule. cbn [map_get]. rewrite key_eqb_refl.
  rewrite lastUpdate_toEntity.
  destruct (JS.date_gt (time e) (time c)); [|reflexivity].
  cbn [map_set]. now rewrite key_eqb_refl.
Qed.

Lemma fold_same_uid (u : key) (l : list CotEvent) :
  Forall (fun e => uid e = u) l ->
  forall c,
    fold_left (upsert None None now) l [(u, toEntity now c)] =
    [(u, toEntity now (latest_from c l))].
Proof.
  induction 1 as [|e l He _ IH]; intro c; simpl; [reflexivity|].
  rewrite (upsert_same_uid u c e He). apply IH.
Qed.

Lemma getEntities_same_uid (u : key) (e : CotEvent) (l : list CotEvent) :
  Forall (fun x => uid x = u) (e :: l) ->
  getEntities None None now (e :: l) = [toEntity now (latest_from e l)].
Proof.
  intro H. inversion H as [|? ? He Hl]; subst.
  unfold getEntities, reconcile. cbn [fold_left].
  rewrite upsert_rule. cbn [map_get map_set].
  now rewrite (fold_same_uid (uid e) l Hl).
Qed.

(** [r] is the first of the newest reports of [l]: everything delivered
    before it is strictly older, nothing delivered after it is newer. *)
Definition first_newest (r : CotEvent) (l : list CotEvent) : Prop :=
  exists before after,
    l = before ++ r :: after /\
    Forall (fun e => observed e < observed r) before /\
    Forall (fun e => observed e <= observed r) after.

Lemma latest_from_first_newest (l : list CotEvent) :
  Forall valid l ->
  forall c, valid c ->
    first_newest (latest_from c l) (c :: l) /\
    valid (latest_from c l) /\
    observed c <= observed (latest_from c l).
Proof.
  induction 1 as [|e l He _ IH]; intros c Hc; simpl.
  - split; [|split; [assumption|lia]].
    exists [], []. repeat split; constructor.
  - rewrite (date_gt_valid e c He Hc).
    destruct (Z.gtb_spec (observed e) (observed c)) as [Hgt|Hle].
    + destruct (IH e He) as [(b & a & Heq & Hb & Ha) [Hv Hmono]].
      remember (latest_from e l) as r eqn:Er.
      split; [|split; [assumption|lia]].
      exists (c :: b), a. split; [simpl; now rewrite Heq|].
      split; [|assumption]. constructor; [lia|assumption].
    + destruct (IH c Hc) as [(b & a & Heq & Hb & Ha) [Hv Hmono]].
      remember (latest_from c l) as r eqn:Er.
      split; [|split; assumption].
      destruct b as [|c' b]; simpl in Heq; injection Heq as Hr Hl.
      * exists [], (e :: l). split; [simpl; now rewrite Hr|].
        split; [constructor|].
        constructor; [rewrite <- Hr; lia|now rewrite Hl].
      * inversion Hb as [|? ? Hcr Hb']; subst c'.
        exists (c :: e :: b), a. split; [simpl; now rewrite Hl|].
        split; [|assumption].
        constructor; [assumption|]. constructor; [lia|assumption].
Qed.

Lemma first_newest_In (r : CotEvent) (l : list CotEvent) :
  first_newest r l -> In r l.
Proof.
  intros (b & a & -> & _). apply in_or_app. right. now left.
Qed.

Lemma first_newest_max (r : CotEvent) (l : list CotEvent) :
  first_newest r l -> forall e, In e l -> observed e <= observed r.
Proof.
  intros (b & a & -> & Hb & Ha) e Hin.
  rewrite Forall_forall in Hb, Ha.
  apply in_app_or in Hin. destruct Hin as [Hin|[<-|Hin]].
  - specialize (Hb e Hin). lia.
  - lia.
  - now apply Ha.
Qed.

(** Reports that are not newer than the state leave it alone. *)
Lemma latest_from_not_newer (c : CotEvent) (l : list CotEvent) :
  valid c -> Forall (fun e => valid e /\ observed e <= observed c) l ->
  latest_from c l = c.
Proof.
  intros Hc. induction 1 as [|e l [He Hle] _ IH]; simpl; [reflexivity|].
  rewrite (date_gt_valid e c He Hc).
  destruct (Z.gtb_spec (observed e) (observed c)); [lia|exact IH].
Qed.

Lemma latest_from_app (c : CotEvent) (l1 l2 : list CotEvent) :
  latest_from c (l1 ++ l2) = latest_from (latest_from c l1) l2.
Proof.
  revert c. induction l1 as [|e l1 IH]; intro c; simpl; [reflexivity|apply IH].
Qed.

End Reconciliation.

(** *** One identifier among many *)

Section PerIdentifier.
Import Client.
Variable now : Z.

Lemma key_eqb_neq (a b : key) : key_eqb a b = false <-> a <> b.
Proof.
  split.
  - intros H E. apply key_eqb_eq in E. congruence.
  - intro H. destruct (key_eqb a b) eqn:E; [|reflexivity].
    apply key_eqb_eq in E. contradiction.
Qed.

Lemma map_get_set_same (m : EntityMap) (k : key) (v : TAKEntity) :
  map_get (map_set m k v) k = Some v.
Proof.
  induction m as [|[k' v'] m IH]; cbn [map_set map_get].
  - now rewrite key_eqb_refl.
  - destruct (key_eqb k' k) eqn:E; cbn [map_get]; rewrite E; [reflexivity|exact IH].
Qed.

Lemma map_get_set_other (m : EntityMap) (k k' : key) (v : TAKEntity) :
  k <> k' -> map_get (map_set m k v) k' = map_get m k'.
Proof.
  intro Hne. induction m as [|[k0 v0] m IH]; cbn [map_set map_get].
  - apply key_eqb_neq in Hne. now rewrite Hne.
  - destruct (key_eqb k0 k) eqn:E; cbn [map_get].
    + apply key_eqb_eq in E. subst k0.
      apply key_eqb_neq in Hne. now rewrite Hne.
    + now rewrite IH.
Qed.

(** What an event does to the state of one identifier depends on that
    state only. *)
Lemma upsert_get (m m' : EntityMap) (u : key) (e : CotEvent) :
  map_get m u = map_get m' u ->
  map_get (upsert None None now m e) u =
  map_get (if key_eqb (uid e) u then upsert None None now m' e else m') u.
Proof.
  intro H. rewrite !upsert_rule.
  destruct (key_eqb (uid e) u) eqn:E.
  - apply key_eqb_eq in E. subst u. rewrite <- H.
    destruct (map_get m (uid e)) as [s|] eqn:Em.
    + destruct (JS.date_gt (time e) (lastUpdate s)); [|congruence].
      now rewrite !map_get_set_same.
    + now rewrite !map_get_set_same.
  - apply key_eqb_neq in E.
    destruct (map_get m (uid e)) as [s|] eqn:Em.
    + destruct (JS.date_gt (time e) (lastUpdate s)); [|exact H].
      now rewrite map_get_set_other.
    + now rewrite map_get_set_other.
Qed.

(** In a stream that mixes entities, the state the store ends with for an
    identifier is the state it would end with had only the reports of
    that identifier been delivered. *)
Lemma reconcile_per_identifier (u : key) (events : list CotEvent) :
  map_get (reconcile None None now events) u =
  map_get (reconcile None None now
             (filter (fun e => key_eqb (uid e) u) events)) u.
Proof.
  unfold reconcile.
  assert (H : forall l m m', map_get m u = map_get m' u ->
            map_get (fold_left (upsert None None now) l m) u =
            map_get (fold_left (upsert None None now)
                       (filter (fun e => key_eqb (uid e) u) l) m') u).
  { induction l as [|e l IH]; intros m m' Hm; [exact Hm|].
    cbn [fold_left filter]. pose proof (upsert_get m m' u e Hm) as Hstep.
    destruct (key_eqb (uid e) u); cbn [fold_left]; now apply IH. }
  now apply H.
Qed.

End PerIdentifier.

Lemma Forall_perm {A : Type} (P : A -> Prop) (l l' : list A) :
  Permutation l l' -> Forall P l -> Forall P l'.
Proof.
  intros Hp Hl. rewrite Forall_forall in *. intros x Hx.
  apply Hl. apply (Permutation_in x (Permutation_sym Hp) Hx).
Qed.

(** Two reports of one entity that carry the same observation time and
    differ in position. *)
Definition reportA : Client.CotEvent :=
  {| Client.uid := Some "UNIT-1"%string;
     Client.type := Some "a-f-G-U-C"%string;
     Client.time := Some 1000;
     Client.start := Some 1000;
     Client.stale := Some 61000;
     Client.how := Some "m-g"%string;
     Client.point := {| Client.lat := JS.Num 10; Client.lon := JS.Num 20;
                        Client.hae := JS.Num 5; Client.ce := JS.Num 9;
                        Client.le := JS.Num 9 |};
     Client.detail := None |}.

Definition reportB : Client.CotEvent :=
  {| Client.uid := Some "UNIT-1"%string;
     Client.type := Some "a-f-G-U-C"%string;
     Client.time := Some 1000;
     Client.start := Some 1000;
     Client.stale := Some 61000;
     Client.how := Some "m-g"%string;
     Client.point := {| Client.lat := JS.Num 11; Client.lon := JS.Num 20;
                        Client.hae := JS.Num 5; Client.ce := JS.Num 9;
                        Client.le := JS.Num 9 |};
     Client.detail := None |}.

(** A later report of the same entity. *)
Definition reportC : Client.CotEvent :=
  {| Client.uid := Some "UNIT-1"%string;
     Client.type := Some "a-f-G-U-C"%string;
     Client.time := Some 2000;
     Client.start := Some 2000;
     Client.stale := Some 62000;
     Client.how := Some "m-g"%string;
     Client.point := {| Client.lat := JS.Num 12; Client.lon := JS.Num 20;
                        Client.hae := JS.Num 5; Client.ce := JS.Num 9;
                        Client.le := JS.Num 9 |};
     Client.detail := None |}.

(** C1, as stated, fails: two reports of the same entity with the same
    observation time are kept or dropped by arrival, so the two delivery
    orders of the same two reports leave the store in different states. *)
Lemma equal_time_reports_depend_on_order :
  Client.uid reportA = Client.uid reportB /\
  Client.time reportA = Client.time reportB /\
  Permutation [reportA; reportB] [reportB; reportA] /\
  Client.getEntities None None 0 [reportA; reportB] = [Client.toEntity 0 reportA] /\
  Client.getEntities None None 0 [reportB; reportA] = [Client.toEntity 0 reportB] /\
  Client.toEntity 0 reportA <> Client.toEntity 0 reportB.
Proof.
  repeat split; try reflexivity.
  - apply perm_swap.
  - intro H. discriminate H.
Qed.

(** With a team filter the loop skips a newer report of another team and
    so leaves the older state of the entity in place. *)
Definition reportRed : Client.CotEvent :=
  {| Client.uid := Some "UNIT-1"%string;
     Client.type := Some "a-f-G-U-C"%string;
     Client.time := Some 2000;
     Client.start := Some 2000;
     Client.stale := Some 62000;
     Client.how := Some "m-g"%string;
     Client.point := {| Client.lat := JS.Num 12; Client.lon := JS.Num 20;
                        Client.hae := JS.Num 5; Client.ce := JS.Num 9;
                        Client.le := JS.Num 9 |};
     Client.detail :=
       Some {| Client.contact_callsign := None;
               Client.group_name := Some "Red"%string;
               Client.group_role := None;
               Client.status_battery := None;
               Client.status_readiness := None;
               Client.track_speed := None;
               Client.track_course := None |} |}.

Example filtered_newer_report_leaves_older_state :
  Client.getEntities (Some ["Unknown"%string]) None 0 [reportA; reportRed]
    = [Client.toEntity 0 reportA] /\
  Client.getEntities None None 0 [reportA; reportRed]
    = [Client.toEntity 0 reportRed].
Proof. split; reflexivity. Qed.

(** C1, amended.  For every sequence of reports of one entity with valid
    observation times: (1) the store ends with the first delivered of the
    reports with the maximum observation time; (2) a report replaces the
    stored state exactly when there is none for its id or it is strictly
    newer, and is dropped otherwise; (3) the final state is the same for
    every delivery order provided the reports that carry the maximum
    observation time are all the same report; (4) redelivering reports
    already delivered changes nothing. *)
Theorem reconcile_keeps_first_newest
    (now : Z) (u : Client.key) (events : list Client.CotEvent) :
  events <> [] ->
  Forall (fun e => Client.uid e = u) events ->
  Forall valid events ->
  (exists r, first_newest r events /\
             Client.getEntities None None now events = [Client.toEntity now r]) /\
  (forall m ev,
     Client.upsert None None now m ev =
     match Client.map_get m (Client.uid ev) with
     | None => Client.map_set m (Client.uid ev) (Client.toEntity now ev)
     | Some stored =>
         if JS.date_gt (Client.time ev) (Client.lastUpdate stored)
         then Client.map_set m (Client.uid ev) (Client.toEntity now ev)
         else m
     end) /\
  (forall events',
     Permutation events events' ->
     (forall x y, In x events -> In y events ->
                  (forall z, In z events -> observed z <= observed x) ->
                  observed y = observed x -> y = x) ->
     Client.getEntities None None now events' =
     Client.getEntities None None now events) /\
  (forall replay,
     incl replay events ->
     Client.getEntities None None now (events ++ replay) =
     Client.getEntities None None now events).
Proof.
  intros Hne Hu Hv.
  assert (Hfirst : forall l, l <> [] -> Forall (fun e => Client.uid e = u) l ->
            Forall valid l ->
            exists r, first_newest r l /\
              Client.getEntities None None now l = [Client.toEntity now r]).
  { intros [|e l] Hl Hul Hvl; [congruence|].
    exists (latest_from e l). split.
    - inversion Hvl; subst. now apply latest_from_first_newest.
    - now apply (getEntities_same_uid now u). }
  split; [now apply Hfirst|]. split; [apply upsert_rule|]. split.
  - intros events' Hp Huniq.
    destruct (Hfirst events Hne Hu Hv) as (r & Hr & ->).
    assert (Hne' : events' <> []).
    { intros ->. apply Permutation_sym, Permutation_nil in Hp. congruence. }
    destruct (Hfirst events' Hne' (Forall_perm _ _ _ Hp Hu) (Forall_perm _ _ _ Hp Hv))
      as (r' & Hr' & ->).
    assert (Hin' : In r' events).
    { apply (Permutation_in r' (Permutation_sym Hp)), first_newest_In, Hr'. }
    assert (Hin : In r events') by (apply (Permutation_in r Hp), first_newest_In, Hr).
    assert (Hle := first_newest_max r events Hr r' Hin').
    assert (Hge := first_newest_max r' events' Hr' r Hin).
    rewrite (Huniq r r' (first_newest_In _ _ Hr) Hin' (first_newest_max r events Hr));
      [reflexivity|lia].
  - intros replay Hincl.
    destruct events as [|e l]; [congruence|].
    assert (Hur : Forall (fun x => Client.uid x = u) replay).
    { rewrite Forall_forall in *. intros x Hx. apply Hu, Hincl, Hx. }
    change ((e :: l) ++ replay) with (e :: (l ++ replay)).
    rewrite (getEntities_same_uid now u e (l ++ replay)),
            (getEntities_same_uid now u e l Hu).
    2:{ inversion Hu; subst. constructor; [reflexivity|].
        apply Forall_app. split; assumption. }
    rewrite latest_from_app. f_equal. f_equal.
    inversion Hv as [|? ? Hve Hvl]; subst.
    destruct (latest_from_first_newest l Hvl e Hve) as [Hfn [Hvr _]].
    apply latest_from_not_newer; [assumption|].
    rewrite Forall_forall in *. intros x Hx. split.
    + apply Hv, Hincl, Hx.
    + apply (first_newest_max _ _ Hfn), Hincl, Hx.
Qed.

(** The theorem at the deliveries A, C, A: the later report C wins. *)
Lemma reconcile_keeps_first_newest_witness :
  exists r, first_newest r [reportA; reportC; reportA] /\
    Client.getEntities None None 0 [reportA; reportC; reportA] =
    [Client.toEntity 0 r].
Proof.
  apply (reconcile_keeps_first_newest 0 (Some "UNIT-1"%string)
           [reportA; reportC; reportA]).
  - discriminate.
  - repeat constructor.
  - repeat constructor; discriminate.
Defined.

(** ** Reading decimal text (parseFloat)

    The text of a decimal: an optional minus sign, the digits [ip] before
    the point and the digits [fp] after it; and the rational it denotes. *)

Definition is_digit (d : Z) : Prop := 0 <= d <= 9.

Definition digit_char (d : Z) : ascii := ascii_of_N (Z.to_N (48 + d)).

Fixpoint digits_text (ds : list Z) : string :=
  match ds with
  | [] => EmptyString
  | d :: r => String (digit_char d) (digits_text r)
  end.

Definition digits_value (ds : list Z) : Z := fold_left (fun a d => 10 * a + d) ds 0.

Definition decimal_text (negative : bool) (ip fp : list Z) : string :=
  let digits := (digits_text ip ++ "." ++ digits_text fp)%string in
  if negative then String "-" digits else digits.

Definition decimal_value (ip fp : list Z) : Q :=
  inject_Z (digits_value (ip ++ fp)) * JS.pow10 (- Z.of_nat (List.length fp)).

Lemma digit_cases (d : Z) :
  is_digit d ->
  d = 0 \/ d = 1 \/ d = 2 \/ d = 3 \/ d = 4 \/ d = 5 \/ d = 6 \/ d = 7 \/ d = 8 \/ d = 9.
Proof. unfold is_digit. lia. Qed.

Ltac each_digit H :=
  destruct (digit_cases _ H) as [->|[->|[->|[->|[->|[->|[->|[->|[->| ->]]]]]]]]].

Lemma digit_of_char (d : Z) : is_digit d -> JS.digit_of (digit_char d) = Some d.
Proof. intro H. each_digit H; reflexivity. Qed.

Lemma read_digits_text (ds : list Z) (rest : string) (acc : Z) (cnt : nat) :
  Forall is_digit ds ->
  match rest with
  | String c _ => JS.digit_of c = None
  | EmptyString => True
  end ->
  JS.read_digits (digits_text ds ++ rest) acc cnt =
  (fold_left (fun a d => 10 * a + d) ds acc, (cnt + List.length ds)%nat, rest).
Proof.
  intros Hd Hrest. revert acc cnt.
  induction Hd as [|d ds Hd _ IH]; intros acc cnt; cbn [digits_text append fold_left List.length].
  - rewrite Nat.add_0_r. destruct rest as [|c r]; cbn [JS.read_digits]; [reflexivity|].
    now rewrite Hrest.
  - cbn [JS.read_digits]. rewrite (digit_of_char d Hd), IH. f_equal. f_equal. lia.
Qed.

Lemma fold_digits_from (ds : list Z) (acc : Z) :
  fold_left (fun a d => 10 * a + d) ds acc =
  acc * 10 ^ Z.of_nat (List.length ds) + digits_value ds.
Proof.
  unfold digits_value. revert acc.
  induction ds as [|d ds IH]; intro acc; cbn [fold_left List.length].
  - cbn. lia.
  - rewrite (IH (10 * acc + d)), (IH (10 * 0 + d)).
    rewrite Nat2Z.inj_succ, Z.pow_succ_r by lia. ring.
Qed.

Lemma digits_value_app (ip fp : list Z) :
  digits_value (ip ++ fp) =
  digits_value ip * 10 ^ Z.of_nat (List.length fp) + digits_value fp.
Proof.
  unfold digits_value at 1. rewrite fold_left_app. fold (digits_value ip).
  apply fold_digits_from.
Qed.

Lemma read_sign_other (c : ascii) (s : string) :
  c <> "-"%char -> c <> "+"%char ->
  JS.read_sign (String c s) = (false, String c s).
Proof.
  intros H1 H2.
  destruct c as [[] [] [] [] [] [] [] []]; try reflexivity; congruence.
Qed.

Lemma skip_space_plain (a : ascii) (s : string) :
  (N_of_ascii a < 128)%N -> JS.is_space a = false ->
  JS.skip_space (String a s) = String a s.
Proof.
  intros Ha Hs. cbn [JS.skip_space]. rewrite Hs.
  destruct s as [|b s2]; [reflexivity|].
  assert (H2 : JS.is_space2 a b = false).
  { unfold JS.is_space2. destruct (N.eqb_spec (N_of_ascii a) 194); [lia|reflexivity]. }
  rewrite H2. destruct s2 as [|c s3]; [reflexivity|].
  assert (H3 : JS.is_space3 a b c = false).
  { unfold JS.is_space3.
    destruct (N.eqb_spec (N_of_ascii a) 225); [lia|].
    destruct (N.eqb_spec (N_of_ascii a) 226); [lia|].
    destruct (N.eqb_spec (N_of_ascii a) 227); [lia|].
    destruct (N.eqb_spec (N_of_ascii a) 239); [lia|]. reflexivity. }
  now rewrite H3.
Qed.

(** The head of a decimal text without its sign: a digit or the point. *)
Lemma unsigned_head (ip fp : list Z) :
  Forall is_digit ip ->
  exists c s,
    (digits_text ip ++ "." ++ digits_text fp)%string = String c s /\
    (N_of_ascii c < 128)%N /\ JS.is_space c = false /\
    c <> "-"%char /\ c <> "+"%char /\ c <> "I"%char.
Proof.
  intro H. destruct H as [|d ds Hd _]; cbn [digits_text append].
  - eexists _, _. split; [reflexivity|]. repeat split; discriminate.
  - eexists _, _. split; [reflexivity|].
    each_digit Hd; repeat split; discriminate.
Qed.

Lemma append_empty (s : string) : (s ++ EmptyString)%string = s.
Proof. induction s as [|c s IH]; cbn [append]; [reflexivity|now rewrite IH]. Qed.

Lemma prefix_other (c : ascii) (s : string) :
  c <> "I"%char -> String.prefix "Infinity" (String c s) = false.
Proof.
  intro H. cbn [String.prefix].
  destruct (ascii_dec "I" c) as [E|_]; [congruence|reflexivity].
Qed.

(** parseFloat on the decimal text of a number reads that number: its
    nearest double, or an infinity when it is beyond the doubles. *)
Lemma read_decimal_text (negative : bool) (ip fp : list Z) :
  Forall is_digit ip -> Forall is_digit fp -> ip <> [] \/ fp <> [] ->
  JS.read_string (decimal_text negative ip fp) =
  match JS.nearest_double (decimal_value ip fp) with
  | Some d => JS.Finite (JS.Num (if negative then Qopp d else d))
  | None => JS.Infinite negative
  end.
Proof.
  intros Hip Hfp Hne.
  destruct (unsigned_head ip fp Hip) as (c & s & Hs & Hc & Hsp & Hm & Hp & Hi).
  assert (Hskip : JS.read_sign (JS.skip_space (decimal_text negative ip fp)) =
                  (negative, (digits_text ip ++ "." ++ digits_text fp)%string)).
  { unfold decimal_text. cbv zeta. destruct negative.
    - rewrite skip_space_plain; reflexivity.
    - rewrite Hs, skip_space_plain by assumption.
      now apply read_sign_other. }
  unfold JS.read_string. rewrite Hskip. cbv beta iota.
  rewrite Hs at 1. rewrite (prefix_other c s Hi).
  rewrite (read_digits_text ip ("." ++ digits_text fp) 0 0 Hip) by reflexivity.
  cbn [append]. cbn [Nat.add].
  pose proof (read_digits_text fp EmptyString 0 0 Hfp I) as Hf.
  rewrite append_empty in Hf. rewrite Hf. cbn [Nat.add].
  fold (digits_value ip). fold (digits_value fp).
  destruct (List.length ip + List.length fp)%nat eqn:En.
  { destruct Hne as [H|H]; [destruct ip|destruct fp]; cbn [List.length] in En; try congruence; lia. }
  cbn [JS.read_exponent]. unfold decimal_value.
  rewrite digits_value_app. rewrite Z.sub_0_l. reflexivity.
Qed.

(** ** The event normalizer (parseCotEvent) *)

(** What the spec asks of a canonical report: id, kind and observation
    time present, latitude within [-90, 90], longitude within
    [-180, 180]. *)
Definition within (lo hi : Q) (n : JS.number) : bool :=
  match n with
  | JS.Num q => Qle_bool lo q && Qle_bool q hi
  | JS.NaN => false
  end.

Definition canonical (e : Client.CotEvent) : bool :=
  match Client.uid e, Client.type e, Client.time e with
  | Some _, Some _, Some _ =>
      within (-90) 90 (Client.lat (Client.point e)) &&
      within (-180) 180 (Client.lon (Client.point e))
  | _, _, _ => false
  end.

(** A decoded event with no uid, no type and no time, at latitude 95 and
    longitude 200. *)
Definition rawInvalid : Client.RawEvent :=
  {| Client.raw_uid := None;
     Client.raw_type := None;
     Client.raw_time := None;
     Client.raw_start := None;
     Client.raw_stale := None;
     Client.raw_how := None;
     Client.raw_point :=
       Some {| Client.raw_lat := JS.VNum (JS.Num 95);
               Client.raw_lon := JS.VStr "200";
               Client.raw_hae := JS.Undefined;
               Client.raw_ce := JS.Undefined;
               Client.raw_le := JS.Undefined |};
     Client.raw_detail := None |}.


(** What the point of the event has to do with what the code computes:
    the same number wherever the code computes a number. *)
Definition in_model (x : JS.parsed) (n : JS.number) : Prop :=
  match x with
  | JS.Finite m => n = m
  | JS.Infinite _ => True
  end.

Lemma parseFloat_in_model (v : JS.value) : in_model (JS.read v) (JS.parseFloat v).
Proof. unfold in_model, JS.parseFloat. now destruct (JS.read v). Qed.

Lemma or_unknown_in_model (v : JS.value) :
  in_model (Client.or_unknown (JS.read v))
           (JS.or_else (JS.parseFloat v) Client.UNKNOWN).
Proof. unfold in_model, JS.parseFloat. now destruct (JS.read v). Qed.


(** Any pair of finite numbers, in range or not, comes out of the parser
    as the coordinates of a successful result. *)
Corollary parseCotEvent_accepts_any_coordinates (x y : Q) (eventData : Client.RawEvent) :
  exists e,
    Client.parseCotEvent
      {| Client.raw_uid := Client.raw_uid eventData;
         Client.raw_type := Client.raw_type eventData;
         Client.raw_time := Client.raw_time eventData;
         Client.raw_start := Client.raw_start eventData;
         Client.raw_stale := Client.raw_stale eventData;
         Client.raw_how := Client.raw_how eventData;
         Client.raw_point :=
           Some {| Client.raw_lat := JS.VNum (JS.Num x);
                   Client.raw_lon := JS.VNum (JS.Num y);
                   Client.raw_hae := JS.Undefined;
                   Client.raw_ce := JS.Undefined;
                   Client.raw_le := JS.Undefined |};
         Client.raw_detail := Client.raw_detail eventData |} = Client.Ok e /\
    Client.lat (Client.point e) = JS.Num x /\
    Client.lon (Client.point e) = JS.Num y.
Proof.
  eexists. split; [reflexivity|]. split; reflexivity.
Qed.

(** ** Unknown altitude and accuracy *)

(** How the parser treats an attribute [v] of the point, [x] being what
    the code computes for the field: where [parseFloat] reads NaN (the
    attribute is absent or not numeric) the field is the sentinel; a
    number other than zero is kept, and so is an infinity.  Nothing is
    said here about zero. *)
Definition normalized (v : JS.value) (x : JS.parsed) : Prop :=
  match JS.read v with
  | JS.Finite JS.NaN => x = JS.Finite Client.UNKNOWN
  | JS.Finite (JS.Num q) => Qeq q 0 \/ x = JS.Finite (JS.Num q)
  | JS.Infinite negative => x = JS.Infinite negative
  end.

Lemma or_unknown_normalized (v : JS.value) :
  normalized v (Client.or_unknown (JS.read v)).
Proof.
  unfold normalized, Client.or_unknown, JS.or_else.
  destruct (JS.read v) as [[|q]|negative]; simpl; try reflexivity.
  destruct (Qeq_bool q 0) eqn:E; simpl.
  - left. now apply Qeq_bool_iff.
  - now right.
Qed.

(** The text of a decimal whose nearest double is not zero is kept as
    that double. *)
Lemma or_unknown_decimal (negative : bool) (ip fp : list Z) (d : Q) :
  Forall is_digit ip -> Forall is_digit fp -> ip <> [] \/ fp <> [] ->
  JS.nearest_double (decimal_value ip fp) = Some d -> ~ Qeq d 0 ->
  Client.or_unknown (JS.read (JS.VStr (decimal_text negative ip fp))) =
  JS.Finite (JS.Num (if negative then Qopp d else d)).
Proof.
  intros Hip Hfp Hne Hd Hd0. cbn [JS.read].
  rewrite (read_decimal_text negative ip fp Hip Hfp Hne), Hd.
  unfold Client.or_unknown, JS.or_else, JS.truthy.
  assert (E : Qeq_bool (if negative then Qopp d else d) 0 = false).
  { destruct (Qeq_bool _ 0) eqn:E; [|reflexivity].
    apply Qeq_bool_iff in E. exfalso. apply Hd0.
    destruct negative; [|exact E].
    rewrite <- (Qopp_involutive d), E. reflexivity. }
  now rewrite E.
Qed.

(** A decoded event that carries a position and neither height nor
    errors. *)
Definition rawNoAccuracy : Client.RawEvent :=
  {| Client.raw_uid := Some "UNIT-1"%string;
     Client.raw_type := Some "a-f-G-U-C"%string;
     Client.raw_time := Some 1000;
     Client.raw_start := Some 1000;
     Client.raw_stale := Some 61000;
     Client.raw_how := Some "m-g"%string;
     Client.raw_point :=
       Some {| Client.raw_lat := JS.VNum (JS.Num 10);
               Client.raw_lon := JS.VNum (JS.Num 20);
               Client.raw_hae := JS.Undefined;
               Client.raw_ce := JS.Undefined;
               Client.raw_le := JS.Undefined |};
     Client.raw_detail := None |}.


(** A height of zero, which is a height, is turned into the sentinel and
    then into an absent altitude. *)
Lemma zero_height_becomes_unknown (eventData : Client.RawEvent)
    (p : Client.RawPoint) (q : Q) :
  Client.raw_point eventData = Some p ->
  JS.parseFloat (Client.raw_hae p) = JS.Num q -> Qeq q 0 ->
  exists e,
    Client.parseCotEvent eventData = Client.Ok e /\
    Client.hae (Client.point e) = Client.UNKNOWN /\
    forall now, Client.loc_alt (Client.location (Client.toEntity now e)) = None.
Proof.
  intros Hp Hh Hq. unfold Client.parseCotEvent. rewrite Hp.
  eexists. split; [reflexivity|].
  cbn [Client.point Client.hae]. rewrite Hh. unfold JS.or_else, JS.truthy.
  apply Qeq_bool_iff in Hq. rewrite Hq. split; reflexivity.
Qed.

(** A unit at sea level on the ellipsoid, its height sent as the text
    0.0. *)
Definition rawSeaLevel : Client.RawEvent :=
  {| Client.raw_uid := Some "UNIT-1"%string;
     Client.raw_type := Some "a-f-G-U-C"%string;
     Client.raw_time := Some 1000;
     Client.raw_start := Some 1000;
     Client.raw_stale := Some 61000;
     Client.raw_how := Some "m-g"%string;
     Client.raw_point :=
       Some {| Client.raw_lat := JS.VNum (JS.Num 10);
               Client.raw_lon := JS.VNum (JS.Num 20);
               Client.raw_hae := JS.VStr "0.0";
               Client.raw_ce := JS.VNum (JS.Num 10);
               Client.raw_le := JS.VNum (JS.Num 10) |};
     Client.raw_detail := None |}.

Lemma zero_height_becomes_unknown_witness :
  exists e,
    Client.parseCotEvent rawSeaLevel = Client.Ok e /\
    Client.hae (Client.point e) = Client.UNKNOWN /\
    forall now, Client.loc_alt (Client.location (Client.toEntity now e)) = None.
Proof.
  eapply (zero_height_becomes_unknown rawSeaLevel); reflexivity.
Defined.


(** ** The stable sort *)

Lemma firstn_In {A : Type} (n : nat) (l : list A) (x : A) : In x (firstn n l) -> In x l.
Proof.
  revert n. induction l as [|y l IH]; intros [|n]; simpl; try tauto.
  intros [->|H]; [now left|right; exact (IH n H)].
Qed.

Section SortFacts.
Context {A : Type} (key : A -> Z).

Lemma insert_perm (x : A) (l : list A) : Permutation (JS.insert key x l) (x :: l).
Proof.
  induction l as [|y l IH]; simpl; [reflexivity|].
  destruct (key x <=? key y); [reflexivity|].
  rewrite IH. apply perm_swap.
Qed.

Lemma sort_by_perm (l : list A) : Permutation (JS.sort_by key l) l.
Proof.
  induction l as [|x l IH]; simpl; [reflexivity|].
  rewrite insert_perm. now constructor.
Qed.

Definition by_key (a b : A) : Prop := key a <= key b.

Lemma insert_sorted (x : A) (l : list A) :
  StronglySorted by_key l -> StronglySorted by_key (JS.insert key x l).
Proof.
  induction 1 as [|y l Hs IH Hy]; simpl.
  - repeat constructor.
  - destruct (Z.leb_spec (key x) (key y)) as [Hle|Hgt].
    + constructor; [now constructor|].
      constructor; [exact Hle|].
      rewrite Forall_forall in *. intros z Hz. specialize (Hy z Hz).
      unfold by_key in *. lia.
    + constructor; [exact IH|].
      rewrite Forall_forall in *. intros z Hz.
      apply (Permutation_in z (insert_perm x l)) in Hz.
      destruct Hz as [<-|Hz]; [unfold by_key; lia|now apply Hy].
Qed.

Lemma sort_by_sorted (l : list A) : StronglySorted by_key (JS.sort_by key l).
Proof.
  induction l as [|x l IH]; simpl; [constructor|now apply insert_sorted].
Qed.

(** Stability: the elements of any one key come out in the order they
    went in. *)
Lemma insert_stable (k : Z) (x : A) (l : list A) :
  filter (fun a => key a =? k) (JS.insert key x l) =
  filter (fun a => key a =? k) (x :: l).
Proof.
  induction l as [|y l IH]; [reflexivity|].
  cbn [JS.insert]. destruct (Z.leb_spec (key x) (key y)) as [Hle|Hgt];
    [reflexivity|].
  cbn [filter] in *. rewrite IH.
  destruct (Z.eqb_spec (key x) k), (Z.eqb_spec (key y) k); try reflexivity.
  lia.
Qed.

Lemma sort_by_stable (k : Z) (l : list A) :
  filter (fun a => key a =? k) (JS.sort_by key l) =
  filter (fun a => key a =? k) l.
Proof.
  induction l as [|x l IH]; [reflexivity|].
  cbn [JS.sort_by]. rewrite insert_stable. cbn [filter]. now rewrite IH.
Qed.

Lemma sorted_app_le (l1 l2 : list A) :
  StronglySorted by_key (l1 ++ l2) ->
  forall x y, In x l1 -> In y l2 -> key x <= key y.
Proof.
  induction l1 as [|a l1 IH]; cbn [app]; intros H x y Hx Hy; [destruct Hx|].
  inversion H as [|? ? Hs Ha]; subst.
  destruct Hx as [<-|Hx]; [|now apply IH].
  rewrite Forall_forall in Ha. apply Ha, in_or_app. now right.
Qed.

Lemma sorted_firstn (n : nat) (l : list A) :
  StronglySorted by_key l -> StronglySorted by_key (firstn n l).
Proof.
  intro H. revert n. induction H as [|y l Hs IH Hy]; intros [|n]; simpl;
    try constructor; [apply IH|].
  rewrite Forall_forall in *. intros z Hz. apply Hy.
  exact (firstn_In _ _ _ Hz).
Qed.

End SortFacts.

(** ** Nearest-neighbour queries (tak_find_nearest) *)

Lemma map_result_Forall2 {A B : Type} (f : A -> Client.result B)
    (l : list A) (ys : list B) :
  FindNearest.map_result f l = Client.Ok ys ->
  Forall2 (fun x y => f x = Client.Ok y) l ys.
Proof.
  revert ys. induction l as [|x l IH]; simpl; intros ys H.
  - injection H as <-. constructor.
  - destruct (f x) as [y|m] eqn:Ex; [|discriminate].
    destruct (FindNearest.map_result f l) as [ys'|m]; [|discriminate].
    injection H as <-. constructor; [exact Ex|now apply IH].
Qed.

Lemma slice0_firstn {A : Type} (l : list A) (k : Z) :
  exists n, JS.slice0 l k = firstn n l /\ (0 <= k -> n = Z.to_nat k).
Proof.
  unfold JS.slice0. destruct (Z.ltb_spec k 0).
  - eexists. split; [reflexivity|lia].
  - eexists. split; [reflexivity|reflexivity].
Qed.

Lemma filter_filter {A : Type} (p q : A -> bool) (l : list A) :
  filter p (filter q l) = filter (fun x => p x && q x) l.
Proof.
  induction l as [|x l IH]; simpl; [reflexivity|].
  destruct (q x); simpl; rewrite ?andb_true_r, ?andb_false_r;
    [destruct (p x)|]; now rewrite IH.
Qed.

Lemma filter_none {A : Type} (p : A -> bool) (l : list A) :
  (forall x, In x l -> p x = false) -> filter p l = [].
Proof.
  induction l as [|x l IH]; simpl; intro H; [reflexivity|].
  rewrite (H x (or_introl eq_refl)). apply IH. intros y Hy. apply H. now right.
Qed.

(** The entities tied at distance [d] that pass the cut-off are all of
    them or none of them. *)
Lemma withinMax_ties (params : FindNearest.Params) (items : list FindNearest.Nearest)
    (d : Z) :
  let tied := filter (fun r => FindNearest.distance r =? d) in
  tied (FindNearest.withinMax params items) = tied items \/
  tied (FindNearest.withinMax params items) = [].
Proof.
  unfold FindNearest.withinMax. cbv zeta.
  destruct (FindNearest.maxDistance params) as [m|]; [|now left].
  destruct (Qeq_bool m 0); [now left|].
  rewrite filter_filter.
  destruct (Qle_bool (inject_Z d) m) eqn:E; [left|right].
  - apply filter_ext_in. intros x _.
    destruct (Z.eqb_spec (FindNearest.distance x) d) as [->|]; [|reflexivity].
    now rewrite E.
  - apply filter_none. intros x _.
    destruct (Z.eqb_spec (FindNearest.distance x) d) as [->|]; [|reflexivity].
    now rewrite E.
Qed.

Lemma withinMax_incl (params : FindNearest.Params) (items : list FindNearest.Nearest) :
  incl (FindNearest.withinMax params items) items.
Proof.
  unfold FindNearest.withinMax.
  destruct (FindNearest.maxDistance params) as [m|]; [|apply incl_refl].
  destruct (Qeq_bool m 0); [apply incl_refl|].
  intros x Hx. now apply filter_In in Hx.
Qed.

Lemma slice0_split {A : Type} (l : list A) (k : Z) :
  exists rest,
    JS.slice0 l k ++ rest = l /\
    (0 <= k -> List.length (JS.slice0 l k) = Nat.min (Z.to_nat k) (List.length l)) /\
    (k < 0 ->
     List.length (JS.slice0 l k) = Z.to_nat (Z.max (Z.of_nat (List.length l) + k) 0)).
Proof.
  unfold JS.slice0. destruct (Z.ltb_spec k 0).
  - eexists. split; [apply firstn_skipn|]. split; [lia|].
    intros _. rewrite length_firstn. lia.
  - eexists. split; [apply firstn_skipn|]. split; [|lia].
    intros _. apply length_firstn.
Qed.

(** The cut-off is a filter on the rounded distance. *)
Lemma withinMax_filter (params : FindNearest.Params) (items : list FindNearest.Nearest) :
  FindNearest.withinMax params items =
  filter (fun r =>
            match FindNearest.maxDistance params with
            | Some m => Qeq_bool m 0 || Qle_bool (inject_Z (FindNearest.distance r)) m
            | None => true
            end) items.
Proof.
  unfold FindNearest.withinMax.
  destruct (FindNearest.maxDistance params) as [m|].
  - destruct (Qeq_bool m 0); cbn [orb]; [|reflexivity].
    symmetry. apply forallb_filter_id. now apply forallb_forall.
  - symmetry. apply forallb_filter_id. now apply forallb_forall.
Qed.

(** Lines 143-151 select: of the entities that pass the cut-off the
    results are the first [limit] in ascending order of distance, equal
    distances in the order of the list. *)
Lemma nearestOf_selects (params : FindNearest.Params)
    (items : list FindNearest.Nearest) :
  let eligible := FindNearest.withinMax params items in
  let results := FindNearest.nearestOf params items in
  exists rest,
    Permutation eligible (results ++ rest) /\
    StronglySorted (by_key FindNearest.distance) (results ++ rest) /\
    (forall d,
       filter (fun r => FindNearest.distance r =? d) eligible =
       filter (fun r => FindNearest.distance r =? d) results ++
       filter (fun r => FindNearest.distance r =? d) rest) /\
    (0 <= FindNearest.limit params ->
     List.length results =
     Nat.min (Z.to_nat (FindNearest.limit params)) (List.length eligible)) /\
    (FindNearest.limit params < 0 ->
     List.length results =
     Z.to_nat (Z.max (Z.of_nat (List.length eligible) + FindNearest.limit params) 0)).
Proof.
  cbv zeta. unfold FindNearest.nearestOf.
  set (cut := FindNearest.withinMax params items).
  set (sorted := JS.sort_by FindNearest.distance cut).
  assert (Hlen : List.length sorted = List.length cut)
    by apply Permutation_length, sort_by_perm.
  destruct (slice0_split sorted (FindNearest.limit params)) as (rest & E & H0 & H1).
  exists rest. rewrite E, <- Hlen.
  split; [symmetry; apply sort_by_perm|].
  split; [apply sort_by_sorted|].
  split; [|split; assumption].
  intro d. rewrite <- filter_app, E. symmetry. apply sort_by_stable.
Qed.

(** What lines 143-151 make of the entities with their distances. *)
Lemma nearestOf_properties (params : FindNearest.Params)
    (items : list FindNearest.Nearest) :
  StronglySorted (by_key FindNearest.distance) (FindNearest.nearestOf params items) /\
  (0 <= FindNearest.limit params ->
   (List.length (FindNearest.nearestOf params items)
    <= Z.to_nat (FindNearest.limit params))%nat) /\
  (forall m, FindNearest.maxDistance params = Some m -> ~ Qeq m 0 ->
     Forall (fun r => Qle (inject_Z (FindNearest.distance r)) m)
            (FindNearest.nearestOf params items)) /\
  incl (FindNearest.nearestOf params items) items /\
  (forall d, exists rest,
     filter (fun r => FindNearest.distance r =? d) items =
     filter (fun r => FindNearest.distance r =? d) (FindNearest.nearestOf params items)
     ++ rest).
Proof.
  unfold FindNearest.nearestOf.
  set (cut := FindNearest.withinMax params items).
  set (sorted := JS.sort_by FindNearest.distance cut).
  destruct (slice0_firstn sorted (FindNearest.limit params)) as (n & -> & Hn).
  assert (Hincl : incl (firstn n sorted) items).
  { intros x Hx. apply firstn_In in Hx.
    apply (Permutation_in x (sort_by_perm FindNearest.distance cut)) in Hx.
    exact (withinMax_incl params items x Hx). }
  split; [apply sorted_firstn, sort_by_sorted|].
  split; [intro H; rewrite (Hn H); apply firstn_le_length|].
  split; [|split; [exact Hincl|]].
  - intros m Hm Hm0. apply Forall_forall. intros x Hx.
    apply firstn_In in Hx.
    apply (Permutation_in x (sort_by_perm FindNearest.distance cut)) in Hx.
    unfold cut, FindNearest.withinMax in Hx. rewrite Hm in Hx.
    destruct (Qeq_bool m 0) eqn:E; [apply Qeq_bool_iff in E; contradiction|].
    apply filter_In in Hx. now apply Qle_bool_iff.
  - intro d.
    assert (Hsplit : filter (fun r => FindNearest.distance r =? d) cut =
              filter (fun r => FindNearest.distance r =? d) (firstn n sorted) ++
              filter (fun r => FindNearest.distance r =? d) (skipn n sorted)).
    { rewrite <- filter_app, firstn_skipn. symmetry. apply sort_by_stable. }
    destruct (withinMax_ties params items d) as [H|H]; fold cut in H.
    + eexists. rewrite <- H. exact Hsplit.
    + rewrite H in Hsplit. symmetry in Hsplit.
      apply app_eq_nil in Hsplit. destruct Hsplit as [-> _].
      eexists. reflexivity.
Qed.

(** Two entities on the equator, one degree east and one degree west of
    the origin; the store lists B before A. *)
Definition eventAt (id : string) (latitude longitude : Q) : Client.CotEvent :=
  {| Client.uid := Some id;
     Client.type := Some "a-f-G-U-C"%string;
     Client.time := Some 1000;
     Client.start := Some 1000;
     Client.stale := Some 61000;
     Client.how := Some "m-g"%string;
     Client.point := {| Client.lat := JS.Num latitude;
                        Client.lon := JS.Num longitude;
                        Client.hae := JS.Num 5; Client.ce := JS.Num 9;
                        Client.le := JS.Num 9 |};
     Client.detail := None |}.

Definition entityB : Client.TAKEntity := Client.toEntity 1000 (eventAt "B" 0 1).
Definition entityA : Client.TAKEntity := Client.toEntity 1000 (eventAt "A" 0 (-1)).

Definition fromOrigin (k : option Z) (m : option Q) : FindNearest.Params :=
  {| FindNearest.point_entityId := None;
     FindNearest.point_coordinates := Some (0, 0)%Q;
     FindNearest.maxDistance := m;
     FindNearest.maxResults := k;
     FindNearest.entityTypes := None;
     FindNearest.excludeStale := None;
     FindNearest.includeDetails := None |}.



(** *** Rounding *)

Lemma Math_round_bounds (d : Q) :
  (inject_Z (JS.Math_round d) - (1 # 2) <= d /\
   d < inject_Z (JS.Math_round d) + (1 # 2))%Q.
Proof.
  unfold JS.Math_round.
  pose proof (Qfloor_le (d + (1 # 2))) as Hlo.
  pose proof (Qlt_floor (d + (1 # 2))) as Hhi.
  rewrite inject_Z_plus in Hhi. change (inject_Z 1) with 1%Q in Hhi.
  split; Lqa.lra.
Qed.

(** Just above an integer cut-off the rounded distance still passes. *)
Lemma Math_round_below_half (M : Z) (d : Q) :
  (d < inject_Z M + (1 # 2))%Q -> JS.Math_round d <= M.
Proof.
  intro H. destruct (Math_round_bounds d) as [Hlo _].
  assert (Hlt : (inject_Z (JS.Math_round d) < inject_Z (M + 1))%Q).
  { rewrite inject_Z_plus. change (inject_Z 1) with 1%Q. Lqa.lra. }
  rewrite <- Zlt_Qlt in Hlt. lia.
Qed.

(** Distances that round to the same integer are less than a meter
    apart. *)
Lemma Math_round_eq_close (d1 d2 : Q) :
  JS.Math_round d1 = JS.Math_round d2 -> (Qabs (d1 - d2) < 1)%Q.
Proof.
  intro H. destruct (Math_round_bounds d1) as [L1 U1].
  destruct (Math_round_bounds d2) as [L2 U2]. rewrite H in *.
  apply Qabs_Qlt_condition. split; Lqa.lra.
Qed.

Lemma Math_round_unique (n : Z) (d : Q) :
  (inject_Z n - (1 # 2) <= d)%Q -> (d < inject_Z n + (1 # 2))%Q ->
  JS.Math_round d = n.
Proof.
  intros Hlo Hhi. destruct (Math_round_bounds d) as [L U].
  assert (H1 : (inject_Z (JS.Math_round d) < inject_Z (n + 1))%Q).
  { rewrite inject_Z_plus. change (inject_Z 1) with 1%Q. Lqa.lra. }
  assert (H2 : (inject_Z n < inject_Z (JS.Math_round d + 1))%Q).
  { rewrite inject_Z_plus. change (inject_Z 1) with 1%Q. Lqa.lra. }
  rewrite <- Zlt_Qlt in H1, H2. lia.
Qed.

(** One full turn taken off a bearing between 0 and 360 that has had 360
    added to it. *)
Lemma rem_one_turn (b : Q) :
  (0 <= b)%Q -> (b < 360)%Q -> (JS.rem (b + 360) 360 == b)%Q.
Proof.
  intros H0 H1. unfold JS.rem, JS.trunc.
  assert (Hq : (0 <= (b + 360) / 360)%Q).
  { apply Qle_shift_div_l; Lqa.lra. }
  apply Qle_bool_iff in Hq. rewrite Hq.
  assert (Hf : Qfloor ((b + 360) / 360) = 1).
  { pose proof (Qfloor_le ((b + 360) / 360)) as L.
    pose proof (Qlt_floor ((b + 360) / 360)) as U.
    rewrite inject_Z_plus in U. change (inject_Z 1) with 1%Q in U.
    assert (B0 : (0 <= b / 360)%Q) by (apply Qle_shift_div_l; Lqa.lra).
    assert (B1 : (b / 360 < 1)%Q) by (apply Qlt_shift_div_r; Lqa.lra).
    assert (E : ((b + 360) / 360 == b / 360 + 1)%Q) by field.
    set (x := ((b + 360) / 360)%Q) in *. set (y := (b / 360)%Q) in *.
    assert (F1 : (inject_Z (Qfloor x) < inject_Z 2)%Q)
      by (change (inject_Z 2) with 2%Q; Lqa.lra).
    assert (F0 : (inject_Z 0 < inject_Z (Qfloor x))%Q)
      by (change (inject_Z 0) with 0%Q; Lqa.lra).
    rewrite <- Zlt_Qlt in F0, F1. lia. }
  rewrite Hf. change (inject_Z 1) with 1%Q. ring.
Qed.

(** An entity a degree north and a fifth of a degree east of the origin,
    whose bearing from the origin is some 11.3 degrees, and one on the
    equator some 100.6 m east of it. *)
Definition entityNNE : Client.TAKEntity :=
  Client.toEntity 1000 (eventAt "N" 1 (2 # 10)).
Definition entityEast : Client.TAKEntity :=
  Client.toEntity 1000 (eventAt "E" 0 (905 # 1000000)).

(** C10, as stated, fails twice.  The compass direction is computed from
    the bearing before rounding: an entity at a bearing between 11.25 and
    11.5 degrees is shown with the bearing 11 and the direction NNE, while
    11 itself lies in N.  And a cut-off that is not an integer excludes an
    entity that exceeds it by less than half a meter: with maxDistance
    100.3 an entity between 100.5 m and 100.8 m away is left out. *)
Lemma rounding_is_not_before_every_use :
  (forall dist brg,
     (45 # 4 < brg (0, 0) (2 # 10, 1))%Q -> (brg (0, 0) (2 # 10, 1) < 23 # 2)%Q ->
     exists item,
       FindNearest.withDistance dist brg (fromOrigin None None) (0, 0)%Q entityNNE
         = Client.Ok item /\
       FindNearest.bearing item = 11 /\
       FindNearest.compassDirection item = Some "NNE"%string /\
       FindNearest.getCompassDirection (inject_Z (FindNearest.bearing item))
         = Some "N"%string) /\
  (forall dist brg tm,
     (1005 # 10 <= dist (0, 0) (905 # 1000000, 0))%Q ->
     (dist (0, 0) (905 # 1000000, 0) < 1008 # 10)%Q ->
     (dist (0, 0) (905 # 1000000, 0) - (1003 # 10) < 1 # 2)%Q /\
     FindNearest.handler dist brg tm 1000 (fromOrigin None (Some (1003 # 10)%Q))
       [entityEast] = Client.Ok []).
Proof.
  split.
  - intros dist brg Hlo Hhi. eexists. split; [reflexivity|].
    cbn [FindNearest.bearing FindNearest.compassDirection].
    cbv [FindNearest.turf_point Client.location Client.loc_lon Client.loc_lat
         entityNNE Client.toEntity eventAt Client.point Client.lon Client.lat].
    set (b := brg (0, 0)%Q (2 # 10, 1)%Q) in *.
    assert (Hr : JS.Math_round b = 11)
      by (apply Math_round_unique; change (inject_Z 11) with 11%Q; Lqa.lra).
    rewrite Hr. split; [reflexivity|]. split; [|reflexivity].
    unfold FindNearest.getCompassDirection.
    assert (Hi : JS.Math_round (JS.rem (b + 360) 360 / (45 # 2)) = 1).
    { apply Math_round_unique; change (inject_Z 1) with 1%Q;
        rewrite rem_one_turn by Lqa.lra.
      - apply Qle_shift_div_l; Lqa.lra.
      - apply Qlt_shift_div_r; Lqa.lra. }
    rewrite Hi. reflexivity.
  - intros dist brg tm Hlo Hhi. split; [Lqa.lra|].
    cbv -[JS.Math_round FindNearest.getCompassDirection FindNearest.nearestOf].
    set (d := dist (0, 0)%Q (905 # 1000000, 0)%Q) in *.
    unfold FindNearest.nearestOf, FindNearest.withinMax.
    cbn [FindNearest.maxDistance filter FindNearest.distance].
    assert (Hr : JS.Math_round d = 101)
      by (apply Math_round_unique; change (inject_Z 101) with 101%Q; Lqa.lra).
    rewrite Hr. reflexivity.
Qed.

(** Two entities whose distances round to the same integer come out in
    the order they went in, when they come out. *)
Lemma nearestOf_tied (params : FindNearest.Params) (x y : FindNearest.Nearest) :
  FindNearest.distance x = FindNearest.distance y ->
  FindNearest.nearestOf params [x; y] =
  JS.slice0 (FindNearest.withinMax params [x; y]) (FindNearest.limit params).
Proof.
  intro Hd. unfold FindNearest.nearestOf. f_equal.
  rewrite withinMax_filter. cbn [filter]. rewrite Hd.
  destruct (match FindNearest.maxDistance params with
            | Some m => _
            | None => true
            end); [|reflexivity].
  cbn [JS.sort_by JS.insert]. now rewrite Hd, Z.leb_refl.
Qed.

(** An entity on the equator some 101.2 m east of the origin, a little
    farther than [entityEast]. *)
Definition entityFarther : Client.TAKEntity :=
  Client.toEntity 1000 (eventAt "F" 0 (910 # 1000000)).

(** C10, amended.  In every nearest-neighbour query the distance of an
    entity is rounded to the nearest integer before any further use and
    its bearing is reported rounded, the compass direction being taken
    from the bearing as computed; the cut-off (when maxDistance is not
    zero) and the ascending sort work on the rounded distance: the results
    ascend in it, and entities whose distances round to the same integer
    keep the order of the store whatever their exact distances; so an
    entity whose exact distance exceeds an integer maxDistance by less
    than 0.5 m is still included, and entities compare as equal exactly
    when their distances round to the same integer, which only distances
    less than a meter apart do: of two entities some 101.2 m and 100.6 m
    away, listed in this order, the farther comes first. *)
Theorem nearest_works_on_rounded_distance
    (dist brg : FindNearest.position -> FindNearest.position -> Q)
    (params : FindNearest.Params) (ref : FindNearest.position)
    (e : Client.TAKEntity) :
  match FindNearest.withDistance dist brg params ref e with
  | Client.Throw _ => True
  | Client.Ok item =>
      exists entityPoint,
        FindNearest.turf_point (Client.loc_lon (Client.location e))
                               (Client.loc_lat (Client.location e))
          = Client.Ok entityPoint /\
        FindNearest.distance item = JS.Math_round (dist ref entityPoint) /\
        FindNearest.bearing item = JS.Math_round (brg ref entityPoint) /\
        FindNearest.compassDirection item
          = FindNearest.getCompassDirection (brg ref entityPoint)
  end /\
  (forall items m item,
     FindNearest.maxDistance params = Some m -> ~ Qeq m 0 ->
     (In item (FindNearest.withinMax params items) <->
      In item items /\ Qle (inject_Z (FindNearest.distance item)) m)) /\
  (forall items,
     let results := FindNearest.nearestOf params items in
     StronglySorted (by_key FindNearest.distance) results /\
     exists rest,
       Permutation (FindNearest.withinMax params items) (results ++ rest) /\
       (forall r x, In r results -> In x rest ->
          FindNearest.distance r <= FindNearest.distance x) /\
       (forall d,
          filter (fun r => FindNearest.distance r =? d)
                 (FindNearest.withinMax params items) =
          filter (fun r => FindNearest.distance r =? d) results ++
          filter (fun r => FindNearest.distance r =? d) rest)) /\
  (forall items (M : Z) item d,
     FindNearest.maxDistance params = Some (inject_Z M) -> M <> 0 ->
     In item items ->
     FindNearest.distance item = JS.Math_round d ->
     (d < inject_Z M + (1 # 2))%Q ->
     In item (FindNearest.withinMax params items)) /\
  (forall e1 e2 it1 it2,
     FindNearest.withDistance dist brg params ref e1 = Client.Ok it1 ->
     FindNearest.withDistance dist brg params ref e2 = Client.Ok it2 ->
     exists p1 p2,
       FindNearest.turf_point (Client.loc_lon (Client.location e1))
                              (Client.loc_lat (Client.location e1)) = Client.Ok p1 /\
       FindNearest.turf_point (Client.loc_lon (Client.location e2))
                              (Client.loc_lat (Client.location e2)) = Client.Ok p2 /\
       (FindNearest.distance it1 = FindNearest.distance it2 <->
        JS.Math_round (dist ref p1) = JS.Math_round (dist ref p2)) /\
       (FindNearest.distance it1 = FindNearest.distance it2 ->
        (Qabs (dist ref p1 - dist ref p2) < 1)%Q /\
        FindNearest.nearestOf params [it1; it2] =
        JS.slice0 (FindNearest.withinMax params [it1; it2])
                  (FindNearest.limit params))) /\
  (forall distance bearing tm,
     (101 <= distance (0, 0) (910 # 1000000, 0))%Q ->
     (distance (0, 0) (910 # 1000000, 0) < 1014 # 10)%Q ->
     (1005 # 10 <= distance (0, 0) (905 # 1000000, 0))%Q ->
     (distance (0, 0) (905 # 1000000, 0) < 1008 # 10)%Q ->
     exists farther nearer,
       FindNearest.handler distance bearing tm 1000 (fromOrigin None None)
         [entityFarther; entityEast] = Client.Ok [farther; nearer] /\
       FindNearest.entity farther = FindNearest.Full entityFarther /\
       FindNearest.entity nearer = FindNearest.Full entityEast /\
       FindNearest.distance farther = 101 /\
       FindNearest.distance nearer = 101).
Proof.
  assert (Hcut : forall items m item,
            FindNearest.maxDistance params = Some m -> ~ Qeq m 0 ->
            (In item (FindNearest.withinMax params items) <->
             In item items /\ Qle (inject_Z (FindNearest.distance item)) m)).
  { intros items m item Hm Hm0. unfold FindNearest.withinMax. rewrite Hm.
    destruct (Qeq_bool m 0) eqn:E; [apply Qeq_bool_iff in E; contradiction|].
    rewrite filter_In, Qle_bool_iff. reflexivity. }
  split; [|split; [exact Hcut|split; [|split; [|split]]]].
  - unfold FindNearest.withDistance.
    destruct (FindNearest.turf_point _ _) as [p|]; [|exact I].
    exists p. repeat split.
  - intro items. cbv zeta. split; [apply nearestOf_properties|].
    destruct (nearestOf_selects params items) as (rest & Hp & Hs & Ht & _).
    exists rest. split; [exact Hp|]. split; [|exact Ht].
    intros r x. now apply (sorted_app_le FindNearest.distance).
  - intros items M item d Hm HM Hin Hd Hlt.
    apply (Hcut items (inject_Z M) item Hm).
    + intro H0. apply HM. unfold Qeq in H0. simpl in H0. lia.
    + split; [exact Hin|]. rewrite Hd, <- Zle_Qle.
      now apply Math_round_below_half.
  - intros e1 e2 it1 it2 H1 H2. unfold FindNearest.withDistance in H1, H2.
    destruct (FindNearest.turf_point _ _) as [p1|]; [|discriminate].
    destruct (FindNearest.turf_point _ _) as [p2|]; [|discriminate].
    injection H1 as <-. injection H2 as <-. exists p1, p2.
    split; [reflexivity|]. split; [reflexivity|].
    cbn [FindNearest.distance]. split; [reflexivity|].
    intro H. split; [now apply Math_round_eq_close|].
    now apply nearestOf_tied.
  - intros distance bearing tm F0 F1 N0 N1. eexists _, _.
    cbv -[JS.Math_round FindNearest.getCompassDirection FindNearest.nearestOf].
    set (f := distance (0, 0)%Q (910 # 1000000, 0)%Q) in *.
    set (n := distance (0, 0)%Q (905 # 1000000, 0)%Q) in *.
    assert (Hf : JS.Math_round f = 101)
      by (apply Math_round_unique; change (inject_Z 101) with 101%Q; Lqa.lra).
    assert (Hn : JS.Math_round n = 101)
      by (apply Math_round_unique; change (inject_Z 101) with 101%Q; Lqa.lra).
    unfold FindNearest.nearestOf, FindNearest.withinMax.
    cbn [FindNearest.maxDistance fromOrigin JS.sort_by JS.insert FindNearest.distance].
    rewrite Hf, Hn. cbn. repeat split.
Qed.

(** ** Geofence creation (tak_create_geofence) *)

Definition shapeParams (sh : CreateGeofence.Shape) : CreateGeofence.Params :=
  {| CreateGeofence.name := "Perimeter";
     CreateGeofence.shape := sh;
     CreateGeofence.triggers := None;
     CreateGeofence.monitorTypes := None;
     CreateGeofence.alertLevel := None;
     CreateGeofence.active := None |}.

Definition circleOf (r : option Q) : CreateGeofence.Shape :=
  {| CreateGeofence.shape_type := "circle";
     CreateGeofence.center := Some (0, 0)%Q;
     CreateGeofence.radius := r;
     CreateGeofence.vertices := None;
     CreateGeofence.width := None;
     CreateGeofence.height := None |}.

Definition rectangleOf (w h : option Q) : CreateGeofence.Shape :=
  {| CreateGeofence.shape_type := "rectangle";
     CreateGeofence.center := Some (0, 0)%Q;
     CreateGeofence.radius := None;
     CreateGeofence.vertices := None;
     CreateGeofence.width := w;
     CreateGeofence.height := h |}.

Definition polygonOf (vs : option (list (Q * Q))) : CreateGeofence.Shape :=
  {| CreateGeofence.shape_type := "polygon";
     CreateGeofence.center := None;
     CreateGeofence.radius := None;
     CreateGeofence.vertices := vs;
     CreateGeofence.width := None;
     CreateGeofence.height := None |}.

Definition created (r : CreateGeofence.Response) : bool :=
  match r with
  | CreateGeofence.Success _ _ _ => true
  | CreateGeofence.Failure _ _ _ => false
  end.

Section GeofenceCreation.
Variable turf_circle : CreateGeofence.position -> Q -> list CreateGeofence.position.
Variable turf_destination : CreateGeofence.position -> Q -> Q -> CreateGeofence.position.
Variable turf_centroid : list CreateGeofence.position -> CreateGeofence.position.
Variable geofenceId : string.

Local Abbreviation create := (CreateGeofence.handler turf_circle turf_destination
                                           turf_centroid geofenceId).

(** The switch, one shape type at a time. *)
Lemma makeGeometry_circle (sh : CreateGeofence.Shape) :
  CreateGeofence.shape_type sh = "circle"%string ->
  CreateGeofence.makeGeometry turf_circle turf_destination sh =
  match CreateGeofence.center sh, CreateGeofence.radius sh with
  | Some c, Some r =>
      if Qeq_bool r 0 then inr "Circle geofence requires center and radius"%string
      else inl (turf_circle (CreateGeofence.swap c) (r / 1000))
  | _, _ => inr "Circle geofence requires center and radius"%string
  end.
Proof.
  intro E. unfold CreateGeofence.makeGeometry. rewrite E. cbn [String.eqb Ascii.eqb Bool.eqb].
  destruct (CreateGeofence.center sh) as [c|]; [|reflexivity].
  destruct (CreateGeofence.radius sh) as [r|]; [|reflexivity].
  cbn [CreateGeofence.present]. now destruct (Qeq_bool r 0).
Qed.

Lemma makeGeometry_polygon (sh : CreateGeofence.Shape) :
  CreateGeofence.shape_type sh = "polygon"%string ->
  CreateGeofence.makeGeometry turf_circle turf_destination sh =
  match CreateGeofence.vertices sh with
  | Some vs =>
      if (List.length vs <? 3)%nat
      then inr "Polygon geofence requires at least 3 vertices"%string
      else inl (map CreateGeofence.swap vs ++ firstn 1 (map CreateGeofence.swap vs))
  | None => inr "Polygon geofence requires at least 3 vertices"%string
  end.
Proof.
  intro E. unfold CreateGeofence.makeGeometry. rewrite E. reflexivity.
Qed.

Lemma makeGeometry_rectangle (sh : CreateGeofence.Shape) :
  CreateGeofence.shape_type sh = "rectangle"%string ->
  match CreateGeofence.center sh, CreateGeofence.width sh, CreateGeofence.height sh with
  | Some _, Some w, Some h =>
      if Qeq_bool w 0 || Qeq_bool h 0
      then CreateGeofence.makeGeometry turf_circle turf_destination sh =
           inr "Rectangle geofence requires center, width, and height"%string
      else exists ring,
             CreateGeofence.makeGeometry turf_circle turf_destination sh = inl ring
  | _, _, _ =>
      CreateGeofence.makeGeometry turf_circle turf_destination sh =
      inr "Rectangle geofence requires center, width, and height"%string
  end.
Proof.
  intro E. unfold CreateGeofence.makeGeometry. rewrite E.
  cbn [String.eqb Ascii.eqb Bool.eqb].
  destruct (CreateGeofence.center sh) as [c|]; [|reflexivity].
  destruct (CreateGeofence.width sh) as [w|]; [|reflexivity].
  destruct (CreateGeofence.height sh) as [h|]; [|reflexivity].
  cbn [CreateGeofence.present].
  destruct (Qeq_bool w 0), (Qeq_bool h 0); cbn [negb andb orb];
    try reflexivity.
  eexists. reflexivity.
Qed.

Lemma makeGeometry_unknown (sh : CreateGeofence.Shape) :
  CreateGeofence.shape_type sh <> "circle"%string ->
  CreateGeofence.shape_type sh <> "polygon"%string ->
  CreateGeofence.shape_type sh <> "rectangle"%string ->
  CreateGeofence.makeGeometry turf_circle turf_destination sh =
  inr ("Unknown geofence shape: " ++ CreateGeofence.shape_type sh)%string.
Proof.
  intros Hc Hp Hr. unfold CreateGeofence.makeGeometry.
  apply String.eqb_neq in Hc, Hp, Hr. now rewrite Hc, Hp, Hr.
Qed.


(** C6 at its failing inputs: a circle of radius -5 m and rectangles with
    a negative width or height are not refused; the handler builds the
    geofence from them and answers with success.  Of all radii only zero
    is refused. *)
Theorem negative_extent_creates_geofence :
  (exists g,
     create (shapeParams (circleOf (Some (-5)%Q)))
       = CreateGeofence.Success g geofenceId (0, 0)%Q /\
     CreateGeofence.geometry g = turf_circle (0, 0)%Q (-5 / 1000)%Q) /\
  created (create (shapeParams (rectangleOf (Some (-20)%Q) (Some 10%Q)))) = true /\
  created (create (shapeParams (rectangleOf (Some 20%Q) (Some (-10)%Q)))) = true /\
  (forall r, created (create (shapeParams (circleOf (Some r))))
             = negb (Qeq_bool r 0)) /\
  (forall r, (r < 0)%Q ->
             created (create (shapeParams (circleOf (Some r)))) = true).
Proof.
  assert (Hc : forall r, created (create (shapeParams (circleOf (Some r))))
                         = negb (Qeq_bool r 0)).
  { intro r. unfold CreateGeofence.handler, CreateGeofence.makeGeometry. cbn.
    now destruct (Qeq_bool r 0). }
  split; [eexists; split; reflexivity|]. repeat split; [exact Hc|].
  intros r Hr. rewrite Hc.
  destruct (Qeq_bool r 0) eqn:E; [|reflexivity].
  apply Qeq_bool_iff in E. rewrite E in Hr. discriminate Hr.
Qed.

End GeofenceCreation.

(** ** Movement analysis (tak_analyze_movement) *)

(** Three fixes five minutes apart. *)
Definition fix0 : AnalyzeMovement.Position :=
  {| AnalyzeMovement.time := 0; AnalyzeMovement.lat := 0;
     AnalyzeMovement.lon := 0; AnalyzeMovement.alt := 0 |}.
Definition fix1 : AnalyzeMovement.Position :=
  {| AnalyzeMovement.time := 300000; AnalyzeMovement.lat := 0;
     AnalyzeMovement.lon := 4 # 10000; AnalyzeMovement.alt := 0 |}.
Definition fix2 : AnalyzeMovement.Position :=
  {| AnalyzeMovement.time := 600000; AnalyzeMovement.lat := 0;
     AnalyzeMovement.lon := 8 # 10000; AnalyzeMovement.alt := 0 |}.

Definition track3 : list AnalyzeMovement.Position := [fix0; fix1; fix2].

Section StopDetection.
Variable turf_distance : AnalyzeMovement.position -> AnalyzeMovement.position -> Q.
Variable turf_center : list AnalyzeMovement.position -> AnalyzeMovement.position.

Local Abbreviation near a b :=
  (JS.Qlt_bool (turf_distance (AnalyzeMovement.pt a) (AnalyzeMovement.pt b))
               AnalyzeMovement.stopThreshold).

(** While every step stays under the threshold the loop only extends the
    candidate and pushes nothing. *)
Lemma stopStep_all_near (l : list (AnalyzeMovement.Position * AnalyzeMovement.Position))
    (cur : option AnalyzeMovement.Candidate) :
  Forall (fun s => near (fst s) (snd s) = true) l ->
  fst (fold_left (AnalyzeMovement.stopStep turf_distance turf_center) l ([], cur)) = [].
Proof.
  intro H. revert cur. induction H as [|[a b] l Hab _ IH]; intro cur;
    [reflexivity|].
  cbn [fold_left]. unfold AnalyzeMovement.stopStep at 2.
  cbn [fst snd] in Hab. rewrite Hab. apply IH.
Qed.

(** A track that never moves 50 m between two fixes is one long stop, and
    none is reported, however long it lasts. *)
Lemma standing_still_reports_no_stop (positions : list AnalyzeMovement.Position) :
  Forall (fun s => near (fst s) (snd s) = true) (AnalyzeMovement.steps positions) ->
  AnalyzeMovement.stops
    (AnalyzeMovement.analyseStops turf_distance turf_center positions) = [].
Proof.
  intro H. unfold AnalyzeMovement.analyseStops. cbn [AnalyzeMovement.stops].
  now apply stopStep_all_near.
Qed.


End StopDetection.

(** *** Selecting analyses *)

Definition analysisOf (r : AnalyzeMovement.Response) : option AnalyzeMovement.Analysis :=
  match r with
  | AnalyzeMovement.Analysed a => Some a
  | AnalyzeMovement.Insufficient _ => None
  end.

Definition speedPart (r : AnalyzeMovement.Response) :=
  Client.opt_bind (analysisOf r) AnalyzeMovement.speedAnalysis.
Definition patternPart (r : AnalyzeMovement.Response) :=
  Client.opt_bind (analysisOf r) AnalyzeMovement.patternAnalysis.
Definition stopPart (r : AnalyzeMovement.Response) :=
  Client.opt_bind (analysisOf r) AnalyzeMovement.stopAnalysis.
Definition anomalyPart (r : AnalyzeMovement.Response) :=
  Client.opt_bind (analysisOf r) AnalyzeMovement.anomalyAnalysis.

(** The request [params] with the analyses [types] selected instead. *)
Definition selecting (params : AnalyzeMovement.Params) (types : list string)
  : AnalyzeMovement.Params :=
  {| AnalyzeMovement.analysisType := Some types;
     AnalyzeMovement.anomalyThreshold := AnalyzeMovement.anomalyThreshold params |}.

(** Four fixes on the equator one second apart: two steps of a
    ten-thousandth of a degree of longitude, some 11 m, and one of a
    thousandth, some 111 m. *)
Definition at_second (s : Z) (longitude : Q) : AnalyzeMovement.Position :=
  {| AnalyzeMovement.time := 1000 * s; AnalyzeMovement.lat := 0;
     AnalyzeMovement.lon := longitude; AnalyzeMovement.alt := 0 |}.

Definition sprint0 : AnalyzeMovement.Position := at_second 0 0.
Definition sprint1 : AnalyzeMovement.Position := at_second 1 (1 # 10000).
Definition sprint2 : AnalyzeMovement.Position := at_second 2 (2 # 10000).
Definition sprint3 : AnalyzeMovement.Position := at_second 3 (12 # 10000).

Definition sprint : list AnalyzeMovement.Position :=
  [sprint0; sprint1; sprint2; sprint3].

Definition threshold08 : AnalyzeMovement.Params :=
  {| AnalyzeMovement.analysisType := None;
     AnalyzeMovement.anomalyThreshold := Some (8 # 10) |}.

Definition flagged (r : AnalyzeMovement.Response) : option (list AnalyzeMovement.Position) :=
  option_map (fun a => map AnalyzeMovement.a_location (AnalyzeMovement.anomalies a))
             (anomalyPart r).

Section Selection.
Variable turf_distance : AnalyzeMovement.position -> AnalyzeMovement.position -> Q.
Variable turf_bearing : AnalyzeMovement.position -> AnalyzeMovement.position -> Q.
Variable turf_length : list AnalyzeMovement.position -> Q.
Variable turf_bbox : list AnalyzeMovement.position -> Q * Q * Q * Q.
Variable turf_center : list AnalyzeMovement.position -> AnalyzeMovement.position.

Local Abbreviation analyse :=
  (AnalyzeMovement.handler turf_distance turf_bearing turf_length turf_bbox
                           turf_center).

End Selection.

Lemma Qlt_bool_true (a b : Q) : (a < b)%Q -> JS.Qlt_bool a b = true.
Proof.
  intro H. unfold JS.Qlt_bool. destruct (Qle_bool b a) eqn:E; [|reflexivity].
  apply Qle_bool_iff in E. Lqa.lra.
Qed.

Lemma Qlt_bool_false (a b : Q) : (b <= a)%Q -> JS.Qlt_bool a b = false.
Proof.
  intro H. unfold JS.Qlt_bool. apply Qle_bool_iff in H. now rewrite H.
Qed.

(** A comparison of speeds over steps of one second, given the threshold
    by the equation [E] and the distances by bounds in the context. *)
Ltac over_a_second E :=
  rewrite E; unfold Qdiv;
  change (/ (1000 # 1000))%Q with (1000 # 1000)%Q; Lqa.lra.


(** ** Geofence transitions *)

Lemma well_formed_weaken (i : bool) (log : list GeofenceEvaluator.Event) :
  GeofenceEvaluator.well_formed i true log = true ->
  GeofenceEvaluator.well_formed i false log = true.
Proof.
  destruct log as [|[| |] log]; simpl; try tauto.
  rewrite andb_false_r. simpl. discriminate.
Qed.

(** The transition or dwell an alert reports. *)
Definition event_of (a : GeofenceEvaluator.Alert) : GeofenceEvaluator.Event :=
  match a with
  | GeofenceEvaluator.AlertEntry => GeofenceEvaluator.Entered
  | GeofenceEvaluator.AlertExit => GeofenceEvaluator.Exited
  | GeofenceEvaluator.AlertDwell => GeofenceEvaluator.Dwelt
  end.

(** Whether the inside period a state is in can still have its dwell
    alert: it can while the timer runs. *)
Definition spent (st : GeofenceEvaluator.State) : bool :=
  match GeofenceEvaluator.enteredAt st with
  | Some _ => false
  | None => true
  end.

Section Transitions.
Variable contains : GeofenceEvaluator.Report -> bool.
Variable monitored : string -> bool.
Variable tr : GeofenceEvaluator.Triggers.

Local Abbreviation run := (GeofenceEvaluator.run contains monitored tr).
Local Abbreviation alerts := (GeofenceEvaluator.alerts contains monitored tr).

Lemma run_well_formed (reports : list GeofenceEvaluator.Report) :
  forall st,
    GeofenceEvaluator.well_formed (GeofenceEvaluator.inside st) (spent st)
                                  (run st reports) = true.
Proof.
  induction reports as [|r reports IH]; intro st; [reflexivity|].
  cbn [GeofenceEvaluator.run]. unfold GeofenceEvaluator.step.
  destruct st as [ins ent]. cbn [GeofenceEvaluator.inside GeofenceEvaluator.enteredAt].
  destruct ins.
  - destruct (contains r).
    + destruct ent as [t0|].
      * destruct (GeofenceEvaluator.onDwell_enabled tr &&
                  (GeofenceEvaluator.thresholdDuration tr
                   <=? GeofenceEvaluator.observedAt r - t0)).
        -- cbn [fst snd app GeofenceEvaluator.well_formed spent
                GeofenceEvaluator.enteredAt negb andb].
           apply (IH {| GeofenceEvaluator.inside := true;
                        GeofenceEvaluator.enteredAt := None |}).
        -- cbn [fst snd app]. apply (IH (GeofenceEvaluator.mkState true (Some t0))).
      * cbn [fst snd app]. apply (IH (GeofenceEvaluator.mkState true None)).
    + cbn [fst snd app GeofenceEvaluator.well_formed andb].
      apply well_formed_weaken.
      apply (IH {| GeofenceEvaluator.inside := false;
                   GeofenceEvaluator.enteredAt := None |}).
  - destruct (contains r && monitored (GeofenceEvaluator.kind r)).
    + cbn [fst snd app GeofenceEvaluator.well_formed negb andb].
      destruct (GeofenceEvaluator.onDwell_enabled tr).
      * apply (IH (GeofenceEvaluator.mkState true (Some (GeofenceEvaluator.observedAt r)))).
      * apply well_formed_weaken.
        apply (IH (GeofenceEvaluator.mkState true None)).
    + cbn [fst snd app]. apply (IH (GeofenceEvaluator.mkState false ent)).
Qed.

(** With entry alerts on, the alerts of a well-formed log never hold an
    exit that no earlier entry accounts for. *)
Lemma fired_exits_matched (log : list GeofenceEvaluator.Event) :
  GeofenceEvaluator.onEntry tr = true ->
  forall (i d : bool) (pending : nat),
    GeofenceEvaluator.well_formed i d log = true ->
    (i = true -> (0 < pending)%nat) ->
    GeofenceEvaluator.exits_matched pending
      (flat_map (GeofenceEvaluator.fire tr) log) = true.
Proof.
  intro Hon. induction log as [|e log IH]; intros i d pending Hwf Hp;
    [reflexivity|].
  cbn [flat_map]. destruct e; cbn [GeofenceEvaluator.fire GeofenceEvaluator.well_formed] in *.
  - rewrite Hon. cbn [app GeofenceEvaluator.exits_matched].
    apply andb_prop in Hwf. destruct Hwf as [_ Hwf].
    apply (IH true false (S pending) Hwf). intros _. apply Nat.lt_0_succ.
  - apply andb_prop in Hwf. destruct Hwf as [Hi Hwf].
    destruct (GeofenceEvaluator.onExit tr); cbn [app GeofenceEvaluator.exits_matched].
    + destruct pending as [|n]; [specialize (Hp Hi); inversion Hp|].
      apply (IH false false n Hwf). discriminate.
    + apply (IH false false pending Hwf). discriminate.
  - apply andb_prop in Hwf. destruct Hwf as [Hi Hwf].
    apply andb_prop in Hi. destruct Hi as [Hi _].
    cbn [app GeofenceEvaluator.exits_matched].
    apply (IH true true pending Hwf). intros _. now apply Hp.
Qed.

(** With entry and exit alerts both on, the alerts are the log. *)
Lemma fired_all (log : list GeofenceEvaluator.Event) :
  GeofenceEvaluator.onEntry tr = true -> GeofenceEvaluator.onExit tr = true ->
  map event_of (flat_map (GeofenceEvaluator.fire tr) log) = log.
Proof.
  intros Hen Hex. induction log as [|e log IH]; [reflexivity|].
  cbn [flat_map]. rewrite map_app, IH.
  destruct e; cbn [GeofenceEvaluator.fire]; rewrite ?Hen, ?Hex; reflexivity.
Qed.

(** C5, amended.  For every geofence and every sequence of reports of one
    entity, entries and exits of the pair alternate, beginning with an
    entry, and an inside period holds at most one dwell alert; so the dwell
    alert is emitted at most once per continuous inside period, and when
    the onEntry trigger is enabled no onExit alert is emitted without a
    preceding unmatched onEntry alert.  With onEntry and onExit both
    enabled the alerts emitted are exactly these transitions and dwells. *)
Theorem transitions_alternate_dwell_once (reports : list GeofenceEvaluator.Report) :
  GeofenceEvaluator.well_formed false false (run GeofenceEvaluator.OUTSIDE reports) = true /\
  (GeofenceEvaluator.onEntry tr = true ->
   GeofenceEvaluator.exits_matched 0 (alerts reports) = true) /\
  (GeofenceEvaluator.onEntry tr = true -> GeofenceEvaluator.onExit tr = true ->
   GeofenceEvaluator.well_formed false false (map event_of (alerts reports)) = true).
Proof.
  pose proof (run_well_formed reports GeofenceEvaluator.OUTSIDE) as H.
  cbn [GeofenceEvaluator.inside GeofenceEvaluator.OUTSIDE spent
       GeofenceEvaluator.enteredAt] in H.
  apply well_formed_weaken in H. split; [exact H|]. split.
  - intro Hon. unfold GeofenceEvaluator.alerts.
    apply (fired_exits_matched _ Hon false false 0%nat H). discriminate.
  - intros Hen Hex. unfold GeofenceEvaluator.alerts.
    now rewrite (fired_all _ Hen Hex).
Qed.

End Transitions.

(** A report inside the fence and a later one outside it. *)
Definition reportAt (t : Z) (longitude : Q) : GeofenceEvaluator.Report :=
  {| GeofenceEvaluator.observedAt := t;
     GeofenceEvaluator.kind := "a-h-G";
     GeofenceEvaluator.lat := 0;
     GeofenceEvaluator.lon := longitude |}.

Definition exitOnly : GeofenceEvaluator.Triggers :=
  {| GeofenceEvaluator.onEntry := false;
     GeofenceEvaluator.onExit := true;
     GeofenceEvaluator.onDwell_enabled := false;
     GeofenceEvaluator.thresholdDuration := 1 |}.

(** C5, as stated, fails for a geofence whose triggers are onExit without
    onEntry, which the input schema allows: the entity enters unannounced,
    and the first alert emitted is an onExit that no onEntry precedes. *)
Lemma exit_alert_without_entry_alert :
  GeofenceEvaluator.exits_matched 0 [GeofenceEvaluator.AlertExit] = false /\
  forall contains monitored,
    contains (reportAt 0 (5 # 1000)) = true ->
    monitored "a-h-G"%string = true ->
    contains (reportAt 60000 (20 # 1000)) = false ->
    GeofenceEvaluator.alerts contains monitored exitOnly
      [reportAt 0 (5 # 1000); reportAt 60000 (20 # 1000)]
    = [GeofenceEvaluator.AlertExit].
Proof.
  split; [reflexivity|]. intros contains monitored H1 Hm H2.
  cbv in H1, H2. cbv. rewrite H1, Hm. cbv. rewrite H2. reflexivity.
Qed.

(** ** Distance and bearing (tak_calculate_distance) *)

Section GreatCircle.
Local Open Scope R_scope.
Import CalculateDistance.

Lemma haversine_sym (a b : Point) : haversine a b = haversine b a.
Proof.
  unfold haversine, degreesToRadians.
  replace ((lat a - lat b) * PI / 180 / 2) with (- ((lat b - lat a) * PI / 180 / 2))
    by field.
  replace ((lon a - lon b) * PI / 180 / 2) with (- ((lon b - lon a) * PI / 180 / 2))
    by field.
  rewrite !sin_neg, <- !Rsqr_neg. ring.
Qed.

Lemma atan2_range (y x : R) : - PI < atan2 y x <= PI.
Proof.
  pose proof PI_RGT_0 as Hpi. unfold atan2.
  destruct (Rlt_dec 0 x) as [Hx|Hx].
  - pose proof (atan_bound (y / x)). lra.
  - destruct (Rlt_dec x 0) as [Hx'|Hx'].
    + assert (Hinv : / x < 0) by now apply Rinv_lt_0_compat.
      destruct (Rle_dec 0 y) as [Hy|Hy].
      * assert (Hq : y / x <= 0).
        { unfold Rdiv. nra. }
        pose proof (atan_bound (y / x)) as Hb.
        assert (Ha : atan (y / x) <= 0).
        { destruct Hq as [Hq|Hq].
          - left. rewrite <- atan_0. now apply atan_increasing.
          - rewrite Hq, atan_0. lra. }
        lra.
      * assert (Hq : 0 < y / x).
        { unfold Rdiv. nra. }
        pose proof (atan_bound (y / x)) as Hb.
        assert (Ha : 0 < atan (y / x)).
        { rewrite <- atan_0. now apply atan_increasing. }
        lra.
    + destruct (Rlt_dec 0 y); [lra|]. destruct (Rlt_dec y 0); lra.
Qed.

Lemma bearing_range (a b : Point) : - 180 < bearing a b <= 180.
Proof.
  unfold bearing, radiansToDegrees. cbv zeta.
  match goal with |- context [atan2 ?y ?x] =>
    pose proof (atan2_range y x) as H; set (r := atan2 y x) in * end.
  pose proof PI_RGT_0 as Hpi.
  split.
  - apply Rmult_lt_reg_r with PI; [assumption|].
    replace (r * 180 / PI * PI) with (r * 180) by (field; lra). lra.
  - apply Rmult_le_reg_r with PI; [assumption|].
    replace (r * 180 / PI * PI) with (r * 180) by (field; lra). lra.
Qed.

(** On a dividend that is not negative the remainder is the mathematical
    one: it lies in [0, m) and differs from [x] by a multiple of [m]. *)
Lemma rem_nonneg (x m : R) :
  0 <= x -> 0 < m ->
  0 <= rem x m < m /\ exists k : Z, rem x m = x - m * IZR k.
Proof.
  intros Hx Hm. unfold rem, trunc.
  assert (Hq : 0 <= x / m).
  { unfold Rdiv. apply Rmult_le_pos; [assumption|].
    left. now apply Rinv_0_lt_compat. }
  destruct (Rle_dec 0 (x / m)) as [_|C]; [|contradiction].
  destruct (base_Int_part (x / m)) as [Hlo Hhi].
  set (k := IZR (Int_part (x / m))) in *.
  assert (Hxm : x = x / m * m) by (field; lra).
  split; [|exists (Int_part (x / m)); reflexivity].
  split.
  - assert (m * k <= x / m * m) by (rewrite Rmult_comm; apply Rmult_le_compat_r; lra).
    lra.
  - assert (x / m * m < (k + 1) * m) by (apply Rmult_lt_compat_r; lra).
    lra.
Qed.

Lemma atan2_pos_x (y x : R) : 0 < x -> atan2 y x = atan (y / x).
Proof.
  intro H. unfold atan2. destruct (Rlt_dec 0 x); [reflexivity|contradiction].
Qed.

Lemma atan2_zero_neg (x : R) : x < 0 -> atan2 0 x = PI.
Proof.
  intro H. unfold atan2.
  destruct (Rlt_dec 0 x); [lra|]. destruct (Rlt_dec x 0); [|contradiction].
  destruct (Rle_dec 0 0); [|lra].
  unfold Rdiv. rewrite Rmult_0_l, atan_0. ring.
Qed.

Lemma atan2_neg_zero (y : R) : y < 0 -> atan2 y 0 = - (PI / 2).
Proof.
  intro H. unfold atan2.
  destruct (Rlt_dec 0 0); [lra|]. destruct (Rlt_dec 0 0); [lra|].
  destruct (Rlt_dec 0 y); [lra|]. destruct (Rlt_dec y 0); [reflexivity|contradiction].
Qed.

Lemma degrees_of_radians (d : R) : radiansToDegrees (d * PI / 180) = d.
Proof.
  unfold radiansToDegrees. field. apply PI_neq0.
Qed.

(** Along a meridian the two forward bearings are north and south. *)
Lemma bearing_on_meridian (a b : Point) :
  lon a = lon b -> 0 < lat b - lat a < 180 ->
  bearing a b = 0 /\ bearing b a = 180.
Proof.
  intros Hlon Hlat. pose proof PI_RGT_0 as Hpi.
  assert (Hs : 0 < sin (degreesToRadians (lat b) - degreesToRadians (lat a))).
  { apply sin_gt_0; unfold degreesToRadians; nra. }
  unfold bearing. cbv zeta. rewrite Hlon.
  replace (degreesToRadians (lon b) - degreesToRadians (lon b)) with 0 by ring.
  rewrite sin_0, cos_0, !Rmult_0_l, !Rmult_1_r.
  split.
  - replace (cos (degreesToRadians (lat a)) * sin (degreesToRadians (lat b)) -
             sin (degreesToRadians (lat a)) * cos (degreesToRadians (lat b)))
      with (sin (degreesToRadians (lat b) - degreesToRadians (lat a)))
      by (rewrite sin_minus; ring).
    rewrite (atan2_pos_x _ _ Hs). unfold Rdiv. rewrite Rmult_0_l, atan_0.
    unfold radiansToDegrees. field. apply PI_neq0.
  - replace (cos (degreesToRadians (lat b)) * sin (degreesToRadians (lat a)) -
             sin (degreesToRadians (lat b)) * cos (degreesToRadians (lat a)))
      with (- sin (degreesToRadians (lat b) - degreesToRadians (lat a)))
      by (rewrite sin_minus; ring).
    rewrite atan2_zero_neg by lra.
    unfold radiansToDegrees. field. apply PI_neq0.
Qed.

End GreatCircle.

Definition origin : CalculateDistance.Point :=
  {| CalculateDistance.lat := 0; CalculateDistance.lon := 0 |}.

(** 45 degrees north, 90 degrees east. *)
Definition northEast : CalculateDistance.Point :=
  {| CalculateDistance.lat := 45; CalculateDistance.lon := 90 |}.

Section Bearings.
Local Open Scope R_scope.
Import CalculateDistance.

Lemma sqrt2_pos : 0 < sqrt 2.
Proof. apply sqrt_lt_R0. lra. Qed.

Lemma bearing_out : bearing origin northEast = 45.
Proof.
  pose proof sqrt2_pos as H2.
  unfold bearing, origin, northEast. cbn [lat lon].
  unfold degreesToRadians.
  replace (90 * PI / 180 - 0 * PI / 180) with (PI / 2) by field.
  replace (45 * PI / 180) with (PI / 4) by field.
  replace (0 * PI / 180) with 0 by field.
  rewrite sin_PI2, cos_PI2, sin_0, cos_0, sin_PI4, cos_PI4.
  rewrite atan2_pos_x.
  - replace (1 * (1 / sqrt 2) / (1 * (1 / sqrt 2) - 0 * (1 / sqrt 2) * 0)) with 1
      by (field; lra).
    rewrite atan_1. unfold radiansToDegrees. field. apply PI_neq0.
  - apply Rlt_le_trans with (1 / sqrt 2); [|right; ring].
    apply Rdiv_lt_0_compat; lra.
Qed.

Lemma bearing_back : bearing northEast origin = - 90.
Proof.
  unfold bearing, origin, northEast. cbn [lat lon].
  unfold degreesToRadians.
  replace (0 * PI / 180 - 90 * PI / 180) with (- (PI / 2)) by field.
  replace (45 * PI / 180) with (PI / 4) by field.
  replace (0 * PI / 180) with 0 by field.
  rewrite sin_neg, cos_neg, sin_PI2, cos_PI2, sin_0, cos_0.
  replace (cos (PI / 4) * 0 - sin (PI / 4) * 1 * 0) with 0 by ring.
  replace (- (1) * 1) with (- 1) by ring.
  rewrite atan2_neg_zero by lra.
  unfold radiansToDegrees. field. apply PI_neq0.
Qed.

(** C7, as stated, fails: from the origin to the point at 45 N 90 E the
    forward bearing is 45 degrees, and from that point back to the origin
    it is -90 degrees; the two differ by 135 degrees, which is not 180
    modulo 360. *)
Lemma forward_bearings_are_not_opposite :
  bearing origin northEast = 45 /\
  bearing northEast origin = - 90 /\
  ~ (exists k : Z,
       bearing origin northEast - bearing northEast origin = 180 + 360 * IZR k).
Proof.
  split; [exact bearing_out|]. split; [exact bearing_back|].
  rewrite bearing_out, bearing_back. intros [k Hk].
  assert (H : IZR (8 * k) = IZR (- 1)) by (rewrite mult_IZR; lra).
  apply eq_IZR in H. lia.
Qed.

(** C7, amended.  For every pair of points the computed distance is
    symmetric, and the reported back-bearing is (bearing + 180) mod 360: it
    lies in [0, 360) and differs from bearing + 180 by a multiple of 360.
    The forward bearings in the two directions differ by 180 degrees
    modulo 360 when the points lie on one meridian, less than 180 degrees
    of latitude apart; in general they do not. *)
Theorem distance_symmetric_back_bearing_mod_360
    (a b : Point) (units : option Units) :
  m_distance (single a b units) = m_distance (single b a units) /\
  (0 <= m_backBearing (single a b units) < 360 /\
   exists k : Z,
     m_backBearing (single a b units)
     = m_bearing (single a b units) + 180 - 360 * IZR k) /\
  (lon a = lon b -> 0 < lat b - lat a < 180 ->
   exists k : Z, bearing a b - bearing b a = 180 + 360 * IZR k).
Proof.
  split; [|split].
  - unfold single, distanceBetween. cbn [m_distance].
    now rewrite (haversine_sym a b).
  - unfold single. cbn [m_backBearing m_bearing].
    pose proof (bearing_range a b). apply rem_nonneg; lra.
  - intros Hlon Hlat. destruct (bearing_on_meridian a b Hlon Hlat) as [-> ->].
    exists (- 1)%Z. lra.
Qed.

End Bearings.

(** * More of the client and of the tools *)

(** ** The entity map under team and role filters *)

Lemma existsb_eqb_In (x : string) (l : list string) :
  existsb (String.eqb x) l = true <-> In x l.
Proof.
  rewrite existsb_exists. split.
  - intros (y & Hy & E). apply String.eqb_eq in E. now subst.
  - intro H. exists x. split; [exact H|apply String.eqb_refl].
Qed.

Lemma excluded_by_false (filter : option (list string)) (x : string) :
  Client.excluded_by filter x = false <->
  (forall allowed, filter = Some allowed -> In x allowed).
Proof.
  unfold Client.excluded_by. destruct filter as [allowed|].
  - rewrite negb_false_iff, existsb_eqb_In. split.
    + intros H a [= <-]. exact H.
    + intro H. now apply H.
  - split; [discriminate|reflexivity].
Qed.

Section EntityMapInvariants.
Import Client.
Variables (teams roles : option (list string)) (now : Z).

Lemma map_set_keys (m : EntityMap) (k : key) (v : TAKEntity) (x : key) :
  In x (map fst (map_set m k v)) -> x = k \/ In x (map fst m).
Proof.
  induction m as [|[k' v'] m IH]; cbn [map_set map fst In].
  - intros [<-|[]]. now left.
  - destruct (key_eqb k' k); cbn [map fst In]; [tauto|].
    intros [<-|H]; [right; now left|]. destruct (IH H); tauto.
Qed.

Lemma map_set_NoDup (m : EntityMap) (k : key) (v : TAKEntity) :
  NoDup (map fst m) -> NoDup (map fst (map_set m k v)).
Proof.
  induction m as [|[k' v'] m IH]; cbn [map_set map fst]; intro H.
  - repeat constructor. intros [].
  - destruct (key_eqb k' k) eqn:E; cbn [map fst]; [exact H|].
    inversion H as [|? ? Hk Hm]; subst. constructor; [|now apply IH].
    intro Hin. apply map_set_keys in Hin. destruct Hin as [->|Hin]; [|tauto].
    now rewrite key_eqb_refl in E.
Qed.

Lemma map_set_length (m : EntityMap) (k : key) (v : TAKEntity) :
  (List.length (map_set m k v) <= S (List.length m))%nat.
Proof.
  induction m as [|[k' v'] m IH]; cbn [map_set List.length]; [lia|].
  destruct (key_eqb k' k); cbn [List.length]; lia.
Qed.

Lemma map_set_In (m : EntityMap) (k : key) (v : TAKEntity) (kv : key * TAKEntity) :
  In kv (map_set m k v) -> kv = (k, v) \/ In kv m.
Proof.
  induction m as [|[k' v'] m IH]; cbn [map_set In].
  - intros [<-|[]]. now left.
  - destruct (key_eqb k' k) eqn:E; cbn [In].
    + apply key_eqb_eq in E. subst k'. intros [<-|H]; [now left|right; now right].
    + intros [H|H]; [tauto|]. destruct (IH H); tauto.
Qed.

(** What an entry of the map is: the entity of a delivered event, under
    the uid of that event, which the two filters let through. *)
Definition entry_of (events : list CotEvent) (kv : key * TAKEntity) : Prop :=
  exists ev, In ev events /\ fst kv = uid ev /\ snd kv = toEntity now ev /\
    excluded_by teams (team (snd kv)) = false /\
    excluded_by roles (role (snd kv)) = false.

Definition map_ok (events : list CotEvent) (m : EntityMap) : Prop :=
  NoDup (map fst m) /\ Forall (entry_of events) m.

Lemma upsert_ok (events : list CotEvent) (m : EntityMap) (ev : CotEvent) :
  In ev events -> map_ok events m ->
  map_ok events (upsert teams roles now m ev) /\
  (List.length (upsert teams roles now m ev) <= S (List.length m))%nat.
Proof.
  intros Hev [Hnd Hall]. unfold upsert.
  destruct (match map_get m (uid ev) with
            | Some stored => JS.date_gt (time ev) (lastUpdate stored)
            | None => true
            end); [|split; [split; assumption|lia]].
  cbv zeta.
  destruct (excluded_by teams (team (toEntity now ev))) eqn:Et;
    [split; [split; assumption|lia]|].
  destruct (excluded_by roles (role (toEntity now ev))) eqn:Er;
    [split; [split; assumption|lia]|].
  split; [split|apply map_set_length].
  - now apply map_set_NoDup.
  - apply Forall_forall. intros kv Hkv. apply map_set_In in Hkv.
    destruct Hkv as [->|Hkv].
    + exists ev. cbn [fst snd]. repeat split; assumption.
    + rewrite Forall_forall in Hall. now apply Hall.
Qed.

Lemma fold_upsert_ok (events l : list CotEvent) (m : EntityMap) :
  incl l events -> map_ok events m ->
  map_ok events (fold_left (upsert teams roles now) l m) /\
  (List.length (fold_left (upsert teams roles now) l m)
   <= List.length m + List.length l)%nat.
Proof.
  revert m. induction l as [|ev l IH]; intros m Hl Hm; cbn [fold_left List.length].
  - split; [exact Hm|lia].
  - destruct (upsert_ok events m ev (Hl ev (or_introl eq_refl)) Hm) as [Hok Hlen].
    destruct (IH (upsert teams roles now m ev)
                 (fun x Hx => Hl x (or_intror Hx)) Hok) as [Hok' Hlen'].
    split; [exact Hok'|lia].
Qed.

Lemma reconcile_ok (events : list CotEvent) :
  map_ok events (reconcile teams roles now events) /\
  (List.length (reconcile teams roles now events) <= List.length events)%nat.
Proof.
  destruct (fold_upsert_ok events events [] (incl_refl _)) as [H L].
  - split; [constructor|constructor].
  - split; [exact H|exact L].
Qed.

Lemma values_uids (events : list CotEvent) (m : EntityMap) :
  Forall (entry_of events) m -> map e_uid (map_values m) = map fst m.
Proof.
  unfold map_values. induction 1 as [|[k v] m (ev & _ & Hk & Hv & _) _ IH];
    cbn [map fst snd] in *; [reflexivity|].
  rewrite IH, Hv, Hk. reflexivity.
Qed.

End EntityMapInvariants.

(** X4.  Whatever the team and role filters, [getEntities] never returns
    two entities with the same uid, and never more entities than there
    were events. *)
Theorem getEntities_uids_distinct (teams roles : option (list string)) (now : Z)
    (events : list Client.CotEvent) :
  NoDup (map Client.e_uid (Client.getEntities teams roles now events)) /\
  (List.length (Client.getEntities teams roles now events)
   <= List.length events)%nat.
Proof.
  destruct (reconcile_ok teams roles now events) as [[Hnd Hall] Hlen].
  unfold Client.getEntities. split.
  - rewrite (values_uids teams roles now events _ Hall). exact Hnd.
  - unfold Client.map_values. now rewrite length_map.
Qed.

(** X5.  Every entity [getEntities] returns is the entity of one of the
    events delivered, and it passes the filters: its team is one of
    [teams] when [teams] is given, its role one of [roles] when [roles] is
    given. *)
Theorem getEntities_from_events_within_filters
    (teams roles : option (list string)) (now : Z)
    (events : list Client.CotEvent) :
  Forall (fun e =>
            (exists ev, In ev events /\ e = Client.toEntity now ev) /\
            (forall allowed, teams = Some allowed -> In (Client.team e) allowed) /\
            (forall allowed, roles = Some allowed -> In (Client.role e) allowed))
         (Client.getEntities teams roles now events).
Proof.
  destruct (reconcile_ok teams roles now events) as [[_ Hall] _].
  unfold Client.getEntities, Client.map_values.
  apply Forall_forall. intros e He. apply in_map_iff in He.
  destruct He as ([k v] & <- & Hkv). rewrite Forall_forall in Hall.
  destruct (Hall _ Hkv) as (ev & Hev & _ & Hv & Ht & Hr). cbn [snd] in *.
  split; [exists ev; now split|].
  split; now apply excluded_by_false.
Qed.

(** ** Fetching events (getCotEvents) *)

Lemma slice0_length {A : Type} (l : list A) (k : Z) :
  0 <= k -> (List.length (JS.slice0 l k) <= Z.to_nat k)%nat.
Proof.
  intro H. destruct (slice0_firstn l k) as (n & -> & Hn).
  rewrite (Hn H). apply firstn_le_length.
Qed.

Lemma getCotEvents_prefix (fetchOne : string -> Client.result (option Client.RawEvent))
    (fetchAll : string -> Client.result (list (option Client.RawEvent)))
    (q : ClientFetch.Query) :
  exists n, ClientFetch.getCotEvents fetchOne fetchAll q =
            firstn n (ClientFetch.fetched fetchOne fetchAll q).
Proof.
  unfold ClientFetch.getCotEvents. cbv zeta.
  set (events := ClientFetch.fetched fetchOne fetchAll q).
  destruct (ClientFetch.q_limit q) as [k|];
    [|exists (List.length events); now rewrite firstn_all].
  destruct (negb (k =? 0) && (Z.of_nat (List.length events) >? k));
    [|exists (List.length events); now rewrite firstn_all].
  destruct (slice0_firstn events k) as (n & -> & _). now exists n.
Qed.

Lemma getCotEvents_length (fetchOne : string -> Client.result (option Client.RawEvent))
    (fetchAll : string -> Client.result (list (option Client.RawEvent)))
    (q : ClientFetch.Query) (k : Z) :
  ClientFetch.q_limit q = Some k -> 0 < k ->
  (List.length (ClientFetch.getCotEvents fetchOne fetchAll q) <= Z.to_nat k)%nat.
Proof.
  intros Hq Hk. unfold ClientFetch.getCotEvents. cbv zeta. rewrite Hq.
  set (events := ClientFetch.fetched fetchOne fetchAll q).
  destruct (Z.eqb_spec k 0) as [->|_]; [lia|]. cbn [negb andb].
  destruct (Z.gtb_spec (Z.of_nat (List.length events)) k) as [Hgt|Hle].
  - apply slice0_length. lia.
  - lia.
Qed.

(** X6.  [getCotEvents] returns a prefix of the events it has collected:
    all of them when [limit] is absent or 0, at most [limit] of them when
    [limit] is positive. *)
Theorem getCotEvents_limit (fetchOne : string -> Client.result (option Client.RawEvent))
    (fetchAll : string -> Client.result (list (option Client.RawEvent)))
    (q : ClientFetch.Query) :
  (exists n, ClientFetch.getCotEvents fetchOne fetchAll q =
             firstn n (ClientFetch.fetched fetchOne fetchAll q)) /\
  (forall k, ClientFetch.q_limit q = Some k -> 0 < k ->
     (List.length (ClientFetch.getCotEvents fetchOne fetchAll q) <= Z.to_nat k)%nat /\
     ClientFetch.getCotEvents fetchOne fetchAll q =
     firstn (Z.to_nat k) (ClientFetch.fetched fetchOne fetchAll q)) /\
  (ClientFetch.q_limit q = None \/ ClientFetch.q_limit q = Some 0 ->
     ClientFetch.getCotEvents fetchOne fetchAll q =
     ClientFetch.fetched fetchOne fetchAll q).
Proof.
  split; [apply getCotEvents_prefix|]. split.
  - intros k Hq Hk. split; [now apply getCotEvents_length|].
    unfold ClientFetch.getCotEvents. cbv zeta. rewrite Hq.
    set (events := ClientFetch.fetched fetchOne fetchAll q).
    destruct (Z.eqb_spec k 0) as [->|_]; [lia|]. cbn [negb andb].
    destruct (Z.gtb_spec (Z.of_nat (List.length events)) k) as [Hgt|Hle].
    + unfold JS.slice0. destruct (Z.ltb_spec k 0); [lia|reflexivity].
    + symmetry. apply firstn_all2. lia.
  - unfold ClientFetch.getCotEvents. cbv zeta. intros [->| ->]; reflexivity.
Qed.

(** X7.  When uids are given, the types filter is not applied: the result
    is the same whatever [types] is.  An empty list of uids fetches
    nothing and returns no event, where an absent one fetches the history
    of every uid. *)
Theorem uids_bypass_types_and_empty_uids_fetch_nothing
    (fetchOne : string -> Client.result (option Client.RawEvent))
    (fetchAll : string -> Client.result (list (option Client.RawEvent)))
    (types types' : option (list string)) (limit : option Z) :
  (forall u us,
     ClientFetch.getCotEvents fetchOne fetchAll
       (ClientFetch.mkQuery types (Some (u :: us)) limit) =
     ClientFetch.getCotEvents fetchOne fetchAll
       (ClientFetch.mkQuery types' (Some (u :: us)) limit)) /\
  ClientFetch.getCotEvents fetchOne fetchAll
    (ClientFetch.mkQuery types (Some []) limit) = [] /\
  ClientFetch.fetched fetchOne fetchAll (ClientFetch.mkQuery types None limit) =
    ClientFetch.history fetchAll types "*".
Proof.
  split; [reflexivity|]. split; [|apply app_nil_r].
  unfold ClientFetch.getCotEvents, ClientFetch.fetched. cbn.
  destruct limit as [k|]; [|reflexivity].
  destruct (negb (k =? 0) && (0 >? k)); [|reflexivity].
  unfold JS.slice0. destruct (k <? 0); now rewrite firstn_nil.
Qed.

(** A well-formed event element, one without a [point], and two servers:
    one whose history holds the given elements, one whose requests fail. *)
Definition rawUnit (id ty : string) : Client.RawEvent :=
  {| Client.raw_uid := Some id;
     Client.raw_type := Some ty;
     Client.raw_time := Some 1000;
     Client.raw_start := Some 1000;
     Client.raw_stale := Some 61000;
     Client.raw_how := Some "m-g"%string;
     Client.raw_point :=
       Some {| Client.raw_lat := JS.VNum (JS.Num (77 # 2));
               Client.raw_lon := JS.VNum (JS.Num (-77));
               Client.raw_hae := JS.VNum (JS.Num 120);
               Client.raw_ce := JS.VNum (JS.Num 10);
               Client.raw_le := JS.VNum (JS.Num 10) |};
     Client.raw_detail := None |}.

Definition rawPointless (id : string) : Client.RawEvent :=
  {| Client.raw_uid := Some id;
     Client.raw_type := Some "a-f-G"%string;
     Client.raw_time := Some 2000;
     Client.raw_start := Some 2000;
     Client.raw_stale := Some 62000;
     Client.raw_how := None;
     Client.raw_point := None;
     Client.raw_detail := None |}.

Definition historyOf (docs : list (option Client.RawEvent))
  : string -> Client.result (list (option Client.RawEvent)) :=
  fun _ => Client.Ok docs.

Definition unreachable {A : Type} : string -> Client.result A :=
  fun _ => Client.Throw "Network Error".

Definition oneOf (raw : string -> option Client.RawEvent)
  : string -> Client.result (option Client.RawEvent) :=
  fun uid => Client.Ok (raw uid).

Lemma collect_types (l : list string) (docs : list (option Client.RawEvent)) :
  Forall (fun e => exists ty t, Client.type e = Some ty /\ In t l /\
                                String.prefix t ty = true)
         (ClientFetch.collect (Some l) docs).
Proof.
  induction docs as [|[raw|] docs IH]; cbn [ClientFetch.collect];
    [constructor| |exact IH].
  destruct (Client.parseCotEvent raw) as [event|]; [|constructor].
  unfold ClientFetch.matchesTypes. destruct l as [|t ts]; [exact IH|].
  destruct (Client.type event) as [ty|] eqn:Ety; [|constructor].
  destruct (existsb _ _) eqn:E; [|exact IH].
  constructor; [|exact IH].
  apply existsb_exists in E. destruct E as (t0 & Hin & Hp).
  now exists ty, t0.
Qed.

(** X8.  In a history query (no uids) with a types filter, every event
    returned has a type, and one of the filter's entries is a prefix of
    it. *)
Theorem history_types_are_prefixes
    (fetchOne : string -> Client.result (option Client.RawEvent))
    (fetchAll : string -> Client.result (list (option Client.RawEvent)))
    (q : ClientFetch.Query) (l : list string) :
  ClientFetch.q_uids q = None -> ClientFetch.q_types q = Some l ->
  Forall (fun e => exists ty t, Client.type e = Some ty /\ In t l /\
                                String.prefix t ty = true)
         (ClientFetch.getCotEvents fetchOne fetchAll q).
Proof.
  intros Hu Ht.
  destruct (getCotEvents_prefix fetchOne fetchAll q) as (n & ->).
  apply Forall_forall. intros e He. apply firstn_In in He. revert e He.
  apply Forall_forall. unfold ClientFetch.fetched. rewrite Hu, Ht.
  cbn [flat_map]. rewrite app_nil_r. unfold ClientFetch.history.
  destruct (fetchAll "*"%string); [apply collect_types|constructor].
Qed.

Lemma history_types_are_prefixes_witness :
  Forall (fun e => exists ty t, Client.type e = Some ty /\ In t ["a-f"; "a-h"]%string /\
                                String.prefix t ty = true)
         (ClientFetch.getCotEvents unreachable
            (historyOf [Some (rawUnit "U1" "a-f-G-U-C"); Some (rawUnit "U2" "a-n-A");
                        Some (rawUnit "U3" "a-h-G")])
            (ClientFetch.mkQuery (Some ["a-f"; "a-h"]%string) None None)).
Proof.
  apply (history_types_are_prefixes unreachable
           (historyOf [Some (rawUnit "U1" "a-f-G-U-C"); Some (rawUnit "U2" "a-n-A");
                       Some (rawUnit "U3" "a-h-G")])
           (ClientFetch.mkQuery (Some ["a-f"; "a-h"]%string) None None)
           ["a-f"; "a-h"]%string); reflexivity.
Defined.

Lemma collect_app_stop (types : option (list string))
    (docs rest : list (option Client.RawEvent)) :
  ClientFetch.collect types rest = [] ->
  ClientFetch.collect types (docs ++ rest) = ClientFetch.collect types docs.
Proof.
  intro H. induction docs as [|[raw|] docs IH]; cbn [app ClientFetch.collect];
    [exact H| |exact IH].
  destruct (Client.parseCotEvent raw) as [event|]; [|reflexivity].
  destruct (ClientFetch.matchesTypes types event) as [[|]|]; now rewrite ?IH.
Qed.

(** X9.  In a history response an event without a [point] ends the
    reading: the events before it are kept, all the events after it,
    well formed or not, are lost. *)
Theorem malformed_event_drops_the_rest
    (fetchAll : string -> Client.result (list (option Client.RawEvent)))
    (types : option (list string)) (uid : string)
    (before after : list (option Client.RawEvent)) (bad : Client.RawEvent) :
  fetchAll uid = Client.Ok (before ++ Some bad :: after) ->
  Client.raw_point bad = None ->
  ClientFetch.history fetchAll types uid = ClientFetch.collect types before.
Proof.
  intros Hf Hb. unfold ClientFetch.history. rewrite Hf.
  apply collect_app_stop. cbn [ClientFetch.collect].
  unfold Client.parseCotEvent. now rewrite Hb.
Qed.

Lemma malformed_event_drops_the_rest_witness :
  ClientFetch.history
    (historyOf [Some (rawUnit "U1" "a-f-G"); Some (rawPointless "U2");
                Some (rawUnit "U3" "a-f-G")]) None "*" =
  ClientFetch.collect None [Some (rawUnit "U1" "a-f-G")].
Proof.
  apply (malformed_event_drops_the_rest
           (historyOf [Some (rawUnit "U1" "a-f-G"); Some (rawPointless "U2");
                       Some (rawUnit "U3" "a-f-G")])
           None "*" [Some (rawUnit "U1" "a-f-G")] [Some (rawUnit "U3" "a-f-G")]
           (rawPointless "U2")); reflexivity.
Defined.

(** X10.  With uids given, each uid is fetched on its own: a uid whose
    request fails, or whose event has no [point], contributes nothing and
    takes nothing away from the others. *)
Theorem failed_uid_is_skipped
    (fetchOne : string -> Client.result (option Client.RawEvent))
    (fetchAll : string -> Client.result (list (option Client.RawEvent)))
    (types : option (list string)) (l1 l2 : list string) (bad : string) :
  match fetchOne bad with
  | Client.Throw _ => True
  | Client.Ok None => True
  | Client.Ok (Some raw) => Client.raw_point raw = None
  end ->
  ClientFetch.getCotEvents fetchOne fetchAll
    (ClientFetch.mkQuery types (Some (l1 ++ bad :: l2)) None) =
  flat_map (ClientFetch.oneUid fetchOne) l1 ++
  flat_map (ClientFetch.oneUid fetchOne) l2.
Proof.
  intro H. unfold ClientFetch.getCotEvents, ClientFetch.fetched.
  cbn [ClientFetch.q_uids ClientFetch.q_limit].
  assert (Hbad : ClientFetch.oneUid fetchOne bad = []).
  { unfold ClientFetch.oneUid. destruct (fetchOne bad) as [[raw|]|];
      try reflexivity.
    unfold Client.parseCotEvent. now rewrite H. }
  destruct (l1 ++ bad :: l2) as [|u us] eqn:E;
    [now destruct l1|].
  rewrite <- E, flat_map_app. cbn [flat_map]. now rewrite Hbad.
Qed.

Lemma failed_uid_is_skipped_witness :
  ClientFetch.getCotEvents
    (oneOf (fun uid => if String.eqb uid "U2" then Some (rawPointless uid)
                       else Some (rawUnit uid "a-f-G")))
    unreachable
    (ClientFetch.mkQuery None (Some (["U1"%string] ++ "U2"%string :: ["U3"%string])) None) =
  flat_map (ClientFetch.oneUid
              (oneOf (fun uid => if String.eqb uid "U2" then Some (rawPointless uid)
                                 else Some (rawUnit uid "a-f-G")))) ["U1"%string] ++
  flat_map (ClientFetch.oneUid
              (oneOf (fun uid => if String.eqb uid "U2" then Some (rawPointless uid)
                                 else Some (rawUnit uid "a-f-G")))) ["U3"%string].
Proof.
  apply (failed_uid_is_skipped
           (oneOf (fun uid => if String.eqb uid "U2" then Some (rawPointless uid)
                              else Some (rawUnit uid "a-f-G")))
           unreachable None ["U1"%string] ["U3"%string] "U2"%string).
  reflexivity.
Defined.

(** X11.  [getEntities], fetch included, never returns more than 1000
    entities, and no two of them with the same uid. *)
Theorem getEntities_at_most_1000
    (fetchOne : string -> Client.result (option Client.RawEvent))
    (fetchAll : string -> Client.result (list (option Client.RawEvent)))
    (types teams roles : option (list string)) (now : Z) :
  (List.length (ClientFetch.getEntities fetchOne fetchAll types teams roles now)
   <= 1000)%nat /\
  NoDup (map Client.e_uid
           (ClientFetch.getEntities fetchOne fetchAll types teams roles now)).
Proof.
  unfold ClientFetch.getEntities.
  set (q := ClientFetch.mkQuery types None (Some 1000)).
  destruct (reconcile_ok teams roles now
              (ClientFetch.getCotEvents fetchOne fetchAll q)) as [[Hnd Hall] Hlen].
  pose proof (getCotEvents_length fetchOne fetchAll q 1000 eq_refl ltac:(lia)) as Hk.
  unfold Client.getEntities. split.
  - unfold Client.map_values. rewrite length_map.
    change (Z.to_nat 1000) with 1000%nat in Hk. lia.
  - rewrite (values_uids teams roles now _ _ Hall). exact Hnd.
Qed.

(** ** Nearest-neighbour queries: what is kept, what fails, the statistics *)

Lemma map_result_length {A B : Type} (f : A -> Client.result B)
    (l : list A) (ys : list B) :
  FindNearest.map_result f l = Client.Ok ys -> List.length ys = List.length l.
Proof.
  intro H. apply map_result_Forall2 in H. symmetry. exact (Forall2_length H).
Qed.

Lemma map_result_throws {A B : Type} (f : A -> Client.result B)
    (msg : string) (l : list A) (x : A) :
  (forall y m, f y = Client.Throw m -> m = msg) ->
  In x l -> f x = Client.Throw msg ->
  FindNearest.map_result f l = Client.Throw msg.
Proof.
  intros Hall Hin Hx. induction l as [|y l IH]; [destruct Hin|].
  cbn [FindNearest.map_result]. destruct (f y) as [b|m] eqn:Ey.
  - destruct Hin as [->|Hin]; [congruence|]. now rewrite (IH Hin).
  - now rewrite (Hall y m Ey).
Qed.

Lemma filter_length_le {A : Type} (p : A -> bool) (l : list A) :
  (List.length (filter p l) <= List.length l)%nat.
Proof.
  induction l as [|x l IH]; simpl; [lia|]. destruct (p x); simpl; lia.
Qed.

Lemma slice0_length_le {A : Type} (l : list A) (k : Z) :
  (List.length (JS.slice0 l k) <= List.length l)%nat.
Proof.
  destruct (slice0_firstn l k) as (n & -> & _). rewrite length_firstn. lia.
Qed.

Lemma nearestOf_length (params : FindNearest.Params)
    (items : list FindNearest.Nearest) :
  (List.length (FindNearest.nearestOf params items) <= List.length items)%nat.
Proof.
  unfold FindNearest.nearestOf.
  etransitivity; [apply slice0_length_le|].
  rewrite (Permutation_length (sort_by_perm FindNearest.distance _)).
  unfold FindNearest.withinMax.
  destruct (FindNearest.maxDistance params) as [m|]; [|lia].
  destruct (Qeq_bool m 0); [lia|apply filter_length_le].
Qed.

Section KeptEntities.
Import Client FindNearest.
Variable type_matches : string -> option string -> bool.
Variable now : Z.

(** What the filters of lines 86-118 let through: entities of the store,
    none of them the reference entity, each of a wanted type, each fresh
    unless [excludeStale] is false. *)
Definition kept (params : Params) (allEntities : list TAKEntity) (e : TAKEntity)
  : Prop :=
  In e allEntities /\
  (forall id, point_entityId params = Some id -> id <> ""%string ->
     e_uid e <> Some id) /\
  (forall p ps, entityTypes params = Some (p :: ps) ->
     exists pat, In pat (p :: ps) /\ type_matches pat (e_type e) = true) /\
  (excludeStale params <> Some false -> fresh now e = true).

Lemma filterEntities_kept (params : Params) (allEntities : list TAKEntity)
    (e : TAKEntity) :
  In e (filterEntities type_matches now params allEntities) ->
  kept params allEntities e.
Proof.
  unfold filterEntities. cbv zeta.
  set (l1 := match point_entityId params with
             | Some (String c r) => filter _ allEntities
             | _ => allEntities
             end).
  set (l2 := match entityTypes params with
             | Some (p :: ps) => filter _ l1
             | _ => l1
             end).
  intro H.
  assert (H2 : In e l2 /\ (excludeStale params <> Some false -> fresh now e = true)).
  { destruct (excludeStale params) as [[|]|];
      try (apply filter_In in H; destruct H as [H Hf]; split; [exact H|now intros _]).
    split; [exact H|]. intro Hc. now elim Hc. }
  destruct H2 as [H2 Hfresh].
  assert (H1 : In e l1 /\
               (forall p ps, entityTypes params = Some (p :: ps) ->
                  exists pat, In pat (p :: ps) /\ type_matches pat (e_type e) = true)).
  { subst l2. destruct (entityTypes params) as [[|p ps]|].
    - split; [exact H2|discriminate].
    - apply filter_In in H2. destruct H2 as [H2 Hex]. split; [exact H2|].
      intros p' ps' [= <- <-]. apply existsb_exists in Hex. exact Hex.
    - split; [exact H2|discriminate]. }
  destruct H1 as [H1 Htypes].
  assert (H0 : In e allEntities /\
               (forall id, point_entityId params = Some id -> id <> ""%string ->
                  e_uid e <> Some id)).
  { subst l1. destruct (point_entityId params) as [[|c r]|].
    - split; [exact H1|]. intros id [= <-] Hne. now elim Hne.
    - apply filter_In in H1. destruct H1 as [H1 Hn]. split; [exact H1|].
      intros id [= <-] _ E. rewrite E in Hn. cbn [key_eqb] in Hn.
      now rewrite String.eqb_refl in Hn.
    - split; [exact H1|discriminate]. }
  destruct H0 as [H0 Hid].
  repeat split; assumption.
Qed.

Lemma filterEntities_length (params : Params) (allEntities : list TAKEntity) :
  (List.length (filterEntities type_matches now params allEntities)
   <= List.length allEntities)%nat.
Proof.
  unfold filterEntities. cbv zeta.
  set (l1 := match point_entityId params with
             | Some (String c r) => filter _ allEntities
             | _ => allEntities
             end).
  set (l2 := match entityTypes params with
             | Some (p :: ps) => filter _ l1
             | _ => l1
             end).
  assert (H1 : (List.length l1 <= List.length allEntities)%nat).
  { subst l1. destruct (point_entityId params) as [[|c r]|];
      try lia. apply filter_length_le. }
  assert (H2 : (List.length l2 <= List.length l1)%nat).
  { subst l2. destruct (entityTypes params) as [[|p ps]|];
      try lia. apply filter_length_le. }
  destruct (excludeStale params) as [[|]|];
    try (etransitivity; [apply filter_length_le|]); lia.
Qed.

End KeptEntities.

(** The uid a result shows, with or without details. *)
Definition view_uid (v : FindNearest.EntityView) : option string :=
  match v with
  | FindNearest.Full e => Client.e_uid e
  | FindNearest.Brief u _ _ => u
  end.

Lemma withDistance_view (dist brg : FindNearest.position -> FindNearest.position -> Q)
    (params : FindNearest.Params) (ref : FindNearest.position)
    (e : Client.TAKEntity) (r : FindNearest.Nearest) :
  FindNearest.withDistance dist brg params ref e = Client.Ok r ->
  view_uid (FindNearest.entity r) = Client.e_uid e /\
  FindNearest.lat r = Client.loc_lat (Client.location e) /\
  FindNearest.lon r = Client.loc_lon (Client.location e) /\
  (exists x y, Client.loc_lon (Client.location e) = JS.Num x /\
               Client.loc_lat (Client.location e) = JS.Num y /\
               FindNearest.distance r = JS.Math_round (dist ref (x, y)) /\
               FindNearest.bearing r = JS.Math_round (brg ref (x, y))).
Proof.
  unfold FindNearest.withDistance, FindNearest.turf_point.
  destruct (Client.loc_lon (Client.location e)) as [|x]; [discriminate|].
  destruct (Client.loc_lat (Client.location e)) as [|y]; [discriminate|].
  intros [= <-]. cbn [FindNearest.entity FindNearest.lat FindNearest.lon
                      FindNearest.distance FindNearest.bearing].
  split; [destruct (FindNearest.includeDetails params) as [[|]|]; reflexivity|].
  split; [reflexivity|]. split; [reflexivity|]. now exists x, y.
Qed.

Lemma Forall2_In_r {A B : Type} (R : A -> B -> Prop) (l : list A) (l' : list B)
    (y : B) :
  Forall2 R l l' -> In y l' -> exists x, In x l /\ R x y.
Proof.
  induction 1 as [|a b l l' Hab _ IH]; intros Hin; [destruct Hin|].
  destruct Hin as [<-|Hin].
  - exists a. split; [now left|exact Hab].
  - destruct (IH Hin) as (x & Hx & Hr). exists x. split; [now right|exact Hr].
Qed.

(** X12.  Every result of a nearest-neighbour query describes an entity
    of the store, at that entity's location.  The entity is never the
    reference entity itself, it matches one of the type patterns when patterns are
    given, and it was updated less than 300 seconds ago unless
    [excludeStale] is false. *)
Theorem results_are_kept_entities
    (dist brg : FindNearest.position -> FindNearest.position -> Q)
    (tm : string -> option string -> bool) (now : Z)
    (params : FindNearest.Params) (allEntities : list Client.TAKEntity)
    (results : list FindNearest.Nearest) :
  FindNearest.handler dist brg tm now params allEntities = Client.Ok results ->
  Forall (fun r =>
            exists e, kept tm now params allEntities e /\
              view_uid (FindNearest.entity r) = Client.e_uid e /\
              FindNearest.lat r = Client.loc_lat (Client.location e) /\
              FindNearest.lon r = Client.loc_lon (Client.location e))
         results.
Proof.
  unfold FindNearest.handler.
  destruct (FindNearest.referenceCoords params allEntities) as [[rlat rlon]|];
    [|discriminate].
  destruct (FindNearest.turf_point rlon rlat) as [ref|]; [|discriminate].
  destruct (FindNearest.map_result _ _) as [items|] eqn:E; [|discriminate].
  intros [= <-]. apply map_result_Forall2 in E.
  apply Forall_forall. intros r Hr.
  destruct (nearestOf_properties params items) as (_ & _ & _ & Hincl & _).
  apply Hincl in Hr. destruct (Forall2_In_r _ _ _ _ E Hr) as (e & He & Hw).
  exists e. split; [now apply filterEntities_kept|].
  destruct (withDistance_view _ _ _ _ _ _ Hw) as (Hu & Hla & Hlo & _).
  now repeat split.
Qed.

(** X13.  One entity without numeric coordinates fails the whole query:
    if an entity that passes the filters has a latitude or longitude that
    is not a number, a query from given coordinates answers with the
    error of [turf.point] and returns no result at all. *)
Theorem entity_without_coordinates_fails_the_query
    (dist brg : FindNearest.position -> FindNearest.position -> Q)
    (tm : string -> option string -> bool) (now : Z)
    (params : FindNearest.Params) (allEntities : list Client.TAKEntity)
    (c : Q * Q) (e : Client.TAKEntity) :
  FindNearest.point_coordinates params = Some c ->
  In e (FindNearest.filterEntities tm now params allEntities) ->
  Client.loc_lat (Client.location e) = JS.NaN \/
  Client.loc_lon (Client.location e) = JS.NaN ->
  FindNearest.handler dist brg tm now params allEntities =
  Client.Throw "coordinates must contain numbers".
Proof.
  intros Hc Hin Hnan. unfold FindNearest.handler, FindNearest.referenceCoords.
  rewrite Hc. destruct c as [la lo]. cbn [FindNearest.turf_point].
  rewrite (map_result_throws _ "coordinates must contain numbers" _ e);
    [reflexivity| |exact Hin|].
  - intros y m. unfold FindNearest.withDistance, FindNearest.turf_point.
    destruct (Client.loc_lon (Client.location y)),
             (Client.loc_lat (Client.location y)); congruence.
  - unfold FindNearest.withDistance, FindNearest.turf_point.
    destruct Hnan as [-> | ->]; [|reflexivity].
    now destruct (Client.loc_lon (Client.location e)).
Qed.

(** *** The statistics *)

Lemma Math_round_above (M : Z) (d : Q) :
  (inject_Z M <= d)%Q -> M <= JS.Math_round d.
Proof.
  intro H. destruct (Math_round_bounds d) as [_ Hhi].
  assert (Hlt : (inject_Z M < inject_Z (JS.Math_round d + 1))%Q).
  { rewrite inject_Z_plus. change (inject_Z 1) with 1%Q. Lqa.lra. }
  rewrite <- Zlt_Qlt in Hlt. lia.
Qed.

Lemma Math_round_mean_above (lo total : Z) (n : nat) :
  (0 < n)%nat -> Z.of_nat n * lo <= total ->
  lo <= JS.Math_round (inject_Z total / inject_Z (Z.of_nat n)).
Proof.
  intros Hn Hlo.
  assert (Hpos : (0 < inject_Z (Z.of_nat n))%Q).
  { change 0%Q with (inject_Z 0). rewrite <- Zlt_Qlt. lia. }
  apply Math_round_above. apply Qle_shift_div_l; [exact Hpos|].
  rewrite <- inject_Z_mult, <- Zle_Qle. lia.
Qed.

Lemma Math_round_mean_below (hi total : Z) (n : nat) :
  (0 < n)%nat -> total <= Z.of_nat n * hi ->
  JS.Math_round (inject_Z total / inject_Z (Z.of_nat n)) <= hi.
Proof.
  intros Hn Hhi.
  assert (Hpos : (0 < inject_Z (Z.of_nat n))%Q).
  { change 0%Q with (inject_Z 0). rewrite <- Zlt_Qlt. lia. }
  apply Math_round_below_half.
  apply Qle_lt_trans with (inject_Z hi); [|Lqa.lra].
  apply Qle_shift_div_r; [exact Hpos|].
  rewrite <- inject_Z_mult, <- Zle_Qle. lia.
Qed.

Section SortedEnds.
Context {A : Type} (key : A -> Z).

Lemma fold_sum_lower (lo : Z) (l : list A) (a : Z) :
  (forall r, In r l -> lo <= key r) ->
  a + Z.of_nat (List.length l) * lo <= fold_left (fun sum r => sum + key r) l a.
Proof.
  revert a. induction l as [|x l IH]; intros a H; cbn [fold_left List.length].
  - lia.
  - pose proof (H x (or_introl eq_refl)) as Hx.
    pose proof (IH (a + key x) (fun r Hr => H r (or_intror Hr))) as Hr.
    lia.
Qed.

Lemma fold_sum_upper (hi : Z) (l : list A) (a : Z) :
  (forall r, In r l -> key r <= hi) ->
  fold_left (fun sum r => sum + key r) l a <= a + Z.of_nat (List.length l) * hi.
Proof.
  revert a. induction l as [|x l IH]; intros a H; cbn [fold_left List.length].
  - lia.
  - pose proof (H x (or_introl eq_refl)) as Hx.
    pose proof (IH (a + key x) (fun r Hr => H r (or_intror Hr))) as Hr.
    lia.
Qed.

Lemma at_index_first (l : list A) (f : A) :
  FindNearestStats.at_index l 0 = Some f -> exists rest, l = f :: rest.
Proof.
  unfold FindNearestStats.at_index. cbn. destruct l as [|x l]; [discriminate|].
  intros [= ->]. now exists l.
Qed.

Lemma at_index_last (l : list A) (g : A) :
  FindNearestStats.at_index l (Z.of_nat (List.length l) - 1) = Some g ->
  exists front, l = front ++ [g].
Proof.
  unfold FindNearestStats.at_index.
  destruct (Z.ltb_spec (Z.of_nat (List.length l) - 1) 0) as [|Hge]; [discriminate|].
  replace (Z.to_nat (Z.of_nat (List.length l) - 1)) with (List.length l - 1)%nat by lia.
  destruct (exists_last (l := l)) as (front & x & ->).
  { intros ->. cbn in Hge. lia. }
  rewrite length_app. cbn [List.length].
  replace (List.length front + 1 - 1)%nat with (List.length front) by lia.
  rewrite nth_error_app2, Nat.sub_diag by lia. cbn. intros [= ->].
  now exists front.
Qed.

Lemma sorted_first (f : A) (rest : list A) :
  StronglySorted (by_key key) (f :: rest) ->
  forall r, In r (f :: rest) -> key f <= key r.
Proof.
  intros H r [<-|Hr]; [lia|]. inversion H as [|? ? _ Hall]; subst.
  rewrite Forall_forall in Hall. exact (Hall r Hr).
Qed.

Lemma sorted_last (front : list A) (g : A) :
  StronglySorted (by_key key) (front ++ [g]) ->
  forall r, In r (front ++ [g]) -> key r <= key g.
Proof.
  induction front as [|x front IH]; cbn [app]; intros H r Hr.
  - destruct Hr as [<-|[]]. lia.
  - inversion H as [|? ? Hs Hall]; subst. destruct Hr as [<-|Hr].
    + rewrite Forall_forall in Hall. apply Hall. apply in_or_app. right. now left.
    + now apply IH.
Qed.

End SortedEnds.

(** X14.  The statistics of a nearest-neighbour answer are consistent
    with its results: no more results than entities kept by the filters,
    no more of these than entities in the store; the average distance is
    there exactly when there is a result, and it lies between the nearest
    and the farthest distance.  A nearest distance of 0 is reported as
    null. *)
Theorem stats_are_consistent
    (dist brg : FindNearest.position -> FindNearest.position -> Q)
    (tm : string -> option string -> bool) (now : Z)
    (params : FindNearest.Params) (allEntities : list Client.TAKEntity)
    (results : list FindNearest.Nearest) (st : FindNearestStats.Stats) :
  FindNearestStats.answer dist brg tm now params allEntities = Client.Ok (results, st) ->
  FindNearest.handler dist brg tm now params allEntities = Client.Ok results /\
  FindNearestStats.resultsReturned st = List.length results /\
  (FindNearestStats.resultsReturned st <= FindNearestStats.filteredEntities st
   <= FindNearestStats.totalEntities st)%nat /\
  (FindNearestStats.averageDistance st = None <-> results = []) /\
  (forall a, FindNearestStats.averageDistance st = Some a ->
     (forall n, FindNearestStats.nearestDistance st = Some n -> n <= a) /\
     (forall f, FindNearestStats.farthestDistance st = Some f -> a <= f)) /\
  (forall r rest, results = r :: rest -> FindNearest.distance r = 0 ->
     FindNearestStats.nearestDistance st = None).
Proof.
  unfold FindNearestStats.answer, FindNearest.handler.
  destruct (FindNearest.referenceCoords params allEntities) as [[rlat rlon]|];
    [|discriminate].
  destruct (FindNearest.turf_point rlon rlat) as [ref|]; [|discriminate].
  cbv zeta.
  destruct (FindNearest.map_result _ _) as [items|] eqn:E; [|discriminate].
  intros [= <- <-].
  set (results := FindNearest.nearestOf params items).
  assert (Hsorted : StronglySorted (by_key FindNearest.distance) results)
    by apply nearestOf_properties.
  cbn [FindNearestStats.statsOf FindNearestStats.resultsReturned
       FindNearestStats.filteredEntities FindNearestStats.totalEntities
       FindNearestStats.averageDistance FindNearestStats.nearestDistance
       FindNearestStats.farthestDistance].
  split; [reflexivity|]. split; [reflexivity|]. split; [split|].
  - rewrite <- (map_result_length _ _ _ E). apply nearestOf_length.
  - apply filterEntities_length.
  - split; [|split].
    + destruct results as [|r rest]; cbn; [tauto|].
      split; discriminate.
    + intros a Ha.
      destruct (Nat.ltb_spec 0 (List.length results)) as [Hn|]; [|discriminate].
      injection Ha as <-. split.
      * intros n Hn'. unfold FindNearestStats.distance_or_null in Hn'.
        destruct (FindNearestStats.at_index results 0) as [f|] eqn:Ef;
          [|discriminate].
        destruct (FindNearest.distance f =? 0); [discriminate|].
        injection Hn' as <-.
        destruct (at_index_first _ _ Ef) as (rest & Hl).
        apply Math_round_mean_above; [exact Hn|].
        pose proof (fold_sum_lower FindNearest.distance (FindNearest.distance f)
                      results 0) as Hsum.
        rewrite Z.add_0_l in Hsum. apply Hsum.
        rewrite Hl in *. now apply sorted_first.
      * intros g Hg. unfold FindNearestStats.distance_or_null in Hg.
        destruct (FindNearestStats.at_index results _) as [l|] eqn:El;
          [|discriminate].
        destruct (FindNearest.distance l =? 0); [discriminate|].
        injection Hg as <-.
        destruct (at_index_last _ _ El) as (front & Hl).
        apply Math_round_mean_below; [exact Hn|].
        pose proof (fold_sum_upper FindNearest.distance (FindNearest.distance l)
                      results 0) as Hsum.
        rewrite Z.add_0_l in Hsum. apply Hsum.
        rewrite Hl in *. now apply sorted_last.
    + intros r rest -> Hr. cbn. now rewrite Hr.
Qed.

(** *** Compass directions *)

Lemma rem_360_range (x : Q) :
  (0 <= x)%Q -> (0 <= JS.rem x 360 /\ JS.rem x 360 < 360)%Q.
Proof.
  intro H. unfold JS.rem, JS.trunc.
  assert (Hq : (0 <= x / 360)%Q) by (apply Qle_shift_div_l; Lqa.lra).
  apply Qle_bool_iff in Hq. rewrite Hq.
  pose proof (Qfloor_le (x / 360)) as L.
  pose proof (Qlt_floor (x / 360)) as U.
  rewrite inject_Z_plus in U. change (inject_Z 1) with 1%Q in U.
  assert (E : (x == 360 * (x / 360))%Q) by field.
  set (y := (x / 360)%Q) in *. set (f := inject_Z (Qfloor y)) in *.
  split; Lqa.lra.
Qed.

(** X15.  [getCompassDirection] names one of the sixteen directions for
    every bearing from -360 upward, so for every bearing [turf.bearing]
    returns; further down it may name none: at -400 the index is -2 and
    the direction undefined. *)
Theorem compass_direction_is_defined (b : Q) :
  ((-360 <= b)%Q ->
   exists d, FindNearest.getCompassDirection b = Some d /\
             In d FindNearest.directions) /\
  FindNearest.getCompassDirection (-400) = None.
Proof.
  split; [|reflexivity].
  intro H. unfold FindNearest.getCompassDirection. cbv zeta.
  destruct (rem_360_range (b + 360)) as [R0 R1]; [Lqa.lra|].
  set (r := JS.rem (b + 360) 360) in *.
  assert (I0 : 0 <= JS.Math_round (r / (45 # 2))).
  { apply Math_round_above. change (inject_Z 0) with 0%Q.
    apply Qle_shift_div_l; Lqa.lra. }
  assert (I1 : JS.Math_round (r / (45 # 2)) <= 16).
  { apply Math_round_below_half.
    apply Qlt_shift_div_r; [Lqa.lra|].
    change (inject_Z 16) with 16%Q. Lqa.lra. }
  set (index := JS.Math_round (r / (45 # 2))) in *.
  pose proof (Z.rem_bound_pos index 16 I0 ltac:(lia)) as [B0 B1].
  destruct (Z.ltb_spec (Z.rem index 16) 0) as [|_]; [lia|].
  destruct (nth_error FindNearest.directions (Z.to_nat (Z.rem index 16)))
    as [d|] eqn:E.
  - exists d. split; [reflexivity|]. exact (nth_error_In _ _ E).
  - apply nth_error_None in E.
    change (List.length FindNearest.directions) with 16%nat in E. lia.
Qed.

(** *** A store of three entities

    Two entities with coordinates and one whose event carried no
    latitude, with stand-ins for [turf.distance] (a length on a flat
    earth), for [turf.bearing] and for the type test. *)
Definition located (id : string) (la lo : JS.number) : Client.TAKEntity :=
  Client.toEntity 1000
    {| Client.uid := Some id;
       Client.type := Some "a-f-G-U-C"%string;
       Client.time := Some 1000;
       Client.start := Some 1000;
       Client.stale := Some 61000;
       Client.how := Some "m-g"%string;
       Client.point := {| Client.lat := la; Client.lon := lo;
                          Client.hae := JS.Num 5; Client.ce := JS.Num 9;
                          Client.le := JS.Num 9 |};
       Client.detail := None |}.

Definition flatDistance (a b : FindNearest.position) : Q :=
  111195 * (Qabs (fst b - fst a) + Qabs (snd b - snd a)).

Definition dueEast (a b : FindNearest.position) : Q := 90.

Definition sameType (pattern : string) (ty : option string) : bool :=
  Client.key_eqb (Some pattern) ty.

Definition threeEntities : list Client.TAKEntity :=
  [located "A" (JS.Num 0) (JS.Num (2 # 1000));
   located "B" (JS.Num 0) (JS.Num (1 # 1000));
   located "C" JS.NaN (JS.Num (3 # 1000))].

Definition fromB : FindNearest.Params :=
  {| FindNearest.point_entityId := Some "B"%string;
     FindNearest.point_coordinates := None;
     FindNearest.maxDistance := None;
     FindNearest.maxResults := None;
     FindNearest.entityTypes := Some ["a-f-G-U-C"%string];
     FindNearest.excludeStale := None;
     FindNearest.includeDetails := Some false |}.

Definition fromGreenwich : FindNearest.Params :=
  {| FindNearest.point_entityId := None;
     FindNearest.point_coordinates := Some (0, 0)%Q;
     FindNearest.maxDistance := None;
     FindNearest.maxResults := None;
     FindNearest.entityTypes := None;
     FindNearest.excludeStale := None;
     FindNearest.includeDetails := None |}.

Definition resultsOf {A : Type} (r : Client.result (list A)) : list A :=
  match r with
  | Client.Ok l => l
  | Client.Throw _ => []
  end.

Definition nearB : list FindNearest.Nearest :=
  resultsOf (FindNearest.handler flatDistance dueEast sameType 1000 fromB
               (firstn 2 threeEntities)).

Lemma results_are_kept_entities_witness :
  Forall (fun r =>
            exists e, kept sameType 1000 fromB (firstn 2 threeEntities) e /\
              view_uid (FindNearest.entity r) = Client.e_uid e /\
              FindNearest.lat r = Client.loc_lat (Client.location e) /\
              FindNearest.lon r = Client.loc_lon (Client.location e))
         nearB.
Proof.
  apply (results_are_kept_entities flatDistance dueEast sameType 1000 fromB
           (firstn 2 threeEntities) nearB).
  vm_compute. reflexivity.
Defined.

Lemma entity_without_coordinates_fails_the_query_witness :
  FindNearest.handler flatDistance dueEast sameType 1000
    fromGreenwich threeEntities =
  Client.Throw "coordinates must contain numbers".
Proof.
  apply (entity_without_coordinates_fails_the_query flatDistance dueEast sameType
           1000 fromGreenwich threeEntities (0, 0)%Q
           (located "C" JS.NaN (JS.Num (3 # 1000)))).
  - reflexivity.
  - vm_compute. right. right. left. reflexivity.
  - left. reflexivity.
Defined.

Definition answerB : list FindNearest.Nearest * FindNearestStats.Stats :=
  match FindNearestStats.answer flatDistance dueEast sameType 1000 fromB
          (firstn 2 threeEntities) with
  | Client.Ok a => a
  | Client.Throw _ => ([], FindNearestStats.statsOf [] [] [])
  end.

Lemma stats_are_consistent_witness :
  FindNearest.handler flatDistance dueEast sameType 1000 fromB
    (firstn 2 threeEntities) = Client.Ok (fst answerB) /\
  FindNearestStats.resultsReturned (snd answerB) = List.length (fst answerB) /\
  (FindNearestStats.resultsReturned (snd answerB)
   <= FindNearestStats.filteredEntities (snd answerB)
   <= FindNearestStats.totalEntities (snd answerB))%nat /\
  (FindNearestStats.averageDistance (snd answerB) = None <-> fst answerB = []) /\
  (forall a, FindNearestStats.averageDistance (snd answerB) = Some a ->
     (forall n, FindNearestStats.nearestDistance (snd answerB) = Some n -> n <= a) /\
     (forall f, FindNearestStats.farthestDistance (snd answerB) = Some f -> a <= f)) /\
  (forall r rest, fst answerB = r :: rest -> FindNearest.distance r = 0 ->
     FindNearestStats.nearestDistance (snd answerB) = None).
Proof.
  apply (stats_are_consistent flatDistance dueEast sameType 1000 fromB
           (firstn 2 threeEntities) (fst answerB) (snd answerB)).
  vm_compute. reflexivity.
Defined.

(** ** Geofence creation: the ring of a polygon and of a rectangle *)

(** X16.  A polygon or rectangle geofence that is created has a closed
    ring of at least four positions: the ring ends with the position it
    starts with.  For a polygon the ring is the vertices in the order
    given, each turned from [[lat, lon]] to [[lon, lat]], followed by the
    first of them. *)
Theorem created_ring_is_closed
    (turf_circle : CreateGeofence.position -> Q -> list CreateGeofence.position)
    (turf_destination : CreateGeofence.position -> Q -> Q -> CreateGeofence.position)
    (turf_centroid : list CreateGeofence.position -> CreateGeofence.position)
    (geofenceId : string) (params : CreateGeofence.Params)
    (g : CreateGeofence.Geofence) (cotUid : string) (cotPoint : Q * Q) :
  CreateGeofence.handler turf_circle turf_destination turf_centroid geofenceId params
    = CreateGeofence.Success g cotUid cotPoint ->
  CreateGeofence.g_type g <> "circle"%string ->
  (exists p middle,
     CreateGeofence.geometry g = p :: middle ++ [p] /\
     (2 <= List.length middle)%nat) /\
  (CreateGeofence.g_type g = "polygon"%string ->
   exists v vs,
     CreateGeofence.vertices (CreateGeofence.shape params) = Some (v :: vs) /\
     CreateGeofence.geometry g =
       map CreateGeofence.swap (v :: vs) ++ [CreateGeofence.swap v]).
Proof.
  unfold CreateGeofence.handler.
  destruct (CreateGeofence.makeGeometry turf_circle turf_destination
              (CreateGeofence.shape params)) as [ring|msg] eqn:E; [|discriminate].
  intros [= <- _ _]. cbn [CreateGeofence.g_type CreateGeofence.geometry].
  intro Hc. unfold CreateGeofence.makeGeometry in E.
  destruct (String.eqb_spec (CreateGeofence.shape_type (CreateGeofence.shape params))
              "circle") as [|_]; [contradiction|].
  destruct (String.eqb_spec (CreateGeofence.shape_type (CreateGeofence.shape params))
              "polygon") as [Hp|Hnp].
  - destruct (CreateGeofence.vertices (CreateGeofence.shape params)) as [vs|];
      [|discriminate].
    destruct (Nat.ltb_spec (List.length vs) 3) as [|Hlen]; [discriminate|].
    destruct vs as [|v vs]; [cbn in Hlen; lia|].
    injection E as <-. cbn [map firstn]. split.
    + exists (CreateGeofence.swap v), (map CreateGeofence.swap vs).
      split; [reflexivity|]. rewrite length_map. cbn in Hlen. lia.
    + intros _. now exists v, vs.
  - destruct (String.eqb (CreateGeofence.shape_type (CreateGeofence.shape params))
                "rectangle"); [|discriminate].
    destruct (CreateGeofence.center (CreateGeofence.shape params)) as [c|];
      [|discriminate].
    destruct (CreateGeofence.width (CreateGeofence.shape params)) as [w|];
      [|discriminate].
    destruct (CreateGeofence.height (CreateGeofence.shape params)) as [h|];
      [|discriminate].
    destruct (CreateGeofence.present (Some w) && CreateGeofence.present (Some h));
      [|discriminate].
    injection E as <-. split; [|intro Hp; contradiction].
    eexists. eexists [_; _; _]. split; [reflexivity|cbn; lia].
Qed.

Lemma created_ring_is_closed_witness :
  (exists p middle,
     [(1, 0); (1, 1); (0, 1); (1, 0)]%Q = p :: middle ++ [p] /\
     (2 <= List.length middle)%nat) /\
  ("polygon"%string = "polygon"%string ->
   exists v vs,
     Some [(0, 1); (1, 1); (1, 0)]%Q = Some (v :: vs) /\
     [(1, 0); (1, 1); (0, 1); (1, 0)]%Q =
       map CreateGeofence.swap (v :: vs) ++ [CreateGeofence.swap v]).
Proof.
  apply (created_ring_is_closed (fun _ _ => []) (fun p _ _ => p) (fun _ => (0, 0)%Q)
           "geofence-1" (shapeParams (polygonOf (Some [(0, 1); (1, 1); (1, 0)]%Q)))
           {| CreateGeofence.id := "geofence-1";
              CreateGeofence.g_name := "Perimeter";
              CreateGeofence.g_type := "polygon";
              CreateGeofence.geometry := [(1, 0); (1, 1); (0, 1); (1, 0)]%Q;
              CreateGeofence.g_triggers :=
                {| CreateGeofence.onEntry := Some true;
                   CreateGeofence.onExit := Some true;
                   CreateGeofence.onDwell := None |};
              CreateGeofence.g_monitorTypes := ["a-*"%string];
              CreateGeofence.g_alertLevel := "medium";
              CreateGeofence.g_active := true |}
           "geofence-1" (0, 0)%Q).
  - reflexivity.
  - discriminate.
Defined.

(** ** Movement analysis: headings, speeds, stops and anomalies *)

Lemma Qlt_bool_spec (a b : Q) :
  if JS.Qlt_bool a b then (a < b)%Q else (b <= a)%Q.
Proof.
  unfold JS.Qlt_bool. destruct (Qle_bool b a) eqn:E; cbn [negb].
  - now apply Qle_bool_iff.
  - apply Qnot_le_lt. intro H. apply Qle_bool_iff in H. congruence.
Qed.

Lemma headingChange_range (h0 h1 : Q) :
  (-180 <= h0 <= 180)%Q -> (-180 <= h1 <= 180)%Q ->
  (-180 <= AnalyzeMovement.headingChange h0 h1 <= 180)%Q.
Proof.
  intros H0 H1. unfold AnalyzeMovement.headingChange. cbv zeta.
  pose proof (Qlt_bool_spec 180 (h1 - h0)) as A.
  destruct (JS.Qlt_bool 180 (h1 - h0)).
  - pose proof (Qlt_bool_spec (h1 - h0 - 360) (-180)) as B.
    destruct (JS.Qlt_bool (h1 - h0 - 360) (-180)); Lqa.lra.
  - pose proof (Qlt_bool_spec (h1 - h0) (-180)) as B.
    destruct (JS.Qlt_bool (h1 - h0) (-180)); Lqa.lra.
Qed.

(** X17.  The change between two headings that lie between -180 and 180,
    as [turf.bearing] returns them, is brought back between -180 and 180,
    and it differs from the plain difference by a whole number of turns:
    none, one less or one more. *)
Theorem heading_change_is_normalized (h0 h1 : Q) :
  (-180 <= h0 <= 180)%Q -> (-180 <= h1 <= 180)%Q ->
  (-180 <= AnalyzeMovement.headingChange h0 h1 <= 180)%Q /\
  (AnalyzeMovement.headingChange h0 h1 == h1 - h0 \/
   AnalyzeMovement.headingChange h0 h1 == h1 - h0 - 360 \/
   AnalyzeMovement.headingChange h0 h1 == h1 - h0 + 360)%Q.
Proof.
  intros H0 H1. split; [now apply headingChange_range|].
  unfold AnalyzeMovement.headingChange. cbv zeta.
  pose proof (Qlt_bool_spec 180 (h1 - h0)) as A.
  destruct (JS.Qlt_bool 180 (h1 - h0)).
  - pose proof (Qlt_bool_spec (h1 - h0 - 360) (-180)) as B.
    destruct (JS.Qlt_bool (h1 - h0 - 360) (-180)); [Lqa.lra|].
    right. left. reflexivity.
  - pose proof (Qlt_bool_spec (h1 - h0) (-180)) as B.
    destruct (JS.Qlt_bool (h1 - h0) (-180)).
    + right. right. reflexivity.
    + left. reflexivity.
Qed.

Lemma heading_change_is_normalized_witness :
  (-180 <= AnalyzeMovement.headingChange 170 (-170) <= 180)%Q /\
  (AnalyzeMovement.headingChange 170 (-170) == -170 - 170 \/
   AnalyzeMovement.headingChange 170 (-170) == -170 - 170 - 360 \/
   AnalyzeMovement.headingChange 170 (-170) == -170 - 170 + 360)%Q.
Proof.
  apply (heading_change_is_normalized 170 (-170)); split; discriminate.
Defined.

Lemma steps_length {A : Type} (l : list A) :
  List.length (AnalyzeMovement.steps l) = (List.length l - 1)%nat.
Proof.
  induction l as [|a [|b l] IH]; cbn [AnalyzeMovement.steps List.length] in *;
    try reflexivity. rewrite IH. lia.
Qed.

Lemma steps_In {A : Type} (l : list A) (a b : A) :
  In (a, b) (AnalyzeMovement.steps l) -> In a l /\ In b l.
Proof.
  induction l as [|x [|y l] IH].
  - intros [].
  - intros [].
  - change (AnalyzeMovement.steps (x :: y :: l))
      with ((x, y) :: AnalyzeMovement.steps (y :: l)).
    intros [[= <- <-]|H].
    + split; [now left|right; now left].
    + destruct (IH H) as [Ha Hb]. split; now right.
Qed.

Lemma sum_from (l : list Q) (a : Q) :
  (fold_left Qplus l a == a + AnalyzeMovement.sum l)%Q.
Proof.
  unfold AnalyzeMovement.sum. revert a.
  induction l as [|x l IH]; intro a; cbn [fold_left]; [ring|].
  rewrite (IH (a + x)%Q), (IH (0 + x)%Q). ring.
Qed.

Lemma sum_cons (x : Q) (l : list Q) :
  (AnalyzeMovement.sum (x :: l) == x + AnalyzeMovement.sum l)%Q.
Proof.
  unfold AnalyzeMovement.sum at 1. cbn [fold_left]. rewrite sum_from. ring.
Qed.

Lemma count_succ (n : nat) :
  (inject_Z (Z.of_nat (S n)) == inject_Z (Z.of_nat n) + 1)%Q.
Proof. rewrite Nat2Z.inj_succ. unfold Z.succ. now rewrite inject_Z_plus. Qed.

Lemma sum_bounds (lo hi : Q) (l : list Q) :
  (forall x, In x l -> lo <= x <= hi)%Q ->
  (inject_Z (Z.of_nat (List.length l)) * lo <= AnalyzeMovement.sum l /\
   AnalyzeMovement.sum l <= inject_Z (Z.of_nat (List.length l)) * hi)%Q.
Proof.
  induction l as [|x l IH]; intro H.
  - cbn [List.length]. change (inject_Z (Z.of_nat 0)) with 0%Q.
    unfold AnalyzeMovement.sum. cbn [fold_left]. split; Lqa.lra.
  - destruct (IH (fun y Hy => H y (or_intror Hy))) as [L U].
    pose proof (H x (or_introl eq_refl)) as [Lx Ux].
    cbn [List.length]. rewrite sum_cons, count_succ.
    set (n := inject_Z (Z.of_nat (List.length l))) in *.
    set (s := AnalyzeMovement.sum l) in *.
    split; Lqa.lra.
Qed.

(** X18.  With headings between -180 and 180, the total heading change of
    a track is at most 180 degrees for each position after the second, so
    a track of fewer than four positions is never classified circular,
    whatever its shape. *)
Theorem short_track_is_never_circular
    (turf_bearing : AnalyzeMovement.position -> AnalyzeMovement.position -> Q)
    (turf_length : list AnalyzeMovement.position -> Q)
    (turf_bbox : list AnalyzeMovement.position -> Q * Q * Q * Q)
    (positions : list AnalyzeMovement.Position) :
  (forall a b, -180 <= turf_bearing a b <= 180)%Q ->
  (Qabs (AnalyzeMovement.totalHeadingChange
           (AnalyzeMovement.analysePattern turf_bearing turf_length turf_bbox positions))
   <= inject_Z (Z.of_nat (List.length positions - 2)) * 180)%Q /\
  ((List.length positions < 4)%nat ->
   AnalyzeMovement.movementType
     (AnalyzeMovement.analysePattern turf_bearing turf_length turf_bbox positions)
   = "linear"%string).
Proof.
  intro Hb. unfold AnalyzeMovement.analysePattern. cbv zeta.
  cbn [AnalyzeMovement.totalHeadingChange AnalyzeMovement.movementType].
  set (headings := map (fun s => turf_bearing (AnalyzeMovement.pt (fst s))
                                   (AnalyzeMovement.pt (snd s)))
                       (AnalyzeMovement.steps positions)).
  set (changes := map (fun hh => AnalyzeMovement.headingChange (fst hh) (snd hh))
                      (AnalyzeMovement.steps headings)).
  assert (Hh : forall h, In h headings -> (-180 <= h <= 180)%Q).
  { intros h Hin. apply in_map_iff in Hin. destruct Hin as (s & <- & _). apply Hb. }
  assert (Hc : forall x, In x changes -> (-180 <= x <= 180)%Q).
  { intros x Hin. apply in_map_iff in Hin. destruct Hin as ([h0 h1] & <- & Hs).
    apply steps_In in Hs. destruct Hs as [Hs0 Hs1]. cbn [fst snd].
    apply headingChange_range; now apply Hh. }
  assert (Hn : List.length changes = (List.length positions - 2)%nat).
  { unfold changes, headings. rewrite length_map, steps_length, length_map, steps_length.
    lia. }
  destruct (sum_bounds (-180) 180 changes Hc) as [L U]. rewrite Hn in L, U.
  assert (Habs : (Qabs (AnalyzeMovement.sum changes)
                  <= inject_Z (Z.of_nat (List.length positions - 2)) * 180)%Q).
  { apply Qabs_Qle_condition. split; Lqa.lra. }
  split; [exact Habs|]. intro Hlen.
  rewrite Qlt_bool_false; [reflexivity|].
  assert (Hk : (inject_Z (Z.of_nat (List.length positions - 2)) <= 1)%Q).
  { change 1%Q with (inject_Z 1). rewrite <- Zle_Qle. lia. }
  set (k := inject_Z (Z.of_nat (List.length positions - 2))) in *.
  Lqa.lra.
Qed.

Lemma short_track_is_never_circular_witness :
  (Qabs (AnalyzeMovement.totalHeadingChange
           (AnalyzeMovement.analysePattern dueEast (fun _ => 0%Q)
              (fun _ => (0, 0, 0, 0)%Q) track3))
   <= inject_Z (Z.of_nat (List.length track3 - 2)) * 180)%Q /\
  ((List.length track3 < 4)%nat ->
   AnalyzeMovement.movementType
     (AnalyzeMovement.analysePattern dueEast (fun _ => 0%Q)
        (fun _ => (0, 0, 0, 0)%Q) track3)
   = "linear"%string).
Proof.
  apply (short_track_is_never_circular dueEast (fun _ => 0%Q)
           (fun _ => (0, 0, 0, 0)%Q) track3).
  intros a b. unfold dueEast. split; discriminate.
Defined.

Lemma fold_Qmax_ge (r : list Q) (x y : Q) :
  y == x \/ In y r -> (y <= fold_left AnalyzeMovement.Qmax r x)%Q.
Proof.
  revert x y. induction r as [|z r IH]; intros x y H; cbn [fold_left].
  - destruct H as [->|[]]. apply Qle_refl.
  - assert (Hx : (x <= AnalyzeMovement.Qmax x z)%Q /\ (z <= AnalyzeMovement.Qmax x z)%Q).
    { unfold AnalyzeMovement.Qmax. destruct (Qle_bool x z) eqn:E.
      - apply Qle_bool_iff in E. split; [exact E|apply Qle_refl].
      - split; [apply Qle_refl|]. apply Qlt_le_weak, Qnot_le_lt.
        intro H'. apply Qle_bool_iff in H'. congruence. }
    destruct H as [H|[<-|H]].
    + apply Qle_trans with (AnalyzeMovement.Qmax x z).
      * rewrite H. apply Hx.
      * apply IH. left. reflexivity.
    + apply Qle_trans with (AnalyzeMovement.Qmax x z); [apply Hx|].
      apply IH. left. reflexivity.
    + apply IH. now right.
Qed.

Lemma fold_Qmin_le (r : list Q) (x y : Q) :
  y == x \/ In y r -> (fold_left AnalyzeMovement.Qmin r x <= y)%Q.
Proof.
  revert x y. induction r as [|z r IH]; intros x y H; cbn [fold_left].
  - destruct H as [->|[]]. apply Qle_refl.
  - assert (Hx : (AnalyzeMovement.Qmin x z <= x)%Q /\ (AnalyzeMovement.Qmin x z <= z)%Q).
    { unfold AnalyzeMovement.Qmin. destruct (Qle_bool x z) eqn:E.
      - apply Qle_bool_iff in E. split; [apply Qle_refl|exact E].
      - split; [|apply Qle_refl]. apply Qlt_le_weak, Qnot_le_lt.
        intro H'. apply Qle_bool_iff in H'. congruence. }
    destruct H as [H|[<-|H]].
    + apply Qle_trans with (AnalyzeMovement.Qmin x z).
      * apply IH. left. reflexivity.
      * rewrite H. apply Hx.
    + apply Qle_trans with (AnalyzeMovement.Qmin x z); [|apply Hx].
      apply IH. left. reflexivity.
    + apply IH. now right.
Qed.

Lemma fold_Qmin_In (r : list Q) (x : Q) :
  In (fold_left AnalyzeMovement.Qmin r x) (x :: r).
Proof.
  revert x. induction r as [|z r IH]; intro x; cbn [fold_left]; [now left|].
  destruct (IH (AnalyzeMovement.Qmin x z)) as [H|H].
  - rewrite <- H. unfold AnalyzeMovement.Qmin.
    destruct (Qle_bool x z); [now left|right; now left].
  - right. now right.
Qed.

Lemma fold_Qmax_In (r : list Q) (x : Q) :
  In (fold_left AnalyzeMovement.Qmax r x) (x :: r).
Proof.
  revert x. induction r as [|z r IH]; intro x; cbn [fold_left]; [now left|].
  destruct (IH (AnalyzeMovement.Qmax x z)) as [H|H].
  - rewrite <- H. unfold AnalyzeMovement.Qmax.
    destruct (Qle_bool x z); [right; now left|now left].
  - right. now right.
Qed.

Lemma minimum_least (l : list Q) (x : Q) :
  In x l -> (AnalyzeMovement.minimum l <= x)%Q.
Proof.
  destruct l as [|y r]; [intros []|]. cbn [AnalyzeMovement.minimum].
  intros [<-|H]; apply fold_Qmin_le; [left; reflexivity|now right].
Qed.

Lemma maximum_greatest (l : list Q) (x : Q) :
  In x l -> (x <= AnalyzeMovement.maximum l)%Q.
Proof.
  destruct l as [|y r]; [intros []|]. cbn [AnalyzeMovement.maximum].
  intros [<-|H]; apply fold_Qmax_ge; [left; reflexivity|now right].
Qed.

Lemma minimum_In (l : list Q) : l <> [] -> In (AnalyzeMovement.minimum l) l.
Proof. destruct l as [|y r]; [congruence|]. intros _. apply fold_Qmin_In. Qed.

Lemma maximum_In (l : list Q) : l <> [] -> In (AnalyzeMovement.maximum l) l.
Proof. destruct l as [|y r]; [congruence|]. intros _. apply fold_Qmax_In. Qed.

(** X19.  In every speed analysis the minimum and the maximum speed are
    speeds of steps of the track that take time, no such step is slower
    than the minimum or faster than the maximum, and so the minimum is at
    most the maximum; the three speeds and the total distance are 0 when
    no step of the track takes time. *)
Theorem speeds_are_ordered
    (turf_distance : AnalyzeMovement.position -> AnalyzeMovement.position -> Q)
    (positions : list AnalyzeMovement.Position) :
  let sp := AnalyzeMovement.analyseSpeed turf_distance positions in
  let timed := filter AnalyzeMovement.moving (AnalyzeMovement.steps positions) in
  let speed := fun s => AnalyzeMovement.speedOf turf_distance (fst s) (snd s) in
  (forall s, In s timed ->
     (AnalyzeMovement.minSpeed sp <= speed s /\
      speed s <= AnalyzeMovement.maxSpeed sp)%Q) /\
  (timed <> [] ->
   (exists s, In s timed /\ AnalyzeMovement.minSpeed sp = speed s) /\
   (exists s, In s timed /\ AnalyzeMovement.maxSpeed sp = speed s)) /\
  (AnalyzeMovement.minSpeed sp <= AnalyzeMovement.maxSpeed sp)%Q /\
  (timed = [] ->
   AnalyzeMovement.minSpeed sp = 0%Q /\ AnalyzeMovement.averageSpeed sp = 0%Q /\
   AnalyzeMovement.maxSpeed sp = 0%Q /\ AnalyzeMovement.totalDistance sp = 0%Q).
Proof.
  unfold AnalyzeMovement.analyseSpeed. cbv zeta.
  cbn [AnalyzeMovement.minSpeed AnalyzeMovement.averageSpeed
       AnalyzeMovement.maxSpeed AnalyzeMovement.totalDistance].
  set (timed := filter AnalyzeMovement.moving (AnalyzeMovement.steps positions)).
  set (speed := fun s : AnalyzeMovement.Position * AnalyzeMovement.Position =>
                  AnalyzeMovement.speedOf turf_distance (fst s) (snd s)).
  set (speeds := map speed timed).
  assert (Hne : timed <> [] -> speeds <> []).
  { unfold speeds. destruct timed; [congruence|discriminate]. }
  split; [|split; [|split]].
  - intros s Hs. apply (in_map speed) in Hs. fold speeds in Hs.
    split; [now apply minimum_least|now apply maximum_greatest].
  - intro H. apply Hne in H. split.
    + pose proof (minimum_In speeds H) as Hin. apply in_map_iff in Hin.
      destruct Hin as (s & E & Hs). exists s. now split.
    + pose proof (maximum_In speeds H) as Hin. apply in_map_iff in Hin.
      destruct Hin as (s & E & Hs). exists s. now split.
  - destruct speeds as [|x r] eqn:E; [discriminate|].
    rewrite <- E. apply maximum_greatest, minimum_In. rewrite E. discriminate.
  - intro H. unfold speeds. rewrite H. cbn. repeat split.
Qed.

(** *** Stops *)

Lemma steps_snoc {A : Type} (l : list A) (a b : A) :
  AnalyzeMovement.steps ((l ++ [a]) ++ [b]) =
  AnalyzeMovement.steps (l ++ [a]) ++ [(a, b)].
Proof.
  induction l as [|x l IH]; [reflexivity|].
  destruct l as [|y l].
  - reflexivity.
  - change (AnalyzeMovement.steps (((x :: y :: l) ++ [a]) ++ [b]))
      with ((x, y) :: AnalyzeMovement.steps (((y :: l) ++ [a]) ++ [b])).
    rewrite IH. reflexivity.
Qed.

Lemma sum_lower (lo : Q) (l : list Q) :
  (forall x, In x l -> lo <= x)%Q ->
  (inject_Z (Z.of_nat (List.length l)) * lo <= AnalyzeMovement.sum l)%Q.
Proof.
  induction l as [|x l IH]; intro H.
  - cbn [List.length]. change (inject_Z (Z.of_nat 0)) with 0%Q.
    unfold AnalyzeMovement.sum. cbn [fold_left]. Lqa.lra.
  - pose proof (IH (fun y Hy => H y (or_intror Hy))) as L.
    pose proof (H x (or_introl eq_refl)) as Lx.
    cbn [List.length]. rewrite sum_cons, count_succ.
    set (n := inject_Z (Z.of_nat (List.length l))) in *.
    set (s := AnalyzeMovement.sum l) in *.
    Lqa.lra.
Qed.

Section StopInvariants.
Import AnalyzeMovement.
Variable turf_distance : position -> position -> Q.
Variable turf_center : list position -> position.

(** Every step along [ps] is shorter than the stop threshold. *)
Definition all_near (ps : list Position) : Prop :=
  Forall (fun s => (turf_distance (pt (fst s)) (pt (snd s)) < stopThreshold)%Q)
         (steps ps).

(** The candidate stop while the loop stands at position [x]: it runs
    from its first position to [x]. *)
Definition candidate_at (c : Candidate) (x : Position) : Prop :=
  exists p ps,
    c_positions c = (p :: ps) ++ [x] /\ c_startTime c = time p /\
    c_location c = p /\ c_endTime c = time x /\ all_near (c_positions c).

(** What holds of a stop that is reported. *)
Definition reported (s : Stop) : Prop :=
  (exists p ps q,
     positions s = (p :: ps) ++ [q] /\ startTime s = time p /\
     location s = p /\ endTime s = time q) /\
  all_near (positions s) /\
  duration s = (endTime s - startTime s) # 1000 /\
  (stopDuration <= duration s)%Q /\
  center s = turf_center (map pt (positions s)).

Lemma stopStep_invariant (stops : list Stop) (cur : option Candidate)
    (a b : Position) :
  Forall reported stops ->
  (forall c, cur = Some c -> candidate_at c a) ->
  Forall reported (fst (stopStep turf_distance turf_center (stops, cur) (a, b))) /\
  (forall c, snd (stopStep turf_distance turf_center (stops, cur) (a, b)) = Some c ->
     candidate_at c b).
Proof.
  intros Hs Hc. unfold stopStep.
  pose proof (Qlt_bool_spec (turf_distance (pt a) (pt b)) stopThreshold) as Hnear.
  destruct (JS.Qlt_bool (turf_distance (pt a) (pt b)) stopThreshold).
  - cbn [fst snd]. split; [exact Hs|]. intros c [= <-].
    destruct cur as [c0|].
    + destruct (Hc c0 eq_refl) as (p & ps & Hp & Hst & Hloc & Hend & Hall).
      exists p, (ps ++ [a]).
      cbn [c_positions c_startTime c_location c_endTime].
      repeat split; try assumption.
      * rewrite Hp. cbn [app]. now rewrite <- app_assoc.
      * unfold all_near in *. rewrite Hp in *.
        change ((p :: ps) ++ [a]) with (p :: ps ++ [a]) in *.
        change (p :: ps ++ [a]) with ((p :: ps) ++ [a]).
        rewrite steps_snoc. apply Forall_app. split; [exact Hall|].
        constructor; [exact Hnear|constructor].
    + exists a, []. cbn [c_positions c_startTime c_location c_endTime app].
      repeat split. unfold all_near. cbn [steps].
      constructor; [exact Hnear|constructor].
  - destruct cur as [c0|]; [|split; [exact Hs|discriminate]].
    destruct (Qle_bool stopDuration ((c_endTime c0 - c_startTime c0) # 1000)) eqn:Ed;
      cbn [fst snd]; [|split; [exact Hs|discriminate]].
    split; [|discriminate].
    apply Forall_app. split; [exact Hs|]. constructor; [|constructor].
    destruct (Hc c0 eq_refl) as (p & ps & Hp & Hst & Hloc & Hend & Hall).
    unfold reported. cbn [positions startTime location endTime duration center].
    split; [now exists p, ps, a|].
    split; [exact Hall|]. split; [reflexivity|].
    split; [now apply Qle_bool_iff|reflexivity].
Qed.

Lemma fold_stopStep_invariant (l : list Position) (x : Position)
    (stops : list Stop) (cur : option Candidate) :
  Forall reported stops ->
  (forall c, cur = Some c -> candidate_at c x) ->
  Forall reported
    (fst (fold_left (stopStep turf_distance turf_center) (steps (x :: l)) (stops, cur))).
Proof.
  revert x stops cur. induction l as [|y l IH]; intros x stops cur Hs Hc.
  - exact Hs.
  - change (steps (x :: y :: l)) with ((x, y) :: steps (y :: l)).
    cbn [fold_left].
    destruct (stopStep_invariant stops cur x y Hs Hc) as [Hs' Hc'].
    destruct (stopStep turf_distance turf_center (stops, cur) (x, y)) as [stops' cur'].
    now apply IH.
Qed.

Lemma analyseStops_reported (track : list Position) :
  Forall reported (stops (analyseStops turf_distance turf_center track)).
Proof.
  unfold analyseStops. cbv zeta. cbn [stops].
  destruct track as [|x l]; [constructor|].
  apply fold_stopStep_invariant; [constructor|discriminate].
Qed.

End StopInvariants.

(** X20.  Every stop the analysis reports lasted at least 300 seconds:
    its duration is the time from its first to its last position, it has
    at least two positions, each step between them is shorter than 50
    meters, and its centre is taken over these positions.  So the total
    stop time is at least 300 seconds for each stop counted. *)
Theorem reported_stops_are_long_and_tight
    (turf_distance : AnalyzeMovement.position -> AnalyzeMovement.position -> Q)
    (turf_center : list AnalyzeMovement.position -> AnalyzeMovement.position)
    (track : list AnalyzeMovement.Position) :
  let sa := AnalyzeMovement.analyseStops turf_distance turf_center track in
  Forall (fun s =>
            (exists p ps q,
               AnalyzeMovement.positions s = (p :: ps) ++ [q] /\
               AnalyzeMovement.startTime s = AnalyzeMovement.time p /\
               AnalyzeMovement.location s = p /\
               AnalyzeMovement.endTime s = AnalyzeMovement.time q) /\
            Forall (fun st =>
                      (turf_distance (AnalyzeMovement.pt (fst st))
                                     (AnalyzeMovement.pt (snd st)) < 50)%Q)
                   (AnalyzeMovement.steps (AnalyzeMovement.positions s)) /\
            AnalyzeMovement.duration s =
              (AnalyzeMovement.endTime s - AnalyzeMovement.startTime s) # 1000 /\
            (300 <= AnalyzeMovement.duration s)%Q /\
            AnalyzeMovement.center s =
              turf_center (map AnalyzeMovement.pt (AnalyzeMovement.positions s)))
         (AnalyzeMovement.stops sa) /\
  AnalyzeMovement.totalStops sa = List.length (AnalyzeMovement.stops sa) /\
  (inject_Z (Z.of_nat (AnalyzeMovement.totalStops sa)) * 300
   <= AnalyzeMovement.totalStopTime sa)%Q.
Proof.
  cbv zeta.
  pose proof (analyseStops_reported turf_distance turf_center track) as H.
  split; [exact H|]. split; [reflexivity|].
  unfold AnalyzeMovement.analyseStops in *. cbv zeta in *.
  cbn [AnalyzeMovement.stops AnalyzeMovement.totalStops
       AnalyzeMovement.totalStopTime] in *.
  rewrite <- (length_map AnalyzeMovement.duration). apply sum_lower.
  intros x Hx. apply in_map_iff in Hx. destruct Hx as (s & <- & Hs).
  rewrite Forall_forall in H. apply (H s Hs).
Qed.

(** *** Anomalies *)

Lemma flagged_fewer {A B : Type} (p q : A -> bool) (f : A -> B) (l : list A) :
  (List.length (flat_map (fun s => if p s && q s then [f s] else []) l)
   <= List.length (filter p l))%nat /\
  ((exists s, In s l /\ p s = true /\ q s = false) ->
   (List.length (flat_map (fun s => if p s && q s then [f s] else []) l)
    < List.length (filter p l))%nat).
Proof.
  induction l as [|x l [IH1 IH2]]; cbn [flat_map filter].
  - split; [cbn; lia|]. intros (s & [] & _).
  - rewrite length_app. destruct (p x) eqn:Ep; cbn [andb].
    + destruct (q x) eqn:Eq; cbn [List.length].
      * split; [lia|]. intros (s & [<-|Hs] & Hp & Hq); [congruence|].
        assert (H := IH2 (ex_intro _ s (conj Hs (conj Hp Hq)))). lia.
      * split; lia.
    + cbn [List.length]. split; [lia|].
      intros (s & [<-|Hs] & Hp & Hq); [congruence|].
      exact (IH2 (ex_intro _ s (conj Hs (conj Hp Hq)))).
Qed.

(** X21.  When the speed analysis is selected and a threshold is given,
    every anomaly reported is a step that takes time and whose speed
    exceeds the threshold, the average speed times one plus
    [anomalyThreshold]; the anomalies are counted, and there are no more
    of them than steps that take time. *)
Theorem anomalies_exceed_the_threshold
    (turf_distance : AnalyzeMovement.position -> AnalyzeMovement.position -> Q)
    (params : AnalyzeMovement.Params) (track : list AnalyzeMovement.Position)
    (th : Q) :
  AnalyzeMovement.anomalyThreshold params = Some th ->
  let sp := AnalyzeMovement.analyseSpeed turf_distance track in
  let an := AnalyzeMovement.analyseAnomaly turf_distance params (Some sp) track in
  Forall (fun a =>
            AnalyzeMovement.threshold a = (AnalyzeMovement.averageSpeed sp * (1 + th))%Q /\
            (AnalyzeMovement.threshold a < AnalyzeMovement.value a)%Q /\
            exists s, In s (AnalyzeMovement.steps track) /\
              AnalyzeMovement.moving s = true /\
              AnalyzeMovement.a_location a = snd s /\
              AnalyzeMovement.a_time a = AnalyzeMovement.time (snd s) /\
              AnalyzeMovement.value a =
                AnalyzeMovement.speedOf turf_distance (fst s) (snd s))
         (AnalyzeMovement.anomalies an) /\
  AnalyzeMovement.totalAnomalies an = List.length (AnalyzeMovement.anomalies an) /\
  (AnalyzeMovement.totalAnomalies an
   <= List.length (filter AnalyzeMovement.moving (AnalyzeMovement.steps track)))%nat.
Proof.
  intro Hth. cbv zeta. unfold AnalyzeMovement.analyseAnomaly. rewrite Hth. cbv zeta.
  cbn [AnalyzeMovement.anomalies AnalyzeMovement.totalAnomalies].
  set (avg := AnalyzeMovement.averageSpeed
                (AnalyzeMovement.analyseSpeed turf_distance track)).
  split; [|split; [reflexivity|]].
  - apply Forall_forall. intros a Ha. apply in_flat_map in Ha.
    destruct Ha as (s & Hs & Ha).
    destruct (AnalyzeMovement.moving s) eqn:Em; [|destruct Ha].
    pose proof (Qlt_bool_spec (avg * (1 + th))
                  (AnalyzeMovement.speedOf turf_distance (fst s) (snd s))) as Hlt.
    cbn [andb] in Ha.
    destruct (JS.Qlt_bool (avg * (1 + th))
                (AnalyzeMovement.speedOf turf_distance (fst s) (snd s)));
      [|destruct Ha].
    destruct Ha as [<-|[]].
    cbn [AnalyzeMovement.threshold AnalyzeMovement.value
         AnalyzeMovement.a_location AnalyzeMovement.a_time].
    split; [reflexivity|]. split; [exact Hlt|].
    exists s. now repeat split.
  - apply (flagged_fewer AnalyzeMovement.moving
             (fun s => JS.Qlt_bool (avg * (1 + th))
                         (AnalyzeMovement.speedOf turf_distance (fst s) (snd s)))).
Qed.

Lemma anomalies_exceed_the_threshold_witness :
  let sp := AnalyzeMovement.analyseSpeed flatDistance sprint in
  let an := AnalyzeMovement.analyseAnomaly flatDistance threshold08 (Some sp) sprint in
  Forall (fun a =>
            AnalyzeMovement.threshold a
              = (AnalyzeMovement.averageSpeed sp * (1 + (8 # 10)))%Q /\
            (AnalyzeMovement.threshold a < AnalyzeMovement.value a)%Q /\
            exists s, In s (AnalyzeMovement.steps sprint) /\
              AnalyzeMovement.moving s = true /\
              AnalyzeMovement.a_location a = snd s /\
              AnalyzeMovement.a_time a = AnalyzeMovement.time (snd s) /\
              AnalyzeMovement.value a =
                AnalyzeMovement.speedOf flatDistance (fst s) (snd s))
         (AnalyzeMovement.anomalies an) /\
  AnalyzeMovement.totalAnomalies an = List.length (AnalyzeMovement.anomalies an) /\
  (AnalyzeMovement.totalAnomalies an
   <= List.length (filter AnalyzeMovement.moving (AnalyzeMovement.steps sprint)))%nat.
Proof.
  apply (anomalies_exceed_the_threshold flatDistance threshold08 sprint (8 # 10)).
  reflexivity.
Defined.

(** ** Distance calculation: travel times and the batch mode *)

Lemma Math_round_mono (x y : Q) : (x <= y)%Q -> JS.Math_round x <= JS.Math_round y.
Proof.
  intro H. unfold JS.Math_round. apply Qfloor_resp_le. Lqa.lra.
Qed.

Lemma meters_nonneg (d : Q) (u : DistanceHandler.Units) :
  (0 <= d)%Q ->
  (0 <= match u with
        | CalculateDistance.meters => d
        | CalculateDistance.kilometers => d * 1000
        | CalculateDistance.miles => d * (160934 # 100)
        | CalculateDistance.nauticalmiles => d * 1852
        end)%Q.
Proof. intro H. destruct u; Lqa.lra. Qed.

(** X22.  The travel times estimated for a distance that is not negative
    are ordered: by helicopter at most by vehicle, by vehicle at most on
    foot, and none is negative; a distance of 0 takes 0 minutes in every
    mode. *)
Theorem travel_times_are_ordered (d : Q) (u : DistanceHandler.Units) :
  let t := DistanceHandler.calculateTravelTime d u in
  ((0 <= d)%Q ->
   0 <= DistanceHandler.helicopter t /\
   DistanceHandler.helicopter t <= DistanceHandler.vehicle t /\
   DistanceHandler.vehicle t <= DistanceHandler.walking t) /\
  ((d == 0)%Q ->
   DistanceHandler.walking t = 0 /\ DistanceHandler.vehicle t = 0 /\
   DistanceHandler.helicopter t = 0).
Proof.
  cbv zeta. unfold DistanceHandler.calculateTravelTime. cbv zeta.
  cbn [DistanceHandler.walking DistanceHandler.vehicle DistanceHandler.helicopter].
  set (m := match u with
            | CalculateDistance.meters => d
            | CalculateDistance.kilometers => (d * 1000)%Q
            | CalculateDistance.miles => (d * (160934 # 100))%Q
            | CalculateDistance.nauticalmiles => (d * 1852)%Q
            end).
  unfold Qdiv.
  change (/ (14 # 10))%Q with (10 # 14)%Q.
  change (/ (1667 # 100))%Q with (100 # 1667)%Q.
  change (/ (5556 # 100))%Q with (100 # 5556)%Q.
  change (/ 60)%Q with (1 # 60)%Q.
  split.
  - intro H. pose proof (meters_nonneg d u H) as Hm. fold m in Hm.
    split; [|split].
    + apply Math_round_above. change (inject_Z 0) with 0%Q. Lqa.lra.
    + apply Math_round_mono. Lqa.lra.
    + apply Math_round_mono. Lqa.lra.
  - intro H.
    assert (Hm : (m == 0)%Q) by (subst m; destruct u; rewrite H; reflexivity).
    repeat split; apply Math_round_unique; change (inject_Z 0) with 0%Q;
      rewrite Hm; Lqa.lra.
Qed.

Section BatchSort.
Import DistanceHandler.

Lemma insert_distance_perm (x : Measure) (l : list Measure) :
  Permutation (insert x l) (x :: l).
Proof.
  induction l as [|y l IH]; cbn [insert]; [reflexivity|].
  destruct (Qle_bool (m_distance x) (m_distance y)); [reflexivity|].
  rewrite IH. apply perm_swap.
Qed.

Lemma sort_by_distance_perm (l : list Measure) :
  Permutation (sort_by_distance l) l.
Proof.
  induction l as [|x l IH]; cbn [sort_by_distance]; [reflexivity|].
  rewrite insert_distance_perm. now constructor.
Qed.

Definition by_distance (a b : Measure) : Prop := (m_distance a <= m_distance b)%Q.

Lemma insert_distance_sorted (x : Measure) (l : list Measure) :
  StronglySorted by_distance l -> StronglySorted by_distance (insert x l).
Proof.
  induction 1 as [|y l Hs IH Hy]; cbn [insert].
  - repeat constructor.
  - destruct (Qle_bool (m_distance x) (m_distance y)) eqn:E.
    + apply Qle_bool_iff in E. constructor; [now constructor|].
      constructor; [exact E|].
      rewrite Forall_forall in *. intros z Hz. specialize (Hy z Hz).
      unfold by_distance in *. Lqa.lra.
    + assert (Hgt : (m_distance y <= m_distance x)%Q).
      { apply Qlt_le_weak, Qnot_le_lt. intro H'. apply Qle_bool_iff in H'. congruence. }
      constructor; [exact IH|].
      rewrite Forall_forall in *. intros z Hz.
      apply (Permutation_in z (insert_distance_perm x l)) in Hz.
      destruct Hz as [<-|Hz]; [exact Hgt|now apply Hy].
Qed.

Lemma sort_by_distance_sorted (l : list Measure) :
  StronglySorted by_distance (sort_by_distance l).
Proof.
  induction l as [|x l IH]; cbn [sort_by_distance];
    [constructor|now apply insert_distance_sorted].
Qed.

Lemma validResults_In (results : list Entry) (m : Measure) :
  In m (validResults results) <-> In (Measured m) results.
Proof.
  induction results as [|[m'|d e] results IH]; cbn [validResults In].
  - tauto.
  - rewrite IH. split; intros [H|H]; try tauto.
    + left. now f_equal.
    + left. now injection H.
  - rewrite IH. split; [tauto|]. intros [H|H]; [discriminate|exact H].
Qed.

Lemma validResults_length (results : list Entry) :
  (List.length (validResults results) <= List.length results)%nat.
Proof.
  induction results as [|[m'|d e] results IH]; cbn [validResults List.length]; lia.
Qed.

Lemma sorted_distance_first (f : Measure) (rest : list Measure) :
  StronglySorted by_distance (f :: rest) ->
  forall r, In r (f :: rest) -> (m_distance f <= m_distance r)%Q.
Proof.
  intros H r [<-|Hr]; [apply Qle_refl|]. inversion H as [|? ? _ Hall]; subst.
  rewrite Forall_forall in Hall. exact (Hall r Hr).
Qed.

Lemma sorted_distance_last (front : list Measure) (g : Measure) :
  StronglySorted by_distance (front ++ [g]) ->
  forall r, In r (front ++ [g]) -> (m_distance r <= m_distance g)%Q.
Proof.
  induction front as [|x front IH]; cbn [app]; intros H r Hr.
  - destruct Hr as [<-|[]]. apply Qle_refl.
  - inversion H as [|? ? Hs Hall]; subst. destruct Hr as [<-|Hr].
    + rewrite Forall_forall in Hall. apply Hall. apply in_or_app. right. now left.
    + now apply IH.
Qed.

End BatchSort.

(** X23.  In batch mode a destination that cannot be resolved never
    fails the call: when the origin resolves, the answer holds one entry
    for each destination, in order, an error entry for each destination
    that has no coordinates and names no known entity, a measure for each
    other.  [nearest] and [farthest] are measures of the batch with the
    least and the greatest distance, absent exactly when no destination
    resolved, and the count of successes never exceeds the total. *)
Theorem batch_isolates_failures
    (turf_distance : DistanceHandler.Units -> DistanceHandler.position ->
                     DistanceHandler.position -> Q)
    (turf_bearing : DistanceHandler.position -> DistanceHandler.position -> Q)
    (turf_midpoint : DistanceHandler.position -> DistanceHandler.position ->
                     DistanceHandler.position)
    (params : DistanceHandler.Params) (entities : list Client.TAKEntity)
    (origin : DistanceHandler.PointRef) (destinations : list DistanceHandler.PointRef)
    (flat flon : Q) :
  DistanceHandler.from params = Some origin ->
  DistanceHandler.to params = None ->
  DistanceHandler.batch params = Some destinations ->
  DistanceHandler.getCoordinates entities origin = Client.Ok (JS.Num flat, JS.Num flon) ->
  exists b,
    DistanceHandler.handler turf_distance turf_bearing turf_midpoint params entities
      = DistanceHandler.Many b /\
    List.length (DistanceHandler.distances b) = List.length destinations /\
    DistanceHandler.totalCalculations b = List.length destinations /\
    (DistanceHandler.successfulCalculations b <= DistanceHandler.totalCalculations b)%nat /\
    Forall2 (fun destination entry =>
               match DistanceHandler.getCoordinates entities destination with
               | Client.Throw m => entry = DistanceHandler.Failed destination m
               | Client.Ok (JS.Num _, JS.Num _) =>
                   exists m, entry = DistanceHandler.Measured m
               | Client.Ok _ => exists m, entry = DistanceHandler.Failed destination m
               end)
            destinations (DistanceHandler.distances b) /\
    (forall n, DistanceHandler.nearest b = Some n ->
       In (DistanceHandler.Measured n) (DistanceHandler.distances b) /\
       forall m, In (DistanceHandler.Measured m) (DistanceHandler.distances b) ->
         (DistanceHandler.m_distance n <= DistanceHandler.m_distance m)%Q) /\
    (forall f, DistanceHandler.farthest b = Some f ->
       In (DistanceHandler.Measured f) (DistanceHandler.distances b) /\
       forall m, In (DistanceHandler.Measured m) (DistanceHandler.distances b) ->
         (DistanceHandler.m_distance m <= DistanceHandler.m_distance f)%Q) /\
    (DistanceHandler.nearest b = None <->
     forall m, ~ In (DistanceHandler.Measured m) (DistanceHandler.distances b)).
Proof.
  intros Hfrom Hto Hbatch Horigin. unfold DistanceHandler.handler.
  rewrite Hfrom, Hto, Hbatch, Horigin. cbn [FindNearest.turf_point]. cbv zeta.
  set (u := match DistanceHandler.units params with
            | Some u => u
            | None => CalculateDistance.meters
            end).
  set (results := map (DistanceHandler.measure turf_distance turf_bearing entities u
                         (flon, flat)) destinations).
  set (valid := DistanceHandler.sort_by_distance (DistanceHandler.validResults results)).
  eexists. split; [reflexivity|].
  cbn [DistanceHandler.distances DistanceHandler.totalCalculations
       DistanceHandler.successfulCalculations DistanceHandler.nearest
       DistanceHandler.farthest].
  assert (Hperm : Permutation valid (DistanceHandler.validResults results))
    by apply sort_by_distance_perm.
  assert (Hsorted : StronglySorted by_distance valid)
    by apply sort_by_distance_sorted.
  assert (Hin : forall m, In m valid <-> In (DistanceHandler.Measured m) results).
  { intro m. rewrite <- validResults_In. split; intro H.
    - exact (Permutation_in m Hperm H).
    - exact (Permutation_in m (Permutation_sym Hperm) H). }
  split; [unfold results; apply length_map|]. split; [reflexivity|].
  split.
  { rewrite (Permutation_length Hperm).
    etransitivity; [apply validResults_length|].
    unfold results. now rewrite length_map. }
  split.
  { unfold results. clear. induction destinations as [|d ds IH]; cbn [map];
      constructor; [|exact IH].
    unfold DistanceHandler.measure.
    destruct (DistanceHandler.getCoordinates entities d) as [[tlat tlon]|m];
      [|reflexivity].
    destruct tlat as [|la], tlon as [|lo]; cbn [FindNearest.turf_point];
      eexists; reflexivity. }
  split; [|split].
  - intros n Hn. destruct (at_index_first _ _ Hn) as (rest & Hl).
    split; [apply Hin; rewrite Hl; now left|].
    intros m Hm. apply Hin in Hm. rewrite Hl in Hsorted, Hm.
    now apply (sorted_distance_first n rest).
  - intros f Hf. destruct (at_index_last _ _ Hf) as (front & Hl).
    split; [apply Hin; rewrite Hl; apply in_or_app; right; now left|].
    intros m Hm. apply Hin in Hm. rewrite Hl in Hsorted, Hm.
    now apply (sorted_distance_last front f).
  - split.
    + intros Hn m Hm. apply Hin in Hm. destruct valid as [|x r]; [destruct Hm|].
      discriminate.
    + intro Hnone. destruct valid as [|x r]; [reflexivity|].
      elim (Hnone x). apply Hin. now left.
Qed.

(** A batch from the origin to two points and to an entity the store
    does not know. *)
Definition toPoint (la lo : Q) : DistanceHandler.PointRef :=
  {| DistanceHandler.ref_entityId := None;
     DistanceHandler.ref_coordinates := Some (la, lo) |}.

Definition toEntityNamed (id : string) : DistanceHandler.PointRef :=
  {| DistanceHandler.ref_entityId := Some id;
     DistanceHandler.ref_coordinates := None |}.

Definition batchOfThree : DistanceHandler.Params :=
  {| DistanceHandler.from := Some (toPoint 0 0);
     DistanceHandler.to := None;
     DistanceHandler.units := None;
     DistanceHandler.batch :=
       Some [toPoint 0 (2 # 1000); toEntityNamed "GHOST"; toPoint 0 (1 # 1000)] |}.

Lemma batch_isolates_failures_witness :
  exists b,
    DistanceHandler.handler (fun _ => flatDistance) dueEast (fun a _ => a)
      batchOfThree [] = DistanceHandler.Many b /\
    List.length (DistanceHandler.distances b) = 3%nat /\
    DistanceHandler.totalCalculations b = 3%nat /\
    (DistanceHandler.successfulCalculations b <= DistanceHandler.totalCalculations b)%nat.
Proof.
  destruct (batch_isolates_failures (fun _ => flatDistance) dueEast (fun a _ => a)
              batchOfThree [] (toPoint 0 0)
              [toPoint 0 (2 # 1000); toEntityNamed "GHOST"; toPoint 0 (1 # 1000)]
              0%Q 0%Q eq_refl eq_refl eq_refl eq_refl)
    as (b & H1 & H2 & H3 & H4 & _).
  exists b. repeat split; assumption.
Defined.

(** ** Distance calculation: an origin that cannot be resolved *)

Lemma find_absent {A : Type} (p : A -> bool) (l : list A) :
  (forall x, In x l -> p x = false) -> find p l = None.
Proof.
  induction l as [|x l IH]; cbn [find]; intro H; [reflexivity|].
  rewrite (H x (or_introl eq_refl)). apply IH. intros y Hy. apply H. now right.
Qed.

(** X24.  An origin that cannot be resolved fails the call as a whole,
    in batch mode as in the single mode, whatever the destinations: an
    origin without coordinates that names an entity the store does not
    hold is reported as not found, one that names none as lacking both. *)
Theorem unresolved_origin_fails_the_call
    (turf_distance : DistanceHandler.Units -> DistanceHandler.position ->
                     DistanceHandler.position -> Q)
    (turf_bearing : DistanceHandler.position -> DistanceHandler.position -> Q)
    (turf_midpoint : DistanceHandler.position -> DistanceHandler.position ->
                     DistanceHandler.position)
    (params : DistanceHandler.Params) (entities : list Client.TAKEntity)
    (origin : DistanceHandler.PointRef) :
  DistanceHandler.from params = Some origin ->
  DistanceHandler.ref_coordinates origin = None ->
  (forall e, In e entities -> Client.e_uid e <> DistanceHandler.ref_entityId origin) ->
  DistanceHandler.handler turf_distance turf_bearing turf_midpoint params entities =
  DistanceHandler.Failure
    match DistanceHandler.ref_entityId origin with
    | Some (String c r) => "Entity " ++ String c r ++ " not found"
    | _ => "Either entityId or coordinates must be provided"
    end.
Proof.
  intros Hfrom Hc Hnone. unfold DistanceHandler.handler. rewrite Hfrom.
  unfold DistanceHandler.getCoordinates. rewrite Hc.
  destruct (DistanceHandler.ref_entityId origin) as [[|c r]|]; try reflexivity.
  rewrite find_absent; [reflexivity|].
  intros e He. apply key_eqb_neq. now apply Hnone.
Qed.

Lemma unresolved_origin_fails_the_call_witness :
  DistanceHandler.handler (fun _ => flatDistance) dueEast (fun a _ => a)
    {| DistanceHandler.from := Some (toEntityNamed "GHOST");
       DistanceHandler.to := None;
       DistanceHandler.units := None;
       DistanceHandler.batch := Some [toPoint 0 0; toPoint 0 1] |}
    (firstn 2 threeEntities) =
  DistanceHandler.Failure "Entity GHOST not found".
Proof.
  apply (unresolved_origin_fails_the_call (fun _ => flatDistance) dueEast
           (fun a _ => a)
           {| DistanceHandler.from := Some (toEntityNamed "GHOST");
              DistanceHandler.to := None;
              DistanceHandler.units := None;
              DistanceHandler.batch := Some [toPoint 0 0; toPoint 0 1] |}
           (firstn 2 threeEntities) (toEntityNamed "GHOST")).
  - reflexivity.
  - reflexivity.
  - intros e [<-|[<-|[]]]; discriminate.
Defined.

(** ** Grouping by key, and the summary of tak_get_entities *)

Section Grouping.
Import Client JSObject.
Context {A : Type}.

(** How many elements the groups hold. *)
Definition held (g : list (string * list A)) : nat :=
  list_sum (map (fun kv => List.length (snd kv)) g).

(** The groups of a well-made object: distinct keys, none inherited, no
    group empty. *)
Definition well_made (g : Groups A) : Prop :=
  NoDup (map fst g) /\
  Forall (fun kv => is_inherited (fst kv) = false /\ snd kv <> []) g.

Lemma own_None (acc : Groups A) (k : string) :
  own acc k = None -> ~ In k (map fst acc).
Proof.
  induction acc as [|[k' items] acc IH]; cbn [own map fst In]; [tauto|].
  destruct (String.eqb_spec k' k) as [->|Hne]; [discriminate|].
  intros H [E|Hin]; [congruence|]. now apply IH.
Qed.

Lemma own_Some (acc : Groups A) (k : string) (items : list A) :
  own acc k = Some items -> In (k, items) acc.
Proof.
  induction acc as [|[k' items'] acc IH]; cbn [own In]; [discriminate|].
  destruct (String.eqb_spec k' k) as [->|Hne].
  - intros [= ->]. now left.
  - intro H. right. now apply IH.
Qed.

Lemma push_keys (acc : Groups A) (k : string) (x : A) :
  map fst (push acc k x) = map fst acc.
Proof.
  induction acc as [|[k' items] acc IH]; cbn [push map fst]; [reflexivity|].
  destruct (String.eqb k' k); cbn [map fst]; [reflexivity|now rewrite IH].
Qed.

Lemma push_held (acc : Groups A) (k : string) (x : A) :
  In k (map fst acc) -> held (push acc k x) = S (held acc).
Proof.
  unfold held.
  induction acc as [|[k' items] acc IH]; cbn [push map fst snd In list_sum];
    [tauto|].
  destruct (String.eqb_spec k' k) as [->|Hne]; cbn [map snd list_sum].
  - intros _. rewrite length_app. cbn [List.length]. unfold list_sum.
    cbn [fold_right]. lia.
  - intros [E|Hin]; [congruence|]. unfold list_sum in *. cbn [fold_right].
    rewrite (IH Hin). lia.
Qed.

Lemma push_entries (acc : Groups A) (k : string) (x : A) :
  Forall (fun kv => is_inherited (fst kv) = false /\ snd kv <> []) acc ->
  Forall (fun kv => is_inherited (fst kv) = false /\ snd kv <> []) (push acc k x).
Proof.
  induction 1 as [|[k' items] acc [Hk Hne] Hall IH]; cbn [push]; [constructor|].
  cbn [fst snd] in *. destruct (String.eqb k' k).
  - constructor; [|exact Hall]. cbn [fst snd].
    split; [exact Hk|]. now destruct items.
  - constructor; [|exact IH]. cbn [fst snd]. now split.
Qed.

Lemma add_ok (acc acc' : Groups A) (k : string) (x : A) :
  add acc k x = Ok acc' -> well_made acc ->
  well_made acc' /\ held acc' = S (held acc).
Proof.
  unfold add. intros H [Hnd Hall].
  destruct (own acc k) as [items|] eqn:E.
  - injection H as <-. split; [split|].
    + now rewrite push_keys.
    + now apply push_entries.
    + apply push_held. apply own_Some in E.
      apply (in_map fst) in E. exact E.
  - destruct (is_inherited k) eqn:Ei; [discriminate|]. injection H as <-.
    split; [split|].
    + rewrite map_app. cbn [map fst]. apply NoDup_app; [exact Hnd| |].
      * repeat constructor. intros [].
      * intros y Hy [E'|[]]. subst y. now apply (own_None acc k).
    + apply Forall_app. split; [exact Hall|].
      constructor; [|constructor]. cbn [fst snd]. split; [exact Ei|discriminate].
    + unfold held. rewrite map_app, list_sum_app. cbn. lia.
Qed.

Lemma group_from_ok (key : A -> result string) (l : list A) (acc g : Groups A) :
  group_from key l acc = Ok g -> well_made acc ->
  well_made g /\ held g = (held acc + List.length l)%nat.
Proof.
  revert acc. induction l as [|x l IH]; cbn [group_from List.length]; intros acc H Hw.
  - injection H as <-. split; [exact Hw|lia].
  - destruct (key x) as [k|]; [|discriminate].
    destruct (add acc k x) as [acc'|] eqn:Ea; [|discriminate].
    destruct (add_ok _ _ _ _ Ea Hw) as [Hw' Hh].
    destruct (IH acc' H Hw') as [Hg Hhg]. split; [exact Hg|lia].
Qed.

Lemma group_from_throws (key : A -> result string) (l : list A) (acc : Groups A)
    (x : A) :
  In x l -> well_made acc ->
  match key x with
  | Throw _ => True
  | Ok k => is_inherited k = true
  end ->
  exists m, group_from key l acc = Throw m.
Proof.
  revert acc. induction l as [|y l IH]; intros acc Hin Hw Hx; [destruct Hin|].
  cbn [group_from]. destruct (key y) as [k|m] eqn:Ek; [|now exists m].
  destruct (add acc k y) as [acc'|m] eqn:Ea; [|now exists m].
  destruct Hin as [->|Hin].
  - rewrite Ek in Hx. unfold add in Ea.
    destruct (own acc k) as [items|] eqn:Eo.
    + apply own_Some in Eo. destruct Hw as [_ Hall].
      rewrite Forall_forall in Hall. destruct (Hall _ Eo) as [Hni _].
      cbn [fst] in Hni. congruence.
    + rewrite Hx in Ea. discriminate.
  - apply IH; [exact Hin| |exact Hx].
    exact (proj1 (add_ok _ _ _ _ Ea Hw)).
Qed.

End Grouping.

Lemma list_sum_perm (l l' : list nat) :
  Permutation l l' -> list_sum l = list_sum l'.
Proof. unfold list_sum. induction 1; cbn [fold_right]; lia. Qed.

Lemma filter_split_perm {A : Type} (p : A -> bool) (l : list A) :
  Permutation (filter p l ++ filter (fun x => negb (p x)) l) l.
Proof.
  induction l as [|x l IH]; cbn [filter]; [constructor|].
  destruct (p x); cbn [negb app].
  - now constructor.
  - apply Permutation_sym, Permutation_cons_app, Permutation_sym. exact IH.
Qed.

Lemma entries_perm {A : Type} (o : list (string * A)) :
  Permutation (JSObject.entries o) o.
Proof.
  unfold JSObject.entries. rewrite sort_by_perm. apply filter_split_perm.
Qed.

Lemma entries_held {A : Type} (g : JSObject.Groups A) :
  list_sum (map (fun kv => List.length (snd kv)) (JSObject.entries g)) = held g.
Proof.
  unfold held. apply list_sum_perm, Permutation_map, entries_perm.
Qed.

Lemma filter_both_length {A : Type} (p : A -> bool) (l : list A) :
  (List.length (filter p l) + List.length (filter (fun x => negb (p x)) l))%nat
  = List.length l.
Proof.
  rewrite <- length_app. apply Permutation_length, filter_split_perm.
Qed.

(** X25.  The summary of tak_get_entities counts every entity it lists
    exactly once in each breakdown: the online and offline counts add up
    to the total, and so do the counts by type and the counts by team,
    whose groups have distinct names and are never empty.  Unless
    [includeStale] is true, every entity listed was updated less than five
    minutes ago. *)
Theorem summary_counts_every_entity_once (includeStale : option bool) (now : Z)
    (fetched : list Client.TAKEntity) (a : GetEntitiesTool.Answer) :
  GetEntitiesTool.handler includeStale now fetched = Client.Ok a ->
  let s := GetEntitiesTool.summary a in
  GetEntitiesTool.totalCount a = List.length (GetEntitiesTool.entities a) /\
  (GetEntitiesTool.s_online s + GetEntitiesTool.s_offline s)%nat
    = GetEntitiesTool.totalCount a /\
  list_sum (map GetEntitiesTool.tc_count (GetEntitiesTool.byType s))
    = GetEntitiesTool.totalCount a /\
  list_sum (map GetEntitiesTool.tm_count (GetEntitiesTool.byTeam s))
    = GetEntitiesTool.totalCount a /\
  NoDup (map GetEntitiesTool.tc_type (GetEntitiesTool.byType s)) /\
  NoDup (map GetEntitiesTool.tm_team (GetEntitiesTool.byTeam s)) /\
  Forall (fun c => (1 <= GetEntitiesTool.tc_count c)%nat) (GetEntitiesTool.byType s) /\
  Forall (fun c => (1 <= GetEntitiesTool.tm_count c)%nat) (GetEntitiesTool.byTeam s) /\
  (includeStale <> Some true ->
   Forall (fun e => GetEntitiesTool.active now e = true) (GetEntitiesTool.entities a)).
Proof.
  unfold GetEntitiesTool.handler. cbv zeta.
  set (activeEntities := match includeStale with
                         | Some true => fetched
                         | _ => filter (GetEntitiesTool.active now) fetched
                         end).
  destruct (JSObject.group_by GetEntitiesTool.typePrefix activeEntities)
    as [byType|] eqn:Et; [|discriminate].
  destruct (JSObject.group_by GetEntitiesTool.teamOf activeEntities)
    as [byTeam|] eqn:Em; [|discriminate].
  intros [= <-].
  cbn [GetEntitiesTool.summary GetEntitiesTool.totalCount GetEntitiesTool.entities
       GetEntitiesTool.byType GetEntitiesTool.byTeam GetEntitiesTool.s_online
       GetEntitiesTool.s_offline].
  assert (Hempty : well_made (@nil (string * list Client.TAKEntity))).
  { split; constructor. }
  destruct (group_from_ok _ _ _ _ Et Hempty) as [[Hnd1 Hall1] Hh1].
  destruct (group_from_ok _ _ _ _ Em Hempty) as [[Hnd2 Hall2] Hh2].
  cbn in Hh1, Hh2.
  split; [now rewrite length_map|].
  split; [apply filter_both_length|].
  split; [rewrite map_map; cbn [GetEntitiesTool.tc_count];
          now rewrite entries_held|].
  split; [rewrite map_map; cbn [GetEntitiesTool.tm_count];
          now rewrite entries_held|].
  split.
  { rewrite map_map. cbn [GetEntitiesTool.tc_type].
    apply (Permutation_NoDup (l := map fst byType)); [|exact Hnd1].
    apply Permutation_sym, Permutation_map, entries_perm. }
  split.
  { rewrite map_map. cbn [GetEntitiesTool.tm_team].
    apply (Permutation_NoDup (l := map fst byTeam)); [|exact Hnd2].
    apply Permutation_sym, Permutation_map, entries_perm. }
  split.
  { apply Forall_forall. intros c Hc. apply in_map_iff in Hc.
    destruct Hc as (kv & <- & Hkv). cbn [GetEntitiesTool.tc_count].
    apply (Permutation_in kv (entries_perm byType)) in Hkv.
    rewrite Forall_forall in Hall1. destruct (Hall1 kv Hkv) as [_ Hne].
    destruct (snd kv); [congruence|cbn; lia]. }
  split.
  { apply Forall_forall. intros c Hc. apply in_map_iff in Hc.
    destruct Hc as (kv & <- & Hkv). cbn [GetEntitiesTool.tm_count].
    apply (Permutation_in kv (entries_perm byTeam)) in Hkv.
    rewrite Forall_forall in Hall2. destruct (Hall2 kv Hkv) as [_ Hne].
    destruct (snd kv); [congruence|cbn; lia]. }
  intro Hs. apply Forall_forall. intros e He. apply in_map_iff in He.
  destruct He as (e0 & <- & He0). unfold GetEntitiesTool.active at 1.
  cbn [Client.lastUpdate].
  assert (Hin : In e0 (filter (GetEntitiesTool.active now) fetched)).
  { subst activeEntities. destruct includeStale as [[|]|]; [congruence| |]; exact He0. }
  apply filter_In in Hin. exact (proj2 Hin).
Qed.

(** X26.  One entity can make the tool throw for every caller: an entity
    that would be listed and has no type, or whose team or type prefix
    bears the name of a property every object inherits (such as
    constructor), ends the call with an exception. *)
Theorem one_entity_makes_the_tool_throw (includeStale : option bool) (now : Z)
    (fetched : list Client.TAKEntity) (e : Client.TAKEntity) :
  In e fetched ->
  includeStale = Some true \/ GetEntitiesTool.active now e = true ->
  Client.e_type e = None \/
  JSObject.is_inherited (Client.team e) = true \/
  (exists ty, Client.e_type e = Some ty /\
     JSObject.is_inherited
       (String.concat "-" (firstn 3 (GetEntitiesTool.split "-" ty))) = true) ->
  exists m, GetEntitiesTool.handler includeStale now fetched = Client.Throw m.
Proof.
  intros Hin Hact Hbad. unfold GetEntitiesTool.handler. cbv zeta.
  set (activeEntities := match includeStale with
                         | Some true => fetched
                         | _ => filter (GetEntitiesTool.active now) fetched
                         end).
  assert (He : In e activeEntities).
  { subst activeEntities. destruct Hact as [-> |Ha]; [exact Hin|].
    destruct includeStale as [[|]|]; [exact Hin| |]; apply filter_In; now split. }
  assert (Hempty : well_made (@nil (string * list Client.TAKEntity))).
  { split; constructor. }
  destruct (JSObject.group_by GetEntitiesTool.typePrefix activeEntities)
    as [byType|m] eqn:Et; [|now exists m].
  destruct (JSObject.group_by GetEntitiesTool.teamOf activeEntities)
    as [byTeam|m] eqn:Em; [|now exists m].
  exfalso. destruct Hbad as [Hty|[Hteam|(ty & Hty & Hpre)]].
  - destruct (group_from_throws GetEntitiesTool.typePrefix activeEntities [] e He Hempty)
      as (m & Hm); [|unfold JSObject.group_by in Et; congruence].
    unfold GetEntitiesTool.typePrefix. now rewrite Hty.
  - destruct (group_from_throws GetEntitiesTool.teamOf activeEntities [] e He Hempty)
      as (m & Hm); [|unfold JSObject.group_by in Em; congruence].
    unfold GetEntitiesTool.teamOf, Client.str_or.
    destruct (Client.team e) as [|c r] eqn:E; [discriminate Hteam|exact Hteam].
  - destruct (group_from_throws GetEntitiesTool.typePrefix activeEntities [] e He Hempty)
      as (m & Hm); [|unfold JSObject.group_by in Et; congruence].
    unfold GetEntitiesTool.typePrefix. now rewrite Hty.
Qed.

(** The entity of an event that came without a type. *)
Definition untyped : Client.TAKEntity :=
  Client.toEntity 1000
    {| Client.uid := Some "Z"%string;
       Client.type := None;
       Client.time := Some 1000;
       Client.start := Some 1000;
       Client.stale := Some 61000;
       Client.how := None;
       Client.point := {| Client.lat := JS.Num 0; Client.lon := JS.Num 0;
                          Client.hae := JS.Num 5; Client.ce := JS.Num 9;
                          Client.le := JS.Num 9 |};
       Client.detail := None |}.

Definition listed (r : Client.result GetEntitiesTool.Answer) : GetEntitiesTool.Answer :=
  match r with
  | Client.Ok a => a
  | Client.Throw _ =>
      {| GetEntitiesTool.totalCount := 0;
         GetEntitiesTool.entities := [];
         GetEntitiesTool.summary :=
           {| GetEntitiesTool.byType := []; GetEntitiesTool.byTeam := [];
              GetEntitiesTool.s_online := 0; GetEntitiesTool.s_offline := 0 |} |}
  end.

Lemma summary_counts_every_entity_once_witness :
  let a := listed (GetEntitiesTool.handler None 2000 threeEntities) in
  GetEntitiesTool.totalCount a = 3%nat /\
  (GetEntitiesTool.s_online (GetEntitiesTool.summary a)
   + GetEntitiesTool.s_offline (GetEntitiesTool.summary a))%nat
    = GetEntitiesTool.totalCount a /\
  list_sum (map GetEntitiesTool.tc_count
              (GetEntitiesTool.byType (GetEntitiesTool.summary a)))
    = GetEntitiesTool.totalCount a.
Proof.
  cbv zeta. split; [reflexivity|].
  destruct (summary_counts_every_entity_once None 2000 threeEntities
              (listed (GetEntitiesTool.handler None 2000 threeEntities)) eq_refl)
    as (_ & H1 & H2 & _).
  split; assumption.
Defined.

Lemma one_entity_makes_the_tool_throw_witness :
  exists m,
    GetEntitiesTool.handler (Some true) 2000 (threeEntities ++ [untyped])
    = Client.Throw m.
Proof.
  apply (one_entity_makes_the_tool_throw (Some true) 2000
           (threeEntities ++ [untyped]) untyped).
  - apply in_or_app. right. now left.
  - left. reflexivity.
  - left. reflexivity.
Defined.

(** ** Spatial queries: the summary *)

Section TimeRange.
Import SpatialQuery.

Lemma earliest_fold (l : list Enriched) (m0 : JS.Date) (t : Z) :
  fold_left (fun min e => if JS.date_gt min (r_time e) then r_time e else min) l m0
    = Some t ->
  (exists t0, m0 = Some t0 /\ t <= t0) /\
  forall e te, In e l -> r_time e = Some te -> t <= te.
Proof.
  revert m0. induction l as [|e l IH]; cbn [fold_left]; intros m0 H.
  - split; [exists t; split; [exact H|lia]|]. intros e te [].
  - destruct (IH _ H) as [(t1 & H1 & Hle) Hall].
    destruct m0 as [t0|]; [|destruct (r_time e); discriminate H1].
    destruct (r_time e) as [te|] eqn:Ee; cbn [JS.date_gt] in H1.
    + destruct (Z.gtb_spec t0 te) as [Hgt|Hng]; injection H1 as <-.
      * split; [exists t0; split; [reflexivity|lia]|].
        intros e' te' [<-|Hin] He'; [rewrite Ee in He'; injection He' as <-; lia|].
        now apply (Hall e').
      * split; [exists t0; split; [reflexivity|lia]|].
        intros e' te' [<-|Hin] He'; [rewrite Ee in He'; injection He' as <-; lia|].
        now apply (Hall e').
    + injection H1 as <-. split; [exists t0; split; [reflexivity|lia]|].
      intros e' te' [<-|Hin] He'; [congruence|]. now apply (Hall e').
Qed.

Lemma latest_fold (l : list Enriched) (m0 : JS.Date) (t : Z) :
  fold_left (fun max e => if JS.date_gt (r_time e) max then r_time e else max) l m0
    = Some t ->
  (exists t0, m0 = Some t0 /\ t0 <= t) /\
  forall e te, In e l -> r_time e = Some te -> te <= t.
Proof.
  revert m0. induction l as [|e l IH]; cbn [fold_left]; intros m0 H.
  - split; [exists t; split; [exact H|lia]|]. intros e te [].
  - destruct (IH _ H) as [(t1 & H1 & Hle) Hall].
    destruct m0 as [t0|];
      [|destruct (r_time e); cbn [JS.date_gt] in H1; discriminate H1].
    destruct (r_time e) as [te|] eqn:Ee; cbn [JS.date_gt] in H1.
    + destruct (Z.gtb_spec te t0) as [Hgt|Hng]; injection H1 as <-.
      * split; [exists t0; split; [reflexivity|lia]|].
        intros e' te' [<-|Hin] He'; [rewrite Ee in He'; injection He' as <-; lia|].
        now apply (Hall e').
      * split; [exists t0; split; [reflexivity|lia]|].
        intros e' te' [<-|Hin] He'; [rewrite Ee in He'; injection He' as <-; lia|].
        now apply (Hall e').
    + injection H1 as <-. split; [exists t0; split; [reflexivity|lia]|].
      intros e' te' [<-|Hin] He'; [congruence|]. now apply (Hall e').
Qed.

End TimeRange.

(** X27.  The summary of a spatial query is consistent with its results:
    the counts by type add up to the total; the bounds are null exactly
    when there is no result, and otherwise enclose every result and are
    attained on each side; the earliest and latest times, when they are
    valid dates, bound the valid times of all results; and unless
    [includeStale] is true every result is stale only after now. *)
Theorem spatial_summary_is_consistent
    (turf_distance turf_bearing : SpatialQuery.position -> SpatialQuery.position -> Q)
    (params : SpatialQuery.Params) (now : Z) (events : list Client.CotEvent)
    (a : SpatialQuery.Answer) :
  SpatialQuery.handler turf_distance turf_bearing params now events = Client.Ok a ->
  SpatialQuery.totalCount a = List.length (SpatialQuery.results a) /\
  list_sum (map snd (SpatialQuery.byType a)) = SpatialQuery.totalCount a /\
  (SpatialQuery.bounds a = None <-> SpatialQuery.results a = []) /\
  (forall w s e n, SpatialQuery.bounds a = Some (w, s, e, n) ->
     Forall (fun r => (w <= SpatialQuery.r_lon r <= e)%Q /\
                      (s <= SpatialQuery.r_lat r <= n)%Q)
            (SpatialQuery.results a) /\
     In w (map SpatialQuery.r_lon (SpatialQuery.results a)) /\
     In e (map SpatialQuery.r_lon (SpatialQuery.results a)) /\
     In s (map SpatialQuery.r_lat (SpatialQuery.results a)) /\
     In n (map SpatialQuery.r_lat (SpatialQuery.results a))) /\
  (forall t, SpatialQuery.earliest (SpatialQuery.timeRange a) = Some (Some t) ->
     forall r tr, In r (SpatialQuery.results a) ->
       SpatialQuery.r_time r = Some tr -> t <= tr) /\
  (forall t, SpatialQuery.latest (SpatialQuery.timeRange a) = Some (Some t) ->
     forall r tr, In r (SpatialQuery.results a) ->
       SpatialQuery.r_time r = Some tr -> tr <= t) /\
  (SpatialQuery.includeStale params <> Some true ->
   Forall (fun r => JS.date_gt (SpatialQuery.r_stale r) (Some now) = true)
          (SpatialQuery.results a)).
Proof.
  unfold SpatialQuery.handler. cbv zeta.
  set (filtered := match SpatialQuery.includeStale params with
                   | Some true => events
                   | _ => filter (fun event => JS.date_gt (Client.stale event) (Some now))
                                 events
                   end).
  destruct (FindNearest.map_result _ filtered) as [enriched|] eqn:E; [|discriminate].
  destruct (JSObject.group_by _ enriched) as [grouped|] eqn:G; [|discriminate].
  intros [= <-].
  cbn [SpatialQuery.totalCount SpatialQuery.results SpatialQuery.byType
       SpatialQuery.bounds SpatialQuery.timeRange SpatialQuery.earliest
       SpatialQuery.latest].
  split; [reflexivity|]. split.
  { rewrite map_map. cbn [snd]. rewrite entries_held.
    assert (Hempty : well_made (@nil (string * list SpatialQuery.Enriched)))
      by (split; constructor).
    destruct (group_from_ok _ _ _ _ G Hempty) as [_ Hh]. exact Hh. }
  split.
  { destruct enriched; cbn [SpatialQuery.calculateBounds]; split; congruence. }
  split.
  { intros w s e n Hb. destruct enriched as [|r0 rest] eqn:El; [discriminate|].
    rewrite <- El in *. unfold SpatialQuery.calculateBounds in Hb.
    rewrite El in Hb at 1. injection Hb as <- <- <- <-.
    assert (Hlon : map SpatialQuery.r_lon enriched <> []) by (rewrite El; discriminate).
    assert (Hlat : map SpatialQuery.r_lat enriched <> []) by (rewrite El; discriminate).
    split.
    - apply Forall_forall. intros r Hr. repeat split.
      + apply minimum_least. now apply in_map.
      + apply maximum_greatest. now apply in_map.
      + apply minimum_least. now apply in_map.
      + apply maximum_greatest. now apply in_map.
    - repeat split; (apply minimum_In || apply maximum_In); assumption. }
  split.
  { intros t Ht r tr Hr Htr. destruct enriched as [|r0 rest] eqn:El; [destruct Hr|].
    rewrite <- El in *. injection Ht as Ht.
    exact (proj2 (earliest_fold _ _ _ Ht) r tr Hr Htr). }
  split.
  { intros t Ht r tr Hr Htr. destruct enriched as [|r0 rest] eqn:El; [destruct Hr|].
    rewrite <- El in *. injection Ht as Ht.
    exact (proj2 (latest_fold _ _ _ Ht) r tr Hr Htr). }
  intro Hs. apply map_result_Forall2 in E. apply Forall_forall. intros r Hr.
  destruct (Forall2_In_r _ _ _ _ E Hr) as (ev & Hev & Hen).
  assert (Hf : In ev (filter (fun event => JS.date_gt (Client.stale event) (Some now))
                             events)).
  { subst filtered. destruct (SpatialQuery.includeStale params) as [[|]|];
      [congruence| |]; exact Hev. }
  apply filter_In in Hf. destruct Hf as [_ Hst].
  unfold SpatialQuery.enrich in Hen.
  destruct (FindNearest.turf_point _ _) as [[x y]|]; [|discriminate].
  injection Hen as <-. exact Hst.
Qed.

Definition found (r : Client.result SpatialQuery.Answer) : SpatialQuery.Answer :=
  match r with
  | Client.Ok a => a
  | Client.Throw _ =>
      {| SpatialQuery.totalCount := 0; SpatialQuery.results := [];
         SpatialQuery.byType := []; SpatialQuery.bounds := None;
         SpatialQuery.timeRange :=
           {| SpatialQuery.earliest := None; SpatialQuery.latest := None |} |}
  end.

Definition aroundGreenwich : SpatialQuery.Params :=
  {| SpatialQuery.center := Some (0, 0)%Q;
     SpatialQuery.radius := Some 1000%Q;
     SpatialQuery.includeStale := None |}.

Lemma spatial_summary_is_consistent_witness :
  let a := found (SpatialQuery.handler flatDistance dueEast aroundGreenwich 2000
                    [eventAt "A" 0 (2 # 1000); eventAt "B" (1 # 1000) 0]) in
  SpatialQuery.totalCount a = 2%nat /\
  list_sum (map snd (SpatialQuery.byType a)) = SpatialQuery.totalCount a /\
  SpatialQuery.bounds a = Some (0, 0, 2 # 1000, 1 # 1000)%Q.
Proof.
  cbv zeta. split; [reflexivity|].
  destruct (spatial_summary_is_consistent flatDistance dueEast aroundGreenwich 2000
              [eventAt "A" 0 (2 # 1000); eventAt "B" (1 # 1000) 0]
              (found (SpatialQuery.handler flatDistance dueEast aroundGreenwich 2000
                        [eventAt "A" 0 (2 # 1000); eventAt "B" (1 # 1000) 0]))
              eq_refl) as (_ & H & _).
  split; [exact H|reflexivity].
Defined.

(** ** The tool registry *)

Section RegistryFacts.
Import Registry.

Lemma get_set_same (tools : Tools) (k : string) (t : TAKTool) :
  get (set tools k t) k = Some t.
Proof.
  induction tools as [|[k' t'] tools IH]; cbn [set get].
  - now rewrite String.eqb_refl.
  - destruct (String.eqb k' k) eqn:E; cbn [get]; rewrite E; [reflexivity|exact IH].
Qed.

Lemma get_set_other (tools : Tools) (k n : string) (t : TAKTool) :
  n <> k -> get (set tools k t) n = get tools n.
Proof.
  intro Hne. induction tools as [|[k' t'] tools IH]; cbn [set get].
  - destruct (String.eqb_spec k n); [congruence|reflexivity].
  - destruct (String.eqb_spec k' k) as [->|Hk]; cbn [get].
    + destruct (String.eqb_spec k n); [congruence|reflexivity].
    + now rewrite IH.
Qed.

Lemma set_names (tools : Tools) (k : string) (t : TAKTool) (x : string) :
  In x (map fst (set tools k t)) -> x = k \/ In x (map fst tools).
Proof.
  induction tools as [|[k' t'] tools IH]; cbn [set map fst In].
  - intros [<-|[]]. now left.
  - destruct (String.eqb k' k); cbn [map fst In]; [tauto|].
    intros [<-|H]; [right; now left|]. destruct (IH H); tauto.
Qed.

Lemma set_NoDup (tools : Tools) (k : string) (t : TAKTool) :
  NoDup (map fst tools) -> NoDup (map fst (set tools k t)).
Proof.
  induction tools as [|[k' t'] tools IH]; cbn [set map fst]; intro H.
  - repeat constructor. intros [].
  - destruct (String.eqb_spec k' k) as [->|Hne]; cbn [map fst]; [exact H|].
    inversion H as [|? ? Hk Hm]; subst. constructor; [|now apply IH].
    intro Hin. apply set_names in Hin. destruct Hin as [->|Hin]; tauto.
Qed.

Lemma set_In (tools : Tools) (k : string) (t : TAKTool) (kv : string * TAKTool) :
  In kv (set tools k t) -> kv = (k, t) \/ In kv tools.
Proof.
  induction tools as [|[k' t'] tools IH]; cbn [set In].
  - intros [<-|[]]. now left.
  - destruct (String.eqb_spec k' k) as [->|Hne]; cbn [In].
    + intros [<-|H]; [now left|right; now right].
    + intros [H|H]; [tauto|]. destruct (IH H); tauto.
Qed.

Lemma get_In (tools : Tools) (n : string) (t : TAKTool) :
  get tools n = Some t -> In (n, t) tools.
Proof.
  induction tools as [|[k' t'] tools IH]; cbn [get In]; [discriminate|].
  destruct (String.eqb_spec k' n) as [->|Hne].
  - intros [= ->]. now left.
  - intro H. right. now apply IH.
Qed.

(** Every tool is stored under its own name, the names are distinct, and
    the tools are among those registered. *)
Definition sound (registered : list TAKTool) (tools : Tools) : Prop :=
  NoDup (map fst tools) /\
  Forall (fun kv => name (snd kv) = fst kv /\ In (snd kv) registered) tools.

Lemma registry_sound (registered : list TAKTool) :
  sound registered (registry registered).
Proof.
  unfold registry.
  assert (H : forall l tools, incl l registered -> sound registered tools ->
                sound registered (fold_left registerTool l tools)).
  { induction l as [|t l IH]; intros tools Hl Hs; cbn [fold_left]; [exact Hs|].
    apply IH; [intros x Hx; apply Hl; now right|].
    destruct Hs as [Hnd Hall]. unfold registerTool. split; [now apply set_NoDup|].
    apply Forall_forall. intros kv Hkv. apply set_In in Hkv.
    destruct Hkv as [->|Hkv].
    - cbn [fst snd]. split; [reflexivity|]. apply Hl. now left.
    - rewrite Forall_forall in Hall. now apply Hall. }
  apply H; [apply incl_refl|]. split; constructor.
Qed.

End RegistryFacts.

(** X28.  In a registry built by registering tools one after another, a
    lookup by name returns a registered tool of that name, and no two
    tools listed have the same name; registering a tool makes it the one
    found under its name and changes no other lookup.  The enabled tools
    are all the tools when the list is absent or empty, and otherwise
    only tools whose names are on the list; the read-only tools never
    require write access. *)
Theorem registry_lookup_and_selection (registered : list Registry.TAKTool) :
  let tools := Registry.registry registered in
  NoDup (map Registry.name (Registry.getAllTools tools)) /\
  (forall n t, Registry.getTool tools n = Some t ->
     Registry.name t = n /\ In t registered) /\
  (forall t, Registry.getTool (Registry.registerTool tools t) (Registry.name t)
             = Some t) /\
  (forall t n, n <> Registry.name t ->
     Registry.getTool (Registry.registerTool tools t) n = Registry.getTool tools n) /\
  Registry.getEnabledTools tools None = Registry.getAllTools tools /\
  Registry.getEnabledTools tools (Some []) = Registry.getAllTools tools /\
  (forall n ns t, In t (Registry.getEnabledTools tools (Some (n :: ns))) ->
     In (Registry.name t) (n :: ns) /\ In t (Registry.getAllTools tools)) /\
  (forall t, In t (Registry.getReadOnlyTools tools) ->
     Registry.requiresWrite t <> Some true).
Proof.
  cbv zeta. destruct (registry_sound registered) as [Hnd Hall].
  set (tools := Registry.registry registered) in *.
  split.
  { unfold Registry.getAllTools. rewrite map_map.
    rewrite (map_ext_in _ fst); [exact Hnd|].
    intros kv Hkv. rewrite Forall_forall in Hall. now apply Hall. }
  split.
  { intros n t Hg. apply get_In in Hg. rewrite Forall_forall in Hall.
    exact (Hall _ Hg). }
  split; [intro t; apply get_set_same|].
  split; [intros t n Hne; now apply get_set_other|].
  split; [reflexivity|]. split; [reflexivity|]. split.
  - intros n ns t Ht. unfold Registry.getEnabledTools in Ht.
    apply filter_In in Ht. destruct Ht as [Hin Hex]. split; [|exact Hin].
    now apply existsb_eqb_In.
  - intros t Ht. unfold Registry.getReadOnlyTools in Ht.
    apply filter_In in Ht. destruct Ht as [_ Hw].
    destruct (Registry.requiresWrite t) as [[|]|]; [discriminate Hw| |];
      discriminate.
Qed.

(** ** Emergency alerts: the units notified and the type of the event *)

Lemma flat_map_length_le {A B : Type} (f : A -> list B) (l : list A) :
  (forall x, (List.length (f x) <= 1)%nat) ->
  (List.length (flat_map f l) <= List.length l)%nat.
Proof.
  intro H. induction l as [|x l IH]; cbn [flat_map List.length]; [lia|].
  rewrite length_app. specialize (H x). lia.
Qed.

(** X29.  The units an emergency reports as nearby are at most ten, no
    more than the number notified, in ascending order of their rounded
    distance; each is an entity of the store with numeric coordinates
    whose rough distance from the emergency is within the notification
    radius, and never the entity the emergency is located by.  Without a
    positive radius no unit is notified. *)
Theorem nearby_units_are_near_sorted_and_capped (Math_sqrt : Q -> Q)
    (params : SendEmergency.Params) (entities : list Client.TAKEntity)
    (a : SendEmergency.Answer) :
  SendEmergency.handler Math_sqrt params entities = Client.Ok a ->
  (List.length (SendEmergency.nearbyUnits a) <= 10)%nat /\
  (List.length (SendEmergency.nearbyUnits a) <= SendEmergency.notifiedUnits a
   <= List.length entities)%nat /\
  StronglySorted (by_key SendEmergency.u_distance) (SendEmergency.nearbyUnits a) /\
  Forall (fun u =>
            exists e d radius,
              In e entities /\
              SendEmergency.notifyRadius params = Some radius /\
              (0 < radius)%Q /\
              SendEmergency.roughDistance Math_sqrt (SendEmergency.a_location a) e
                = JS.Num d /\
              (d <= radius)%Q /\
              SendEmergency.u_distance u = JS.Math_round d /\
              SendEmergency.u_uid u = Client.e_uid e /\
              Client.e_uid e <> SendEmergency.loc_entityId (SendEmergency.p_location params))
         (SendEmergency.nearbyUnits a) /\
  ((forall radius, SendEmergency.notifyRadius params = Some radius -> (radius <= 0)%Q) ->
   SendEmergency.notifiedUnits a = 0%nat /\ SendEmergency.nearbyUnits a = []).
Proof.
  unfold SendEmergency.handler. cbv zeta.
  destruct (match SendEmergency.loc_coordinates (SendEmergency.p_location params) with
            | Some (la, lo) => _
            | None => _
            end) as [[loc cs]|]; [|discriminate].
  intros [= <-].
  cbn [SendEmergency.nearbyUnits SendEmergency.notifiedUnits SendEmergency.a_location].
  set (units := SendEmergency.nearby Math_sqrt params loc entities).
  destruct (slice0_firstn units 10) as (n & -> & Hn).
  rewrite (Hn ltac:(lia)). change (Z.to_nat 10) with 10%nat.
  assert (Hsorted : StronglySorted (by_key SendEmergency.u_distance) units).
  { unfold units, SendEmergency.nearby.
    destruct (SendEmergency.notifyRadius params) as [r|]; [|constructor].
    destruct (JS.Qlt_bool 0 r); [apply sort_by_sorted|constructor]. }
  assert (Hlen : (List.length units <= List.length entities)%nat).
  { unfold units, SendEmergency.nearby.
    destruct (SendEmergency.notifyRadius params) as [r|]; [|cbn; lia].
    destruct (JS.Qlt_bool 0 r); [|cbn; lia].
    rewrite (Permutation_length (sort_by_perm _ _)).
    apply flat_map_length_le. intro e. unfold SendEmergency.within.
    destruct (SendEmergency.roughDistance Math_sqrt loc e); [cbn; lia|].
    destruct (_ && _); cbn; lia. }
  split; [apply firstn_le_length|].
  split; [split; [rewrite length_firstn; lia|exact Hlen]|].
  split; [now apply sorted_firstn|].
  split.
  - apply Forall_forall. intros u Hu. apply firstn_In in Hu.
    unfold units, SendEmergency.nearby in Hu.
    destruct (SendEmergency.notifyRadius params) as [r|]; [|destruct Hu].
    pose proof (Qlt_bool_spec 0 r) as Hr.
    destruct (JS.Qlt_bool 0 r); [|destruct Hu].
    apply (Permutation_in u (sort_by_perm SendEmergency.u_distance _)) in Hu.
    apply in_flat_map in Hu. destruct Hu as (e & He & Hu).
    unfold SendEmergency.within in Hu.
    destruct (SendEmergency.roughDistance Math_sqrt loc e) as [|d] eqn:Ed;
      [destruct Hu|].
    destruct (Qle_bool d r) eqn:Ele; [|destruct Hu]. cbn [andb] in Hu.
    destruct (Client.key_eqb (Client.e_uid e) _) eqn:Ek; [destruct Hu|].
    destruct Hu as [<-|[]].
    exists e, d, r. cbn [SendEmergency.u_distance SendEmergency.u_uid].
    repeat split; try assumption; try reflexivity.
    + now apply Qle_bool_iff.
    + now apply key_eqb_neq.
  - intro Hnone. assert (Hu : units = []).
    { unfold units, SendEmergency.nearby.
      destruct (SendEmergency.notifyRadius params) as [r|]; [|reflexivity].
      rewrite Qlt_bool_false; [reflexivity|]. now apply Hnone. }
    rewrite Hu. split; [reflexivity|apply firstn_nil].
Qed.

(** A stand-in for [Math.sqrt] in the example: the square root to six
    decimals. *)
Definition sqrt6 (x : Q) : Q :=
  Z.sqrt (Qnum x * QDen x * 10 ^ 12) # (Qden x * 10 ^ 6).

Definition emergencyAt (r : option Q) : SendEmergency.Params :=
  {| SendEmergency.p_type := "medical";
     SendEmergency.p_message := "Man down";
     SendEmergency.p_location :=
       {| SendEmergency.loc_entityId := Some "B"%string;
          SendEmergency.loc_coordinates := None |};
     SendEmergency.p_callsign := None;
     SendEmergency.notifyRadius := r |}.

Definition alerted (r : Client.result SendEmergency.Answer) : SendEmergency.Answer :=
  match r with
  | Client.Ok a => a
  | Client.Throw _ =>
      {| SendEmergency.a_location := (JS.NaN, JS.NaN);
         SendEmergency.a_cotType := None;
         SendEmergency.a_callsign := "";
         SendEmergency.notifiedUnits := 0;
         SendEmergency.nearbyUnits := [] |}
  end.

Lemma nearby_units_are_near_sorted_and_capped_witness :
  let a := alerted (SendEmergency.handler sqrt6 (emergencyAt (Some 5000%Q))
                      threeEntities) in
  SendEmergency.notifiedUnits a = 1%nat /\
  (List.length (SendEmergency.nearbyUnits a) <= 10)%nat /\
  StronglySorted (by_key SendEmergency.u_distance) (SendEmergency.nearbyUnits a).
Proof.
  cbv zeta. split; [reflexivity|].
  destruct (nearby_units_are_near_sorted_and_capped sqrt6
              (emergencyAt (Some 5000%Q)) threeEntities
              (alerted (SendEmergency.handler sqrt6 (emergencyAt (Some 5000%Q))
                          threeEntities)) eq_refl) as (H1 & _ & H3 & _).
  split; assumption.
Defined.

(** An event of a given type, as the emergency tool sends it. *)
Definition eventAt_type (ty : string) : Client.CotEvent :=
  {| Client.uid := Some "emergency-1"%string;
     Client.type := Some ty;
     Client.time := Some 0;
     Client.start := Some 0;
     Client.stale := Some 14400000;
     Client.how := Some "m-g"%string;
     Client.point := {| Client.lat := JS.Num 0; Client.lon := JS.Num 0;
                        Client.hae := Client.UNKNOWN; Client.ce := JS.Num 10;
                        Client.le := JS.Num 10 |};
     Client.detail := None |}.

Example emergency_kinds :
  SendEmergency.cotTypeOf "medical" = Some "b-a-o-med"%string /\
  SendEmergency.cotTypeOf "earthquake" = Some "b-a-o-oth"%string /\
  SendEmergency.cotTypeOf "toString" = None /\
  GetEntitiesTool.typePrefix (Client.toEntity 0 (eventAt_type "b-a-o-med"))
    = Client.Ok "b-a-o"%string.
Proof. repeat split. Qed.

(** X30.  An emergency whose kind is not the name of a property that
    every object inherits is sent under a CoT type that begins with
    b-a-o-: the type the table gives for its seven kinds, b-a-o-oth for
    any other kind.  An entity of such a type is grouped by
    tak_get_entities under b-a-o, which it describes as Emergency/Alert.
    For the name of an inherited property (constructor, toString and the
    like) the table yields what the object inherits, and no type. *)
Theorem emergencies_are_listed_as_alerts (kind : string) :
  (JSObject.is_inherited kind = true -> SendEmergency.cotTypeOf kind = None) /\
  (JSObject.is_inherited kind = false ->
   exists cotType,
     SendEmergency.cotTypeOf kind = Some cotType /\
     String.prefix "b-a-o-" cotType = true /\
     (forall known, In known SendEmergency.cotTypeMap -> fst known = kind ->
        cotType = snd known) /\
     ((forall known, In known SendEmergency.cotTypeMap -> fst known <> kind) ->
      cotType = "b-a-o-oth"%string) /\
     (forall e, Client.e_type e = Some cotType ->
        GetEntitiesTool.typePrefix e = Client.Ok "b-a-o"%string)) /\
  GetEntitiesTool.getTypeDescription "b-a-o" = "Emergency/Alert"%string.
Proof.
  split; [|split; [|reflexivity]].
  - intro H. unfold JSObject.is_inherited in H. apply existsb_exists in H.
    destruct H as (k & Hin & Hk). apply String.eqb_eq in Hk. subst k.
    cbn in Hin.
    repeat (destruct Hin as [<-|Hin]; [reflexivity|]). destruct Hin.
  - intro Hinh. unfold SendEmergency.cotTypeOf.
    destruct (find _ SendEmergency.cotTypeMap) as [kv|] eqn:Ef.
    + apply find_some in Ef. destruct Ef as [Hin Hk].
      apply String.eqb_eq in Hk. exists (snd kv).
      split; [reflexivity|].
      assert (Hoth : (forall known, In known SendEmergency.cotTypeMap ->
                        fst known <> kind) -> snd kv = "b-a-o-oth"%string).
      { intro Hnone. exfalso. exact (Hnone kv Hin Hk). }
      cbn in Hin.
      destruct Hin as [<-|[<-|[<-|[<-|[<-|[<-|[<-|[]]]]]]]]; cbn [fst snd] in *;
        subst kind;
        (split; [reflexivity|]);
        (split;
         [intros known Hin Hk; cbn in Hin;
          destruct Hin as [<-|[<-|[<-|[<-|[<-|[<-|[<-|[]]]]]]]];
          cbn [fst snd] in *; (reflexivity || discriminate Hk)|]);
        (split; [exact Hoth|]);
        intros e He; unfold GetEntitiesTool.typePrefix; rewrite He; reflexivity.
    + rewrite Hinh. exists "b-a-o-oth"%string.
      split; [reflexivity|]. split; [reflexivity|].
      split; [|split; [reflexivity|]].
      * intros known Hin Hk.
        pose proof (find_none _ _ Ef known Hin) as Hf. cbn beta in Hf.
        rewrite Hk, String.eqb_refl in Hf. discriminate.
      * intros e He. unfold GetEntitiesTool.typePrefix. rewrite He. reflexivity.
Qed.
